(** * tinyland-a11y-logger: the buffered accessibility log shipper

    A shallow embedding of [src/config.ts] and [src/a11y-logger.ts], and the
    properties of the queue, the flush scheduler and the transport that the
    specification states about them.

    JavaScript values are embedded as follows.
    - A [number] is an IEEE binary64 value: Rocq's primitive [float].
    - A time value (the result of [Date::getTime]) is an integral number of
      milliseconds, or NaN; it is embedded as [option Z].  Its product with
      1000000 is a Number again: the integer nearest to the exact product
      that binary64 holds, which [Number::toString] then prints, in decimal
      digits below 10^21 and in exponent notation from there on.
    - An array is a mutable object: the store maps its address to its
      elements, and a variable holding an array holds the address.
    - An object literal with string keys is the list of its properties in
      insertion order.
    - The built-ins the module calls and does not define ([Date] parsing,
      [Number::toString], [JSON.stringify], [process], the [unref] of a
      timer) are the fields of a [Host] the development is parameterised by.
    - [fetch] returns a promise; that it settles, fulfilled or rejected, is
      an event of the loop. *)

From Stdlib Require Import ZArith String Ascii List Bool Lia Floats.
From stdpp Require Import base option list gmap strings.

Open Scope string_scope.
Open Scope list_scope.

(** ** JavaScript values *)

(** An optional property of an object: missing, present and holding
    [undefined], or present with a value. *)
Inductive OptProp (T : Type) : Type :=
  | Absent
  | Undefined
  | Present (v : T).
Arguments Absent {T}.
Arguments Undefined {T}.
Arguments Present {T} v.

(** [p ?? d] *)
Definition nullish {T : Type} (p : OptProp T) (d : T) : T :=
  match p with
  | Present v => v
  | _ => d
  end.

(** The property [k] of [{...a, ...b}], from the property [k] of [a] and
    that of [b]: an own property of [b] wins, whatever it holds. *)
Definition spread {T : Type} (a b : OptProp T) : OptProp T :=
  match b with
  | Absent => a
  | _ => b
  end.

(** Truthiness of a number: [0], [-0] and NaN are falsy. *)
Definition truthy_number (n : float) : bool :=
  negb (PrimFloat.eqb n 0) && PrimFloat.eqb n n.

(** Truthiness of a string: only the empty string is falsy. *)
Definition truthy_string (s : string) : bool :=
  match s with
  | EmptyString => false
  | String _ _ => true
  end.

(** [x || d] for an optional number and an optional string ([undefined] is
    falsy). *)
Definition or_number (x : option float) (d : float) : float :=
  match x with
  | Some n => if truthy_number n then n else d
  | None => d
  end.

Definition or_string (x : option string) (d : string) : string :=
  match x with
  | Some s => if truthy_string s then s else d
  | None => d
  end.

(** [String::toUpperCase] on the ASCII letters. *)
Definition upper_ascii (c : ascii) : ascii :=
  let n := nat_of_ascii c in
  if (97 <=? n)%nat && (n <=? 122)%nat then ascii_of_nat (n - 32) else c.

Fixpoint toUpperCase (s : string) : string :=
  match s with
  | EmptyString => EmptyString
  | String c s' => String (upper_ascii c) (toUpperCase s')
  end.

(** The decimal digits of a non-negative integer, most significant first;
    [fuel] bounds the number of digits. *)
Definition digit (n : Z) : ascii := ascii_of_nat (48 + Z.to_nat n).

Fixpoint digits (fuel : nat) (n : Z) : string :=
  match fuel with
  | O => ""
  | S f =>
      ((if (n <? 10)%Z then "" else digits f (n / 10))
         ++ String (digit (n mod 10)) "")%string
  end.

Definition digits_fuel (n : Z) : nat := S (Z.to_nat (Z.log2 n)).

(** [Number::toString] of an integral number. *)
Definition integerToString (n : Z) : string :=
  if (n <? 0)%Z then ("-" ++ digits (digits_fuel (- n)) (- n))%string
  else digits (digits_fuel n) n.

(** The value of a decimal digit. *)
Definition digit_value (c : ascii) : option Z :=
  let n := nat_of_ascii c in
  if (48 <=? n)%nat && (n <=? 57)%nat then Some (Z.of_nat (n - 48)) else None.

(** The number a text of decimal digits writes. *)
Fixpoint decimal_value (s : string) (acc : Z) : option Z :=
  match s with
  | EmptyString => Some acc
  | String c s' =>
      match digit_value c with
      | Some d => decimal_value s' (10 * acc + d)%Z
      | None => None
      end
  end.

(** The Number value for an integer [p]: the nearest binary64 value, ties
    to the even significand.  Every integer below 2^53 in magnitude is a
    Number; beyond, the 53 leading binary digits are kept.  (No integer of
    this development comes near 2^1024, where a Number overflows.) *)
Definition nearest_double (p : Z) : Z :=
  let a := Z.abs p in
  if (a <? 2 ^ 53)%Z then p
  else
    let e := (Z.log2 a - 52)%Z in
    let q := (a / 2 ^ e)%Z in
    let r := (a mod 2 ^ e)%Z in
    let h := (2 ^ (e - 1))%Z in
    let q' :=
      if (h <? r)%Z || ((r =? h)%Z && Z.odd q) then (q + 1)%Z else q in
    (Z.sgn p * (q' * 2 ^ e))%Z.

(** Step 5 of [Number::toString] for an integral Number [v > 0]: the
    decimal [s * 10^j] with the fewest digits [s] whose Number value is
    [v]; of two with as few digits the one closer to [v], and the one with
    [s] even when they are as close.  The candidates with [j] trailing
    zeros are the multiples of [10^j] on either side of [v]; [j] counts
    down, so that the first found has the fewest digits. *)
Fixpoint shortest (j : nat) (v : Z) : Z :=
  let u := (10 ^ Z.of_nat j)%Z in
  let lo := (v / u * u)%Z in
  let hi := (lo + u)%Z in
  let ok_lo := (0 <? lo)%Z && (nearest_double lo =? v)%Z in
  let ok_hi := (nearest_double hi =? v)%Z in
  if ok_lo && ok_hi then
    if (v - lo <? hi - v)%Z then lo
    else if (hi - v <? v - lo)%Z then hi
    else if Z.even (lo / u) then lo else hi
  else if ok_lo then lo
  else if ok_hi then hi
  else
    match j with
    | O => v
    | S j' => shortest j' v
    end.

(** An integer without its trailing decimal zeros. *)
Fixpoint strip_zeros (fuel : nat) (d : Z) : Z :=
  match fuel with
  | O => d
  | S f => if (d mod 10 =? 0)%Z then strip_zeros f (d / 10)%Z else d
  end.

(** Steps 6 and 7 of [Number::toString] for the decimal [d > 0] step 5
    chose: its digits when it has at most 21 of them, and otherwise the
    digits of [s], a point after the first when there are more, and the
    exponent. *)
Definition decimal_or_exponent (d : Z) : string :=
  if (d <? 10 ^ 21)%Z then digits (digits_fuel d) d
  else
    let s := strip_zeros (digits_fuel d) d in
    let n := String.length (digits (digits_fuel d) d) in
    let e := Z.of_nat (n - 1) in
    let mantissa :=
      match digits (digits_fuel s) s with
      | String c EmptyString => String c EmptyString
      | String c rest => String c ("." ++ rest)
      | EmptyString => EmptyString
      end in
    (mantissa ++ "e+" ++ digits (digits_fuel e) e)%string.

(** [Number::toString] of an integral Number, given as the integer it
    is. *)
Definition Number_toString (v : Z) : string :=
  if (v =? 0)%Z then "0"
  else if (v <? 0)%Z
       then ("-" ++ decimal_or_exponent
                      (shortest (Z.to_nat (Z.log2 (- v))) (- v)))%string
       else decimal_or_exponent (shortest (Z.to_nat (Z.log2 v)) v).

(** JSON values, as handed to [JSON.stringify]. *)
#[warnings="-register-all"]
Inductive Json : Type :=
  | JString (s : string)
  | JNumber (n : float)
  | JArray (items : list Json)
  | JObject (props : list (string * Json)).

(** [o[k] = v] on a property list: an existing key keeps its place. *)
Fixpoint obj_set {V : Type} (k : string) (v : V) (o : list (string * V))
  : list (string * V) :=
  match o with
  | [] => [(k, v)]
  | (k', v') :: o' =>
      if String.eqb k' k then (k', v) :: o' else (k', v') :: obj_set k v o'
  end.

(** [{...o, ...src}] *)
Definition obj_spread {V : Type} (o src : list (string * V))
  : list (string * V) :=
  fold_left (fun acc kv => obj_set (fst kv) (snd kv) acc) src o.

(** [o[k]] *)
Fixpoint obj_get {V : Type} (k : string) (o : list (string * V)) : option V :=
  match o with
  | [] => None
  | (k', v) :: o' => if String.eqb k' k then Some v else obj_get k o'
  end.

(** An array index: the canonical text of an integer from 0 to 2^32 - 2. *)
Definition array_index (k : string) : option Z :=
  match k with
  | EmptyString => None
  | String "0" EmptyString => Some 0%Z
  | String "0" _ => None
  | _ =>
      match decimal_value k 0%Z with
      | Some n => if (n <=? 4294967294)%Z then Some n else None
      | None => None
      end
  end.

Fixpoint insert_by_index {V : Type} (n : Z) (kv : string * V)
    (l : list (Z * (string * V))) : list (Z * (string * V)) :=
  match l with
  | [] => [(n, kv)]
  | (m, kv') :: l' =>
      if (n <? m)%Z then (n, kv) :: l else (m, kv') :: insert_by_index n kv l'
  end.

(** The properties of an object in the order they are enumerated, which is
    the order [JSON.stringify] writes them in: those named by an array
    index first, by ascending index, then the others as inserted. *)
Definition own_properties {V : Type} (o : list (string * V))
  : list (string * V) :=
  map snd
    (fold_right
       (fun kv acc =>
          match array_index (fst kv) with
          | Some n => insert_by_index n kv acc
          | None => acc
          end)
       [] o)
  ++ List.filter
       (fun kv =>
          match array_index (fst kv) with
          | Some _ => false
          | None => true
          end)
       o.

(** ** src/types.ts *)

Inductive Level : Type := Info | Warn | Error.

Definition Level_text (l : Level) : string :=
  match l with
  | Info => "info"
  | Warn => "warn"
  | Error => "error"
  end.

(** [string | number] *)
Inductive LabelValue : Type :=
  | Str (s : string)
  | Num (n : float).

Definition Labels : Type := list (string * LabelValue).

Record A11yLogEntry : Type := {
  level : Level;
  message : string;
  timestamp : string;
  sessionId : option string;
  labels : Labels;
}.

Record ElementInfo : Type := {
  tagName : string;
  text : option string;   (* [text] for contrast, [html] for aria *)
}.

Module ContrastLabels.
Record t : Type := {
  sessionId : option string;
  selector : option string;
  ratio : option float;
  requiredRatio : option float;
  foreground : option string;
  background : option string;
  wcagLevel : option string;
  elementInfo : option ElementInfo;
  page : option string;
  theme : option string;
}.
Definition empty : t :=
  Build_t None None None None None None None None None None.
End ContrastLabels.

Module WcagLabels.
Record t : Type := {
  sessionId : option string;
  selector : option string;
  rule : option string;
  wcagLevel : option string;
  severity : option string;
}.
Definition empty : t := Build_t None None None None None.
End WcagLabels.

Module EvaluationLabels.
Record t : Type := {
  sessionId : option string;
  resultsCount : option float;
  issuesCount : option float;
  criticalCount : option float;
  evaluationTimeMs : option float;
}.
Definition empty : t := Build_t None None None None None.
End EvaluationLabels.

Module SessionLabels.
Record t : Type := {
  sessionId : option string;
  action : option string;
  userId : option string;
  userAgent : option string;
}.
Definition empty : t := Build_t None None None None.
End SessionLabels.

Module ErrorLabels.
Record t : Type := {
  sessionId : option string;
  error : option string;
  stack : option string;
}.
Definition empty : t := Build_t None None None.
End ErrorLabels.

Module SummaryData.
Record t : Type := {
  totalElements : float;
  evaluatedElements : float;
  issues : float;
  criticalIssues : float;
  evaluationTimeMs : float;
  sessionId : option string;
}.
End SummaryData.

Module AriaLabels.
Record t : Type := {
  sessionId : option string;
  selector : option string;
  issue : option string;
  elementInfo : option ElementInfo;
  fix_ : option string;   (* [fix] *)
  page : option string;
}.
Definition empty : t := Build_t None None None None None None.
End AriaLabels.

(** ** src/config.ts *)

Module A11yLoggerConfig.
Record t : Type := {
  lokiUrl : OptProp string;
  lokiEnabled : OptProp bool;
  isDevelopment : OptProp bool;
  flushInterval : OptProp float;
  maxBufferSize : OptProp float;
  jobLabel : OptProp string;
  containerLabel : OptProp string;
  environment : OptProp string;
  serviceLabel : OptProp string;
  registerShutdownHook : OptProp bool;
}.
(** [{}] *)
Definition empty : t :=
  Build_t Absent Absent Absent Absent Absent Absent Absent Absent Absent
    Absent.
(** [{ ...a, ...b }] *)
Definition merge (a b : t) : t :=
  {| lokiUrl := spread (lokiUrl a) (lokiUrl b);
     lokiEnabled := spread (lokiEnabled a) (lokiEnabled b);
     isDevelopment := spread (isDevelopment a) (isDevelopment b);
     flushInterval := spread (flushInterval a) (flushInterval b);
     maxBufferSize := spread (maxBufferSize a) (maxBufferSize b);
     jobLabel := spread (jobLabel a) (jobLabel b);
     containerLabel := spread (containerLabel a) (containerLabel b);
     environment := spread (environment a) (environment b);
     serviceLabel := spread (serviceLabel a) (serviceLabel b);
     registerShutdownHook :=
       spread (registerShutdownHook a) (registerShutdownHook b) |}.
End A11yLoggerConfig.

(** [Required<A11yLoggerConfig>] *)
Module Required.
Record t : Type := {
  lokiUrl : string;
  lokiEnabled : bool;
  isDevelopment : bool;
  flushInterval : float;
  maxBufferSize : float;
  jobLabel : string;
  containerLabel : string;
  environment : string;
  serviceLabel : string;
  registerShutdownHook : bool;
}.
End Required.

Definition DEFAULTS : Required.t :=
  {| Required.lokiUrl := "http://localhost:3100";
     Required.lokiEnabled := false;
     Required.isDevelopment := false;
     Required.flushInterval := 1000%float;
     Required.maxBufferSize := 100%float;
     Required.jobLabel := "accessibility";
     Required.containerLabel := "stonewall-sveltekit";
     Required.environment := "development";
     Required.serviceLabel := "a11y-monitoring";
     Required.registerShutdownHook := true |}.

(** The resolution [getA11yLoggerConfig] performs on the stored [config]. *)
Definition resolve (config : A11yLoggerConfig.t) : Required.t :=
  {| Required.lokiUrl :=
       nullish (A11yLoggerConfig.lokiUrl config) (Required.lokiUrl DEFAULTS);
     Required.lokiEnabled :=
       nullish (A11yLoggerConfig.lokiEnabled config)
         (Required.lokiEnabled DEFAULTS);
     Required.isDevelopment :=
       nullish (A11yLoggerConfig.isDevelopment config)
         (Required.isDevelopment DEFAULTS);
     Required.flushInterval :=
       nullish (A11yLoggerConfig.flushInterval config)
         (Required.flushInterval DEFAULTS);
     Required.maxBufferSize :=
       nullish (A11yLoggerConfig.maxBufferSize config)
         (Required.maxBufferSize DEFAULTS);
     Required.jobLabel :=
       nullish (A11yLoggerConfig.jobLabel config) (Required.jobLabel DEFAULTS);
     Required.containerLabel :=
       nullish (A11yLoggerConfig.containerLabel config)
         (Required.containerLabel DEFAULTS);
     Required.environment :=
       nullish (A11yLoggerConfig.environment config)
         (Required.environment DEFAULTS);
     Required.serviceLabel :=
       nullish (A11yLoggerConfig.serviceLabel config)
         (Required.serviceLabel DEFAULTS);
     Required.registerShutdownHook :=
       nullish (A11yLoggerConfig.registerShutdownHook config)
         (Required.registerShutdownHook DEFAULTS) |}.

(** ** The host *)

Record Request : Type := {
  url : string;
  method : string;
  headers : list (string * string);
  body : string;
}.

(** The built-ins the module relies on. *)
Record Host : Type := {
  (** [new Date(s).getTime()]; [None] is NaN *)
  dateGetTime : string -> option Z;
  (** [Number::toString], as a template literal applies it *)
  numberToString : float -> string;
  JSON_stringify : Json -> string;
  (** [typeof process !== 'undefined' && typeof process.on === 'function'] *)
  process_on : bool;
  (** a timer handle is an object with an [unref] method *)
  timeout_unref : bool;
}.

(** A one-shot timer the host holds armed. *)
Record Timer : Type := {
  handle : nat;
  delay : float;
  refed : bool;
}.

(** What the module sends to the console and to the network. *)
Inductive Output : Type :=
  | console_log (line : string) (context : Labels)
  | console_error (line : string) (err : string)
  | fetch_call (req : Request).

(** The state of the promise an [async] function returned. *)
Inductive Promise : Type :=
  | Fulfilled
  | Pending
  | Rejected (err : string).

(** How a block of statements ends: at its end, suspended at an [await], or
    by throwing. *)
Inductive Completion : Type :=
  | Done
  | Suspended
  | Threw (err : string).

Definition promise_of (c : Completion) : Promise :=
  match c with
  | Done => Fulfilled
  | Suspended => Pending
  | Threw err => Rejected err
  end.

Abbreviation loc := nat (only parsing).

(** ** The state of the program and of its host

    [config] is the variable of [config.ts]; [logBuffer], [flushTimer] and
    [shutdownHookRegistered] are those of [a11y-logger.ts].  The rest is the
    host: the arrays allocated so far, the armed timers, the number of
    [beforeExit] listeners, the number of [flushLogs] activations suspended
    at their [await], and the trace of console and network calls.
    [batches] records the value of [logsToSend] of every flush that detached
    the queue, oldest first; the program keeps no such record. *)
Record World : Type := {
  config : A11yLoggerConfig.t;
  logBuffer : loc;
  flushTimer : option nat;
  shutdownHookRegistered : bool;
  store : gmap nat (list A11yLogEntry);
  timers : list Timer;
  nextHandle : nat;
  beforeExit : nat;
  awaiting : nat;
  outputs : list Output;
  batches : list (list A11yLogEntry);
}.

Definition set_config (v : A11yLoggerConfig.t) (w : World) : World :=
  {| config := v; logBuffer := logBuffer w; flushTimer := flushTimer w;
     shutdownHookRegistered := shutdownHookRegistered w; store := store w;
     timers := timers w; nextHandle := nextHandle w;
     beforeExit := beforeExit w; awaiting := awaiting w;
     outputs := outputs w; batches := batches w |}.

Definition set_logBuffer (v : loc) (w : World) : World :=
  {| config := config w; logBuffer := v; flushTimer := flushTimer w;
     shutdownHookRegistered := shutdownHookRegistered w; store := store w;
     timers := timers w; nextHandle := nextHandle w;
     beforeExit := beforeExit w; awaiting := awaiting w;
     outputs := outputs w; batches := batches w |}.

Definition set_flushTimer (v : option nat) (w : World) : World :=
  {| config := config w; logBuffer := logBuffer w; flushTimer := v;
     shutdownHookRegistered := shutdownHookRegistered w; store := store w;
     timers := timers w; nextHandle := nextHandle w;
     beforeExit := beforeExit w; awaiting := awaiting w;
     outputs := outputs w; batches := batches w |}.

Definition set_shutdownHookRegistered (v : bool) (w : World) : World :=
  {| config := config w; logBuffer := logBuffer w; flushTimer := flushTimer w;
     shutdownHookRegistered := v; store := store w;
     timers := timers w; nextHandle := nextHandle w;
     beforeExit := beforeExit w; awaiting := awaiting w;
     outputs := outputs w; batches := batches w |}.

Definition set_store (v : gmap nat (list A11yLogEntry)) (w : World) : World :=
  {| config := config w; logBuffer := logBuffer w; flushTimer := flushTimer w;
     shutdownHookRegistered := shutdownHookRegistered w; store := v;
     timers := timers w; nextHandle := nextHandle w;
     beforeExit := beforeExit w; awaiting := awaiting w;
     outputs := outputs w; batches := batches w |}.

Definition set_timers (v : list Timer) (w : World) : World :=
  {| config := config w; logBuffer := logBuffer w; flushTimer := flushTimer w;
     shutdownHookRegistered := shutdownHookRegistered w; store := store w;
     timers := v; nextHandle := nextHandle w;
     beforeExit := beforeExit w; awaiting := awaiting w;
     outputs := outputs w; batches := batches w |}.

Definition set_nextHandle (v : nat) (w : World) : World :=
  {| config := config w; logBuffer := logBuffer w; flushTimer := flushTimer w;
     shutdownHookRegistered := shutdownHookRegistered w; store := store w;
     timers := timers w; nextHandle := v;
     beforeExit := beforeExit w; awaiting := awaiting w;
     outputs := outputs w; batches := batches w |}.

Definition set_beforeExit (v : nat) (w : World) : World :=
  {| config := config w; logBuffer := logBuffer w; flushTimer := flushTimer w;
     shutdownHookRegistered := shutdownHookRegistered w; store := store w;
     timers := timers w; nextHandle := nextHandle w;
     beforeExit := v; awaiting := awaiting w;
     outputs := outputs w; batches := batches w |}.

Definition set_awaiting (v : nat) (w : World) : World :=
  {| config := config w; logBuffer := logBuffer w; flushTimer := flushTimer w;
     shutdownHookRegistered := shutdownHookRegistered w; store := store w;
     timers := timers w; nextHandle := nextHandle w;
     beforeExit := beforeExit w; awaiting := v;
     outputs := outputs w; batches := batches w |}.

Definition set_outputs (v : list Output) (w : World) : World :=
  {| config := config w; logBuffer := logBuffer w; flushTimer := flushTimer w;
     shutdownHookRegistered := shutdownHookRegistered w; store := store w;
     timers := timers w; nextHandle := nextHandle w;
     beforeExit := beforeExit w; awaiting := awaiting w;
     outputs := v; batches := batches w |}.

Definition set_batches (v : list (list A11yLogEntry)) (w : World) : World :=
  {| config := config w; logBuffer := logBuffer w; flushTimer := flushTimer w;
     shutdownHookRegistered := shutdownHookRegistered w; store := store w;
     timers := timers w; nextHandle := nextHandle w;
     beforeExit := beforeExit w; awaiting := awaiting w;
     outputs := outputs w; batches := v |}.

(** *** Arrays *)

(** The elements of the array at [l]. *)
Definition elements (l : loc) (w : World) : list A11yLogEntry :=
  default [] (store w !! l).

(** A new array holding [xs]: [[...xs]], and [[]] for no element. *)
Definition alloc (xs : list A11yLogEntry) (w : World) : loc * World :=
  let l := fresh (dom (store w)) in
  (l, set_store (<[l := xs]> (store w)) w).

(** [Array::push] *)
Definition push (l : loc) (x : A11yLogEntry) (w : World) : World :=
  set_store (<[l := elements l w ++ [x]]> (store w)) w.

(** [Array::length], a number *)
Definition number_of_nat (n : nat) : float :=
  PrimFloat.of_uint63 (Uint63.of_Z (Z.of_nat n)).

(** *** Timers and console *)

Definition setTimeout (ms : float) (w : World) : nat * World :=
  let h := nextHandle w in
  (h, set_nextHandle (S h)
        (set_timers (timers w ++ [{| handle := h; delay := ms; refed := true |}])
           w)).

(** The armed timers without the one [h] names. *)
Definition disarm (h : nat) (ts : list Timer) : list Timer :=
  filter (fun t => handle t ≠ h) ts.

Definition clearTimeout (h : nat) (w : World) : World :=
  set_timers (disarm h (timers w)) w.

Definition unref (h : nat) (w : World) : World :=
  set_timers
    (map (fun t =>
            if decide (handle t = h)
            then {| handle := handle t; delay := delay t; refed := false |}
            else t)
       (timers w)) w.

Definition emit (o : Output) (w : World) : World :=
  set_outputs (outputs w ++ [o]) w.

(** The world when the two modules have been loaded: [config = {}],
    [logBuffer = []], [flushTimer = null], [shutdownHookRegistered = false]. *)
Definition initial : World :=
  {| config := A11yLoggerConfig.empty;
     logBuffer := 0;
     flushTimer := None;
     shutdownHookRegistered := false;
     store := {[ 0 := [] ]};
     timers := [];
     nextHandle := 1;
     beforeExit := 0;
     awaiting := 0;
     outputs := [];
     batches := [] |}.

Definition getA11yLoggerConfig (w : World) : Required.t :=
  resolve (config w).

Definition configureA11yLogger (c : A11yLoggerConfig.t) (w : World) : World :=
  set_config (A11yLoggerConfig.merge (config w) c) w.

Definition resetA11yLoggerConfig (w : World) : World :=
  set_config A11yLoggerConfig.empty w.

(** ** src/a11y-logger.ts *)

(** [try { body } catch (err) { handler }] *)
Definition try_catch (body : World -> World * Completion)
    (handler : string -> World -> World * Completion) (w : World)
  : World * Completion :=
  match body w with
  | (w', Threw err) => handler err w'
  | r => r
  end.

Section Internals.
Variable host : Host.

(** The current elements of [logBuffer]. *)
Definition queue (w : World) : list A11yLogEntry :=
  elements (logBuffer w) w.

Definition label_json (v : LabelValue) : Json :=
  match v with
  | Str s => JString s
  | Num n => JNumber n
  end.

(** [(new Date(ts).getTime() * 1000000).toString()]: the product is the
    Number nearest to the exact one. *)
Definition nanoseconds (ts : string) : string :=
  match dateGetTime host ts with
  | Some t => Number_toString (nearest_double (t * 1000000))
  | None => "NaN"
  end.

(** [{ level: log.level, msg: log.message, ...log.labels }], its
    properties as enumerated. *)
Definition line_object (log : A11yLogEntry) : Json :=
  JObject
    (own_properties
       (obj_spread
          [("level", JString (Level_text (level log)));
           ("msg", JString (message log))]
          (map (fun kv => (fst kv, label_json (snd kv))) (labels log)))).

(** One element of [values]. *)
Definition lokiValue (log : A11yLogEntry) : Json :=
  JArray [JString (nanoseconds (timestamp log));
          JString (JSON_stringify host (line_object log))].

Definition streams (cfg : Required.t) (logsToSend : list A11yLogEntry)
  : Json :=
  JArray
    [JObject
       [("stream",
         JObject
           [("job", JString (Required.jobLabel cfg));
            ("container", JString (Required.containerLabel cfg));
            ("environment", JString (Required.environment cfg));
            ("service", JString (Required.serviceLabel cfg))]);
        ("values", JArray (map lokiValue logsToSend))]].

Definition push_request (cfg : Required.t)
    (logsToSend : list A11yLogEntry) : Request :=
  {| url := (Required.lokiUrl cfg ++ "/loki/api/v1/push")%string;
     method := "POST";
     headers := [("Content-Type", "application/json")];
     body :=
       JSON_stringify host (JObject [("streams", streams cfg logsToSend)]) |}.

(** The line [console.log] prints for an entry when Loki is disabled. *)
Definition echo (log : A11yLogEntry) : Output :=
  console_log
    ("[A11y " ++ toUpperCase (Level_text (level log)) ++ "] "
       ++ message log)%string
    (labels log).

(** The [catch] clause of [flushLogs]. *)
Definition report (err : string) (w : World) : World * Completion :=
  (emit (console_error "[A11y Logger] Failed to send logs to Loki:" err) w,
   Done).

(** The [try] block of [flushLogs] up to its [await]: [fetch] is called
    and returns a promise, on which the activation suspends. *)
Definition send (cfg : Required.t) (logsToSend : list A11yLogEntry)
    (w : World) : World * Completion :=
  let w := emit (fetch_call (push_request cfg logsToSend)) w in
  (set_awaiting (S (awaiting w)) w, Suspended).

Definition flushLogs (w : World) : World * Promise :=
  if decide (length (queue w) = 0) then (w, Fulfilled)
  else
    let (l, w) := alloc (queue w) w in
    let logsToSend := elements l w in
    let w := set_batches (batches w ++ [logsToSend]) w in
    let (l0, w) := alloc [] w in
    let w := set_logBuffer l0 w in
    let cfg := getA11yLoggerConfig w in
    if negb (Required.lokiEnabled cfg) then
      (fold_left
         (fun w log =>
            if Required.isDevelopment cfg then emit (echo log) w else w)
         logsToSend w,
       Fulfilled)
    else
      let (w, c) := try_catch (send cfg logsToSend) report w in
      (w, promise_of c).

(** A suspended activation of [flushLogs] resumes when the promise of
    [fetch] settles: [None] when it is fulfilled, [Some err] when it is
    rejected with [err].  Nothing happens when none is suspended. *)
Definition flushLogs_resume (r : option string) (w : World)
  : World * Promise :=
  match awaiting w with
  | O => (w, Fulfilled)
  | S n =>
      let (w, c) :=
        try_catch
          (fun w => (w, match r with None => Done | Some err => Threw err end))
          report (set_awaiting n w) in
      (w, promise_of c)
  end.

(** The callback [scheduleFlush] hands to [setTimeout]. *)
Definition timer_callback (w : World) : World :=
  fst (flushLogs (set_flushTimer None w)).

Definition scheduleFlush (w : World) : World :=
  match flushTimer w with
  | Some _ => w
  | None =>
      let cfg := getA11yLoggerConfig w in
      let (h, w) := setTimeout (Required.flushInterval cfg) w in
      let w := set_flushTimer (Some h) w in
      if timeout_unref host then unref h w else w
  end.

Definition addLog (entry : A11yLogEntry) (w : World) : World :=
  let w := push (logBuffer w) entry w in
  let cfg := getA11yLoggerConfig w in
  if PrimFloat.leb (Required.maxBufferSize cfg)
       (number_of_nat (length (queue w)))
  then
    let w :=
      match flushTimer w with
      | Some h => set_flushTimer None (clearTimeout h w)
      | None => w
      end in
    fst (flushLogs w)
  else scheduleFlush w.

Definition ensureShutdownHook (w : World) : World :=
  if shutdownHookRegistered w then w
  else
    let cfg := getA11yLoggerConfig w in
    if negb (Required.registerShutdownHook cfg) then w
    else if process_on host
         then set_shutdownHookRegistered true
                (set_beforeExit (S (beforeExit w)) w)
         else w.
End Internals.

(** The methods of the exported object [a11yLogger].  Each recording method
    takes [now], the text [new Date().toISOString()] evaluates to at the
    call; the entry it builds is a function of its own, [*_entry]. *)
Module a11yLogger.

Definition contrast_entry (message : string) (labels : ContrastLabels.t)
    (now : string) : A11yLogEntry :=
  {| level :=
       match ContrastLabels.ratio labels with
       | Some r => if PrimFloat.ltb r 3 then Error else Warn
       | None => Warn
       end;
     message := message;
     timestamp := now;
     sessionId := ContrastLabels.sessionId labels;
     labels :=
       [("type", Str "contrast");
        ("selector", Str (or_string (ContrastLabels.selector labels) "unknown"));
        ("ratio", Num (or_number (ContrastLabels.ratio labels) 0));
        ("requiredRatio",
         Num (or_number (ContrastLabels.requiredRatio labels) 4.5));
        ("foreground",
         Str (or_string (ContrastLabels.foreground labels) "unknown"));
        ("background",
         Str (or_string (ContrastLabels.background labels) "unknown"));
        ("wcagLevel", Str (or_string (ContrastLabels.wcagLevel labels) "AA"));
        ("tagName",
         Str (or_string (tagName <$> ContrastLabels.elementInfo labels)
                "unknown"));
        ("page", Str (or_string (ContrastLabels.page labels) ""));
        ("theme", Str (or_string (ContrastLabels.theme labels) ""))] |}.

Definition wcag_entry (message : string) (labels : WcagLabels.t)
    (now : string) : A11yLogEntry :=
  {| level :=
       match WcagLabels.severity labels with
       | Some s => if String.eqb s "error" then Error else Warn
       | None => Warn
       end;
     message := message;
     timestamp := now;
     sessionId := WcagLabels.sessionId labels;
     labels :=
       [("type", Str "wcag");
        ("selector", Str (or_string (WcagLabels.selector labels) "unknown"));
        ("rule", Str (or_string (WcagLabels.rule labels) "unknown"));
        ("wcagLevel", Str (or_string (WcagLabels.wcagLevel labels) "AA"));
        ("severity", Str (or_string (WcagLabels.severity labels) "warning"))]
  |}.

Definition evaluation_entry (message : string) (labels : EvaluationLabels.t)
    (now : string) : A11yLogEntry :=
  {| level := Info;
     message := message;
     timestamp := now;
     sessionId := EvaluationLabels.sessionId labels;
     labels :=
       [("type", Str "evaluation");
        ("resultsCount",
         Num (or_number (EvaluationLabels.resultsCount labels) 0));
        ("issuesCount",
         Num (or_number (EvaluationLabels.issuesCount labels) 0));
        ("criticalCount",
         Num (or_number (EvaluationLabels.criticalCount labels) 0));
        ("evaluationTimeMs",
         Num (or_number (EvaluationLabels.evaluationTimeMs labels) 0))] |}.

Definition session_entry (message : string) (labels : SessionLabels.t)
    (now : string) : A11yLogEntry :=
  {| level := Info;
     message := message;
     timestamp := now;
     sessionId := SessionLabels.sessionId labels;
     labels :=
       [("type", Str "session");
        ("action", Str (or_string (SessionLabels.action labels) "unknown"));
        ("userId", Str (or_string (SessionLabels.userId labels) "anonymous"));
        ("userAgent",
         Str (or_string (SessionLabels.userAgent labels) "unknown"))] |}.

Definition error_entry (message : string) (labels : ErrorLabels.t)
    (now : string) : A11yLogEntry :=
  {| level := Error;
     message := message;
     timestamp := now;
     sessionId := ErrorLabels.sessionId labels;
     labels :=
       [("type", Str "error");
        ("error", Str (or_string (ErrorLabels.error labels) "unknown"));
        ("stack", Str (or_string (ErrorLabels.stack labels) ""))] |}.

Definition summary_entry (host : Host) (data : SummaryData.t) (now : string)
  : A11yLogEntry :=
  {| level := Info;
     message :=
       ("Accessibility summary: "
          ++ numberToString host (SummaryData.issues data) ++ " issues ("
          ++ numberToString host (SummaryData.criticalIssues data)
          ++ " critical)")%string;
     timestamp := now;
     sessionId := SummaryData.sessionId data;
     labels :=
       [("type", Str "summary");
        ("totalElements", Num (SummaryData.totalElements data));
        ("evaluatedElements", Num (SummaryData.evaluatedElements data));
        ("issues", Num (SummaryData.issues data));
        ("criticalIssues", Num (SummaryData.criticalIssues data));
        ("evaluationTimeMs", Num (SummaryData.evaluationTimeMs data))] |}.

Definition aria_entry (message : string) (labels : AriaLabels.t)
    (now : string) : A11yLogEntry :=
  {| level := Warn;
     message := message;
     timestamp := now;
     sessionId := AriaLabels.sessionId labels;
     labels :=
       [("type", Str "aria");
        ("selector", Str (or_string (AriaLabels.selector labels) "unknown"));
        ("issue", Str (or_string (AriaLabels.issue labels) "unknown"));
        ("tagName",
         Str (or_string (tagName <$> AriaLabels.elementInfo labels)
                "unknown"));
        ("fix", Str (or_string (AriaLabels.fix_ labels) ""));
        ("page", Str (or_string (AriaLabels.page labels) ""))] |}.

Section Methods.
Variable host : Host.

Definition contrast (message : string) (labels : ContrastLabels.t)
    (now : string) (w : World) : World :=
  addLog host (contrast_entry message labels now)
    (ensureShutdownHook host w).

Definition wcag (message : string) (labels : WcagLabels.t)
    (now : string) (w : World) : World :=
  addLog host (wcag_entry message labels now) (ensureShutdownHook host w).

Definition evaluation (message : string) (labels : EvaluationLabels.t)
    (now : string) (w : World) : World :=
  addLog host (evaluation_entry message labels now)
    (ensureShutdownHook host w).

Definition session (message : string) (labels : SessionLabels.t)
    (now : string) (w : World) : World :=
  addLog host (session_entry message labels now)
    (ensureShutdownHook host w).

Definition error (message : string) (labels : ErrorLabels.t)
    (now : string) (w : World) : World :=
  addLog host (error_entry message labels now) (ensureShutdownHook host w).

Definition summary (data : SummaryData.t) (now : string) (w : World)
  : World :=
  addLog host (summary_entry host data now) (ensureShutdownHook host w).

Definition aria (message : string) (labels : AriaLabels.t)
    (now : string) (w : World) : World :=
  addLog host (aria_entry message labels now) (ensureShutdownHook host w).

(** [async flush()] *)
Definition flush (w : World) : World * Promise :=
  let w :=
    match flushTimer w with
    | Some h => set_flushTimer None (clearTimeout h w)
    | None => w
    end in
  flushLogs host w.
End Methods.
End a11yLogger.

(** [_getLogBuffer]: the address of a new array. *)
Definition _getLogBuffer (w : World) : loc * World :=
  alloc (queue w) w.

Definition _resetInternalState (w : World) : World :=
  let w :=
    match flushTimer w with
    | Some h => set_flushTimer None (clearTimeout h w)
    | None => w
    end in
  let (l, w) := alloc [] w in
  set_shutdownHookRegistered false (set_logBuffer l w).

Definition _hasFlushTimer (w : World) : bool :=
  match flushTimer w with
  | Some _ => true
  | None => false
  end.

(** ** The event loop

    One event is one task of the host's event loop, run to completion: a
    call the application makes, a timer that expires, the promise of a
    [fetch] that settles, the process about to exit. *)

Inductive Recording : Type :=
  | Contrast (message : string) (labels : ContrastLabels.t)
  | Wcag (message : string) (labels : WcagLabels.t)
  | Evaluation (message : string) (labels : EvaluationLabels.t)
  | Session (message : string) (labels : SessionLabels.t)
  | Failure (message : string) (labels : ErrorLabels.t)   (* [error] *)
  | Summary (data : SummaryData.t)
  | Aria (message : string) (labels : AriaLabels.t).

Inductive Event : Type :=
  | Call (c : Recording) (now : string)
  | Flush
  | TimerFires (h : nat)
  | FetchSettles (r : option string)
  | Configure (c : A11yLoggerConfig.t)
  | ResetConfig
  | ResetInternalState
  | GetLogBuffer
  | BeforeExit.

Section EventLoop.
Variable host : Host.

(** The entry a recording call enqueues. *)
Definition entry_of (c : Recording) (now : string) : A11yLogEntry :=
  match c with
  | Contrast m l => a11yLogger.contrast_entry m l now
  | Wcag m l => a11yLogger.wcag_entry m l now
  | Evaluation m l => a11yLogger.evaluation_entry m l now
  | Session m l => a11yLogger.session_entry m l now
  | Failure m l => a11yLogger.error_entry m l now
  | Summary d => a11yLogger.summary_entry host d now
  | Aria m l => a11yLogger.aria_entry m l now
  end.

Definition perform (c : Recording) (now : string) (w : World) : World :=
  match c with
  | Contrast m l => a11yLogger.contrast host m l now w
  | Wcag m l => a11yLogger.wcag host m l now w
  | Evaluation m l => a11yLogger.evaluation host m l now w
  | Session m l => a11yLogger.session host m l now w
  | Failure m l => a11yLogger.error host m l now w
  | Summary d => a11yLogger.summary host d now w
  | Aria m l => a11yLogger.aria host m l now w
  end.

(** The host runs the callback of an armed timer that expires, once. *)
Definition fire (h : nat) (w : World) : World :=
  if decide (h ∈ handle <$> timers w)
  then timer_callback host (set_timers (disarm h (timers w)) w)
  else w.

Definition step (w : World) (ev : Event) : World :=
  match ev with
  | Call c now => perform c now w
  | Flush => fst (a11yLogger.flush host w)
  | TimerFires h => fire h w
  | FetchSettles r => fst (flushLogs_resume r w)
  | Configure c => configureA11yLogger c w
  | ResetConfig => resetA11yLoggerConfig w
  | ResetInternalState => _resetInternalState w
  | GetLogBuffer => snd (_getLogBuffer w)
  | BeforeExit =>
      Nat.iter (beforeExit w) (fun w => fst (a11yLogger.flush host w)) w
  end.

Definition run (tr : list Event) (w : World) : World :=
  fold_left step tr w.
End EventLoop.

(** The entries the recording calls of a trace enqueue, in order. *)
Fixpoint enqueued (host : Host) (tr : list Event) : list A11yLogEntry :=
  match tr with
  | [] => []
  | Call c now :: tr' => entry_of host c now :: enqueued host tr'
  | _ :: tr' => enqueued host tr'
  end.

Definition is_reset (ev : Event) : bool :=
  match ev with
  | ResetInternalState => true
  | _ => false
  end.

(** *** What a caller can do to an array it holds *)

Inductive Mutation : Type :=
  | MPush (x : A11yLogEntry)
  | MPop
  | MShift
  | MSet (i : nat) (x : A11yLogEntry)
  | MSplice (start count : nat) (items : list A11yLogEntry).

(** The elements after a mutation.  [MSet i x] is [a[i] = x] for an index
    within the array; beyond its length the assignment would leave holes,
    which a list of entries cannot hold, and [MSet] changes nothing there. *)
Definition mutated (m : Mutation) (xs : list A11yLogEntry)
  : list A11yLogEntry :=
  match m with
  | MPush x => xs ++ [x]
  | MPop => removelast xs
  | MShift => tail xs
  | MSet i x => <[i := x]> xs
  | MSplice start count items =>
      take start xs ++ items ++ drop (start + count) xs
  end.

Definition mutate (l : loc) (m : Mutation) (w : World) : World :=
  set_store (<[l := mutated m (elements l w)]> (store w)) w.

(** A caller holding the array at [l] interleaves its mutations of it with
    events of the loop. *)
Inductive Action : Type :=
  | Ev (ev : Event)
  | Mut (m : Mutation).

Definition act (host : Host) (l : loc) (w : World) (a : Action) : World :=
  match a with
  | Ev ev => step host w ev
  | Mut m => mutate l m w
  end.

Definition events_of (acts : list Action) : list Event :=
  omap (fun a => match a with Ev ev => Some ev | Mut _ => None end) acts.

(** What can be observed of a world without holding an array of it. *)
Definition view (w : World) :=
  (config w, queue w, flushTimer w, shutdownHookRegistered w, timers w,
   nextHandle w, beforeExit w, awaiting w, outputs w, batches w).

(** [logBuffer] names an allocated array. *)
Definition wf (w : World) : Prop := is_Some (store w !! logBuffer w).

(** A concrete host for the examples: dates are not parsed. *)
Definition plain_host : Host :=
  {| dateGetTime := fun _ => Some 1700000000123%Z;
     numberToString := fun _ => "n";
     JSON_stringify := fun _ => "{}";
     process_on := true;
     timeout_unref := true |}.

(** *** A host that reads dates

    [Date] applied to a text in the Date Time String Format, in the two
    forms [Date::toISOString] writes: [YYYY-MM-DDTHH:mm:ss.sssZ], and
    [±YYYYYY-MM-DDTHH:mm:ss.sssZ] for the years outside 0 to 9999.  The
    other forms [Date] accepts are outside this reader: it answers NaN for
    them. *)

(** The field of [len] digits at [pos]. *)
Definition field (s : string) (pos len : nat) : option Z :=
  let f := String.substring pos len s in
  if (String.length f =? len)%nat then decimal_value f 0%Z else None.

Definition is_leap (y : Z) : bool :=
  ((y mod 4 =? 0) && negb (y mod 100 =? 0) || (y mod 400 =? 0))%Z.

Definition days_in_month (y m : Z) : Z :=
  if (m =? 2)%Z then (if is_leap y then 29 else 28)%Z
  else if ((m =? 4) || (m =? 6) || (m =? 9) || (m =? 11))%Z then 30%Z
  else 31%Z.

(** The number of days from 1970-01-01 to the day [d] of the month [m] of
    the year [y] of the proleptic Gregorian calendar. *)
Definition days_from_civil (y m d : Z) : Z :=
  let y' := (if (m <=? 2) then y - 1 else y)%Z in
  let era := (y' / 400)%Z in
  let yoe := (y' - era * 400)%Z in
  let doy := ((153 * (if (2 <? m) then m - 3 else m + 9) + 2) / 5 + d - 1)%Z in
  let doe := (yoe * 365 + yoe / 4 - yoe / 100 + doy)%Z in
  (era * 146097 + doe - 719468)%Z.

(** The time value of the text whose year has [ylen] digits and the sign
    [sign], the text starting at its year. *)
Definition time_value (sign : Z) (ylen : nat) (s : string) : option Z :=
  if negb (String.length s =? ylen + 20)%nat then None
  else if negb (String.eqb (String.substring ylen 1 s) "-"
                && String.eqb (String.substring (ylen + 3) 1 s) "-"
                && String.eqb (String.substring (ylen + 6) 1 s) "T"
                && String.eqb (String.substring (ylen + 9) 1 s) ":"
                && String.eqb (String.substring (ylen + 12) 1 s) ":"
                && String.eqb (String.substring (ylen + 15) 1 s) "."
                && String.eqb (String.substring (ylen + 19) 1 s) "Z")
  then None
  else
    match field s 0 ylen, field s (ylen + 1) 2, field s (ylen + 4) 2,
          field s (ylen + 7) 2, field s (ylen + 10) 2, field s (ylen + 13) 2,
          field s (ylen + 16) 3 with
    | Some y, Some m, Some d, Some h, Some mi, Some sec, Some ms =>
        let y := (sign * y)%Z in
        if ((1 <=? m) && (m <=? 12) && (1 <=? d) && (d <=? days_in_month y m)
            && (h <=? 23) && (mi <=? 59) && (sec <=? 59))%Z
        then
          let t :=
            (days_from_civil y m d * 86400000 + h * 3600000 + mi * 60000
             + sec * 1000 + ms)%Z in
          if (Z.abs t <=? 8640000000000000)%Z then Some t else None
        else None
    | _, _, _, _, _, _, _ => None
    end.

Definition parse_iso (s : string) : option Z :=
  match s with
  | String "+" rest => time_value 1 6 rest
  | String "-" rest =>
      if String.eqb (String.substring 0 6 rest) "000000" then None
      else time_value (-1) 6 rest
  | _ => time_value 1 4 s
  end.

(** [plain_host] with dates read. *)
Definition iso_host : Host :=
  {| dateGetTime := parse_iso;
     numberToString := numberToString plain_host;
     JSON_stringify := JSON_stringify plain_host;
     process_on := process_on plain_host;
     timeout_unref := timeout_unref plain_host |}.

(** ** Auxiliary definitions for the statements *)

(** The world [flushLogs] leaves once it has detached a non-empty queue:
    [logsToSend] holds a copy of it and [logBuffer] names a new, empty
    array. *)
Definition detach (w : World) : World :=
  let l := fresh (dom (store w)) in
  let s := <[l := queue w]> (store w) in
  let l0 := fresh (dom s) in
  set_logBuffer l0
    (set_store (<[l0 := []]> s) (set_batches (batches w ++ [queue w]) w)).

(** What a flush sends to the console or to the network for a batch. *)
Definition dispatch (host : Host) (cfg : Required.t)
    (logsToSend : list A11yLogEntry) : list Output :=
  if Required.lokiEnabled cfg
  then [fetch_call (push_request host cfg logsToSend)]
  else if Required.isDevelopment cfg then map echo logsToSend
  else [].

(** [if (flushTimer) { clearTimeout(flushTimer); flushTimer = null; }] *)
Definition cancel (w : World) : World :=
  match flushTimer w with
  | Some h => set_flushTimer None (clearTimeout h w)
  | None => w
  end.

(** Two worlds that cannot be told apart from outside, both well formed. *)
Definition sim (a b : World) : Prop := view a = view b /\ wf a /\ wf b.

(** From [w] to [w'] no array was freed, and [logBuffer] names the array it
    named or one allocated since. *)
Definition extends (w w' : World) : Prop :=
  (forall l : nat, is_Some (store w !! l) -> is_Some (store w' !! l))
  /\ (logBuffer w' = logBuffer w \/ store w !! logBuffer w' = None).

(** [f] acts on what can be observed only. *)
Definition respects (f : World -> World) : Prop :=
  forall a b, view a = view b -> view (f a) = view (f b).

(** [w'] is well formed and extends [w]. *)
Definition grows (w w' : World) : Prop := wf w' /\ extends w w'.

(** The caller holds the array at [l], and the module does not. *)
Definition held (l : nat) (w : World) : Prop :=
  is_Some (store w !! l) /\ logBuffer w <> l.

(** The timer [scheduleFlush] arms. *)
Definition armed (host : Host) (h : nat) (ms : float) : Timer :=
  {| handle := h; delay := ms; refed := negb (timeout_unref host) |}.

(** The armed timers are the one [flushTimer] names, if any, and a handle
    is stored exactly when the queue is not empty. *)
Definition tidy (q : list A11yLogEntry) (f : option nat) (ts : list Timer)
  : Prop :=
  handle <$> ts = option_list f /\ (is_Some f <-> q <> []).

Definition scheduler_ok (w : World) : Prop :=
  wf w /\ tidy (queue w) (flushTimer w) (timers w).

(** An event that leaves the settings as they are. *)
Definition keeps_settings (ev : Event) : bool :=
  match ev with
  | Configure _ | ResetConfig => false
  | _ => true
  end.

(** While a timer is pending, one entry alone does not reach
    [maxBufferSize]. *)
Definition below_threshold (w : World) : Prop :=
  is_Some (flushTimer w) ->
  PrimFloat.leb (Required.maxBufferSize (getA11yLoggerConfig w)) 1 = false.

(** Every entry detached so far, then the entries still queued. *)
Definition ledger (w : World) : list A11yLogEntry :=
  concat (batches w) ++ queue w.

(** The requests handed to [fetch], in order. *)
Definition fetches (os : list Output) : list Request :=
  omap (fun o => match o with fetch_call req => Some req | _ => None end) os.

(** The [values] array of the single stream of a payload. *)
Definition values_of (streams : Json) : list Json :=
  match streams with
  | JArray [JObject [_; (_, JArray vs)]] => vs
  | _ => []
  end.

(** How [x || d] carries a caller's field into a label. *)
Inductive carried {A : Type} (truthy : A -> bool) (d : A)
  : option A -> A -> Prop :=
  | carried_omitted : carried truthy d None d
  | carried_falsy x : truthy x = false -> carried truthy d (Some x) d
  | carried_truthy x : truthy x = true -> carried truthy d (Some x) x.

Definition str_label (ls : Labels) (k : string) (supplied : option string)
    (d : string) : Prop :=
  exists v, obj_get k ls = Some (Str v) /\ carried truthy_string d supplied v.

Definition num_label (ls : Labels) (k : string) (supplied : option float)
    (d : float) : Prop :=
  exists v, obj_get k ls = Some (Num v) /\ carried truthy_number d supplied v.

(** What the [catch] clause of [flushLogs] prints. *)
Definition failure_report (err : string) : Output :=
  console_error "[A11y Logger] Failed to send logs to Loki:" err.

(** *** Concrete inputs *)

Definition remote_settings : A11yLoggerConfig.t :=
  {| A11yLoggerConfig.lokiUrl := Present "http://loki:3100";
     A11yLoggerConfig.lokiEnabled := Present true;
     A11yLoggerConfig.isDevelopment := Absent;
     A11yLoggerConfig.flushInterval := Absent;
     A11yLoggerConfig.maxBufferSize := Absent;
     A11yLoggerConfig.jobLabel := Absent;
     A11yLoggerConfig.containerLabel := Absent;
     A11yLoggerConfig.environment := Present "production";
     A11yLoggerConfig.serviceLabel := Undefined;
     A11yLoggerConfig.registerShutdownHook := Absent |}.

Definition development_settings : A11yLoggerConfig.t :=
  {| A11yLoggerConfig.lokiUrl := Absent;
     A11yLoggerConfig.lokiEnabled := Absent;
     A11yLoggerConfig.isDevelopment := Present true;
     A11yLoggerConfig.flushInterval := Absent;
     A11yLoggerConfig.maxBufferSize := Absent;
     A11yLoggerConfig.jobLabel := Absent;
     A11yLoggerConfig.containerLabel := Absent;
     A11yLoggerConfig.environment := Absent;
     A11yLoggerConfig.serviceLabel := Absent;
     A11yLoggerConfig.registerShutdownHook := Absent |}.

(** [{ maxBufferSize: n }] *)
Definition threshold_settings (n : float) : A11yLoggerConfig.t :=
  {| A11yLoggerConfig.lokiUrl := Absent;
     A11yLoggerConfig.lokiEnabled := Absent;
     A11yLoggerConfig.isDevelopment := Absent;
     A11yLoggerConfig.flushInterval := Absent;
     A11yLoggerConfig.maxBufferSize := Present n;
     A11yLoggerConfig.jobLabel := Absent;
     A11yLoggerConfig.containerLabel := Absent;
     A11yLoggerConfig.environment := Absent;
     A11yLoggerConfig.serviceLabel := Absent;
     A11yLoggerConfig.registerShutdownHook := Absent |}.

Definition ratio_of (r : float) : ContrastLabels.t :=
  {| ContrastLabels.sessionId := None;
     ContrastLabels.selector := Some "h1.title";
     ContrastLabels.ratio := Some r;
     ContrastLabels.requiredRatio := None;
     ContrastLabels.foreground := None;
     ContrastLabels.background := None;
     ContrastLabels.wcagLevel := None;
     ContrastLabels.elementInfo := None;
     ContrastLabels.page := None;
     ContrastLabels.theme := None |}.

Definition first_call : Event :=
  Call (Contrast "Low contrast on heading" (ratio_of 2.5))
    "2023-11-14T22:13:20.123Z".

Definition second_call : Event :=
  Call (Wcag "Missing alt text" WcagLabels.empty) "2023-11-14T22:13:20.456Z".

Definition first_entry : A11yLogEntry :=
  entry_of plain_host (Contrast "Low contrast on heading" (ratio_of 2.5))
    "2023-11-14T22:13:20.123Z".

Definition second_entry : A11yLogEntry :=
  entry_of plain_host (Wcag "Missing alt text" WcagLabels.empty)
    "2023-11-14T22:13:20.456Z".

(** [{ requiredRatio: 0 }] *)
Definition required_zero : ContrastLabels.t :=
  {| ContrastLabels.sessionId := None;
     ContrastLabels.selector := None;
     ContrastLabels.ratio := None;
     ContrastLabels.requiredRatio := Some 0%float;
     ContrastLabels.foreground := None;
     ContrastLabels.background := None;
     ContrastLabels.wcagLevel := None;
     ContrastLabels.elementInfo := None;
     ContrastLabels.page := None;
     ContrastLabels.theme := None |}.

(** Recording calls interleaved with a manual flush, a transport that
    fails and a timer that fires. *)
Definition interleaved : list Event :=
  [first_call; Configure remote_settings; second_call; Flush; first_call;
   FetchSettles (Some "ECONNREFUSED"); second_call; TimerFires 2].

Definition remote_world : World :=
  run plain_host [Configure remote_settings; first_call; second_call] initial.

Definition development_world : World :=
  run plain_host [Configure development_settings; first_call; second_call]
    initial.

(** ** Auxiliary definitions for the further properties *)

(** What a setting resolves to after [configureA11yLogger(c)], from what it
    resolved to before ([old]), its default ([d]) and the property of [c]. *)
Definition configured {T : Type} (old d : T) (p : OptProp T) : T :=
  match p with
  | Present v => v
  | Undefined => d
  | Absent => old
  end.

(** The registration state of the shutdown hook: the flag of the module
    and the number of [beforeExit] listeners the process holds. *)
Definition hook (w : World) : bool * nat :=
  (shutdownHookRegistered w, beforeExit w).

(** The number of state resets in a trace. *)
Definition resets (tr : list Event) : nat :=
  length (filter (fun ev => is_reset ev = true) tr).

(** An event that does not switch the shutdown hook off. *)
Definition keeps_hook (ev : Event) : bool :=
  match ev with
  | Configure c =>
      match A11yLoggerConfig.registerShutdownHook c with
      | Present false => false
      | _ => true
      end
  | _ => true
  end.

(** The failures reported on the console, in order. *)
Definition reports (os : list Output) : list string :=
  omap (fun o => match o with console_error _ err => Some err | _ => None end)
    os.

(** What was printed or sent for the entries themselves: the outputs
    without the failure reports. *)
Definition deliveries (os : list Output) : list Output :=
  List.filter
    (fun o => match o with console_error _ _ => false | _ => true end) os.

(** From [w] to [w'] the batches [nb] were detached and handed to the
    transport the settings of [w] select, and nothing else was printed or
    sent. *)
Definition flushed (host : Host) (w w' : World)
    (nb : list (list A11yLogEntry)) : Prop :=
  let cfg := getA11yLoggerConfig w in
  config w' = config w
  /\ batches w' = batches w ++ nb
  /\ outputs w' = outputs w ++ concat (map (dispatch host cfg) nb)
  /\ awaiting w' =
       awaiting w + (if Required.lokiEnabled cfg then length nb else 0).

(** The shutdown hook is enabled, and a listener is registered when the
    flag is set or entries are queued. *)
Definition exit_ready (w : World) : Prop :=
  Required.registerShutdownHook (getA11yLoggerConfig w) = true
  /\ (shutdownHookRegistered w = true -> beforeExit w <> 0)
  /\ (queue w <> [] -> beforeExit w <> 0).

(** The [type] label of the entries a recording method builds. *)
Definition kind (c : Recording) : string :=
  match c with
  | Contrast _ _ => "contrast"
  | Wcag _ _ => "wcag"
  | Evaluation _ _ => "evaluation"
  | Session _ _ => "session"
  | Failure _ _ => "error"
  | Summary _ => "summary"
  | Aria _ _ => "aria"
  end.

(** The object [{ level, msg }] followed by the labels, none replacing
    another property. *)
Definition plain_line (log : A11yLogEntry) : Json :=
  JObject
    (("level", JString (Level_text (level log)))
       :: ("msg", JString (message log))
       :: map (fun kv => (fst kv, label_json (snd kv))) (labels log)).

(** The host holds the timer [flushTimer] names, armed by [scheduleFlush]
    for a delay [ok] accepts, and no other. *)
Definition pending_timer (host : Host) (ok : float -> Prop) (w : World)
  : Prop :=
  match flushTimer w with
  | Some h => exists ms, ok ms /\ timers w = [armed host h ms]
  | None => timers w = []
  end.

(** [maxBufferSize = m] compares with the lengths up to [N] as the whole
    number [N] does: [n >= m] exactly when [n >= N]. *)
Definition threshold_at (m : float) (N : nat) : bool :=
  forallb
    (fun n => Bool.eqb (PrimFloat.leb m (number_of_nat n)) (Nat.leb N n))
    (seq 0 (S N)).

(** A request that carries a batch of at least one entry. *)
Definition carries_entries (host : Host) (req : Request) : Prop :=
  exists cfg b, b <> [] /\ req = push_request host cfg b.

(** [{ registerShutdownHook: false }] *)
Definition no_hook_settings : A11yLoggerConfig.t :=
  {| A11yLoggerConfig.lokiUrl := Absent;
     A11yLoggerConfig.lokiEnabled := Absent;
     A11yLoggerConfig.isDevelopment := Absent;
     A11yLoggerConfig.flushInterval := Absent;
     A11yLoggerConfig.maxBufferSize := Absent;
     A11yLoggerConfig.jobLabel := Absent;
     A11yLoggerConfig.containerLabel := Absent;
     A11yLoggerConfig.environment := Absent;
     A11yLoggerConfig.serviceLabel := Absent;
     A11yLoggerConfig.registerShutdownHook := Present false |}.

(** [{ maxBufferSize: NaN }] after one recording call. *)
Definition nan_world : World :=
  run plain_host [Configure (threshold_settings nan); first_call] initial.

(** * Properties *)

(** ** Order of floating-point numbers *)

Lemma SFcompare_antisym x y c :
  SFcompare x y = Some c -> SFcompare y x = Some (CompOpp c).
Proof.
  destruct x as [sx|sx| |sx mx ex], y as [sy|sy| |sy my ey]; simpl;
    intros H; try discriminate; injection H as <-;
    try (destruct sx; reflexivity); try (destruct sy; reflexivity);
    try (destruct sx, sy; reflexivity).
  destruct sx, sy; try reflexivity.
  - rewrite (Z.compare_antisym ex ey).
    destruct (ex ?= ey)%Z eqn:E; simpl; try reflexivity.
    pose proof (Pos.compare_cont_antisym mx my Eq
                : CompOpp (PosDef.Pos.compare_cont Eq mx my)
                  = PosDef.Pos.compare_cont Eq my mx) as A.
    by rewrite A.
  - rewrite (Z.compare_antisym ex ey).
    destruct (ex ?= ey)%Z eqn:E; simpl; try reflexivity.
    pose proof (Pos.compare_cont_antisym mx my Eq
                : CompOpp (PosDef.Pos.compare_cont Eq mx my)
                  = PosDef.Pos.compare_cont Eq my mx) as A.
    by rewrite A.
Qed.

Lemma ltb_not_leb (x y : float) :
  PrimFloat.ltb x y = true -> PrimFloat.leb y x = false.
Proof.
  rewrite ltb_spec, leb_spec. unfold SFltb, SFleb.
  destruct (SFcompare (Prim2SF x) (Prim2SF y)) as [c|] eqn:E; [|done].
  rewrite (SFcompare_antisym _ _ _ E). by destruct c.
Qed.

Lemma leb_not_ltb (x y : float) :
  PrimFloat.leb x y = true -> PrimFloat.ltb y x = false.
Proof.
  rewrite ltb_spec, leb_spec. unfold SFltb, SFleb.
  destruct (SFcompare (Prim2SF x) (Prim2SF y)) as [c|] eqn:E; [|done].
  rewrite (SFcompare_antisym _ _ _ E). by destruct c.
Qed.

Lemma Prim2SF_zero : Prim2SF 0 = S754_zero false.
Proof. vm_compute. reflexivity. Qed.

Lemma Prim2SF_three : Prim2SF 3 = S754_finite false 6755399441055744 (-51).
Proof. vm_compute. reflexivity. Qed.

Lemma negative_below_three (r : float) :
  PrimFloat.ltb r 0 = true -> PrimFloat.ltb r 3 = true.
Proof.
  rewrite (ltb_spec r 0), (ltb_spec r 3), Prim2SF_zero, Prim2SF_three.
  unfold SFltb.
  destruct (Prim2SF r) as [s|s| |s m e]; cbv [SFcompare]; try done.
  - by destruct s.
Qed.

Lemma eqb_not_ltb (x y : float) :
  PrimFloat.eqb x y = true -> PrimFloat.ltb x y = false.
Proof.
  rewrite ltb_spec, Floats.FloatAxioms.eqb_spec. unfold SFltb, SFeqb.
  by destruct (SFcompare _ _) as [[]|].
Qed.

(** ** Decimal digits *)

Section Digits.
Local Open Scope Z_scope.

Lemma append_assoc (a b c : string) :
  ((a ++ b) ++ c)%string = (a ++ (b ++ c))%string.
Proof.
  induction a as [|x a IH]; [done|].
  change (String x ((a ++ b) ++ c) = String x (a ++ (b ++ c)))%string.
  by rewrite IH.
Qed.

(** Fuel beyond the number of binary digits changes nothing. *)
Lemma digits_enough f f' n :
  0 <= n -> n < 2 ^ Z.of_nat f -> n < 2 ^ Z.of_nat f' ->
  (1 <= f)%nat -> (1 <= f')%nat ->
  digits f n = digits f' n.
Proof.
  revert f' n. induction f as [|f IH]; intros f' n H0 Hf Hf' H1 H1'; [lia|].
  destruct f' as [|f']; [lia|]. simpl.
  destruct (n <? 10) eqn:E; [done|]. apply Z.ltb_ge in E.
  f_equal.
  assert (forall k : nat, n < 2 ^ Z.of_nat (S k) ->
            n / 10 < 2 ^ Z.of_nat k /\ (1 <= k)%nat) as Hk.
  { intros k Hn. rewrite Nat2Z.inj_succ, Z.pow_succ_r in Hn by lia.
    split.
    - apply Z.div_lt_upper_bound; lia.
    - destruct k; [simpl in Hn; lia|lia]. }
  destruct (Hk f Hf), (Hk f' Hf').
  apply IH; try done. apply Z.div_pos; lia.
Qed.

Lemma digits_fuel_enough n :
  0 <= n -> n < 2 ^ Z.of_nat (digits_fuel n) /\ (1 <= digits_fuel n)%nat.
Proof.
  intros H0. unfold digits_fuel. split; [|lia].
  rewrite Nat2Z.inj_succ, Z2Nat.id by apply Z.log2_nonneg.
  destruct (Z.eq_dec n 0) as [->|]; [done|].
  apply Z.log2_spec. lia.
Qed.

Lemma digits_times_ten n :
  0 < n ->
  digits (digits_fuel (10 * n)) (10 * n)
  = (digits (digits_fuel n) n ++ "0")%string.
Proof.
  intros Hn.
  destruct (digits_fuel_enough (10 * n)) as [Hf H1]; [lia|].
  destruct (digits_fuel (10 * n)) as [|f] eqn:Ef; [lia|].
  cbn [digits].
  destruct (10 * n <? 10) eqn:E; [apply Z.ltb_lt in E; lia|].
  replace (10 * n / 10) with n by (rewrite Z.mul_comm, Z.div_mul; lia).
  replace ((10 * n) mod 10) with 0 by (rewrite Z.mul_comm, Z.mod_mul; lia).
  f_equal.
  destruct (digits_fuel_enough n) as [Hg G1]; [lia|].
  apply digits_enough; try lia.
  - rewrite Nat2Z.inj_succ, Z.pow_succ_r in Hf by lia. lia.
  - destruct f; [simpl in Hf; lia|lia].
Qed.

Lemma digits_times_million n :
  0 < n ->
  digits (digits_fuel (n * 1000000)) (n * 1000000)
  = (digits (digits_fuel n) n ++ "000000")%string.
Proof.
  intros Hn.
  replace (n * 1000000) with (10 * (10 * (10 * (10 * (10 * (10 * n))))))
    by lia.
  rewrite !digits_times_ten by lia. by rewrite !append_assoc.
Qed.

(** The digits of a non-zero integer times a million are its own digits
    and six zeros. *)
Lemma integerToString_million t :
  t <> 0 ->
  integerToString (t * 1000000) = (integerToString t ++ "000000")%string.
Proof.
  intros Ht. unfold integerToString.
  destruct (t <? 0) eqn:E.
  - apply Z.ltb_lt in E.
    replace (t * 1000000 <? 0) with true by (symmetry; apply Z.ltb_lt; lia).
    replace (- (t * 1000000)) with (- t * 1000000) by lia.
    rewrite digits_times_million by lia. done.
  - apply Z.ltb_ge in E.
    replace (t * 1000000 <? 0) with false by (symmetry; apply Z.ltb_ge; lia).
    apply digits_times_million. lia.
Qed.
End Digits.

(** ** Numbers beyond 2^53 *)

Section Numbers.
Local Open Scope Z_scope.

(** A Number is within one part in 2^53 of the integer it stands for. *)
Lemma nearest_double_close (d : Z) :
  0 < d -> Z.abs (nearest_double d - d) * 2 ^ 53 <= d.
Proof.
  intros Hd. unfold nearest_double. rewrite (Z.abs_eq d) by lia.
  destruct (d <? 2 ^ 53) eqn:E.
  { rewrite Z.sub_diag. simpl. lia. }
  apply Z.ltb_ge in E. cbv zeta.
  destruct (Z.log2_spec d Hd) as [L1 L2].
  assert (53 <= Z.log2 d) as HL.
  { apply Z.log2_le_pow2; lia. }
  set (e := Z.log2 d - 52) in *.
  assert (1 <= e) as He by lia.
  assert (2 ^ Z.log2 d = 2 ^ 52 * 2 ^ e) as P1.
  { rewrite <- Z.pow_add_r by lia. f_equal. lia. }
  assert (2 ^ e = 2 * 2 ^ (e - 1)) as P2.
  { rewrite <- (Z.pow_succ_r 2 (e - 1)) by lia. f_equal. lia. }
  assert (0 < 2 ^ (e - 1)) as P3 by (apply Z.pow_pos_nonneg; lia).
  set (E2 := 2 ^ e) in *. set (H := 2 ^ (e - 1)) in *.
  pose proof (Z.div_mod d E2 ltac:(lia)) as DM.
  pose proof (Z.mod_pos_bound d E2 ltac:(lia)) as MB.
  set (q := d / E2) in *. set (r := d mod E2) in *.
  assert (2 ^ 52 <= q) as Hq.
  { unfold q. apply Z.div_le_lower_bound; lia. }
  rewrite (Z.sgn_pos d) by lia.
  destruct ((H <? r) || ((r =? H) && Z.odd q)) eqn:B.
  - assert (H <= r) as Hr.
    { apply orb_true_iff in B as [B|B]; [apply Z.ltb_lt in B; lia|].
      apply andb_true_iff in B as [B _]. apply Z.eqb_eq in B. lia. }
    replace (1 * ((q + 1) * E2) - d) with (E2 - r) by lia.
    rewrite Z.abs_eq by lia. nia.
  - assert (r <= H) as Hr.
    { apply orb_false_iff in B as [B _]. apply Z.ltb_ge in B. lia. }
    replace (1 * (q * E2) - d) with (- r) by lia.
    rewrite Z.abs_neq by lia. nia.
Qed.

Lemma nearest_double_small (d : Z) :
  Z.abs d < 2 ^ 53 -> nearest_double d = d.
Proof.
  intros H. unfold nearest_double.
  by rewrite (proj2 (Z.ltb_lt _ _) H).
Qed.

Lemma nearest_double_opp (d : Z) : nearest_double (- d) = - nearest_double d.
Proof.
  unfold nearest_double. rewrite Z.abs_opp, Z.sgn_opp.
  destruct (Z.abs d <? 2 ^ 53); [done|]. cbv zeta. lia.
Qed.

(** Two decimals of at most fifteen digits before six zeros stand for
    different Numbers. *)
Lemma fifteen_digits_apart (a t : Z) :
  0 < a -> 0 < t < 10 ^ 15 ->
  nearest_double (a * 1000000) = nearest_double (t * 1000000) -> a = t.
Proof.
  intros Ha Ht E.
  pose proof (nearest_double_close (a * 1000000) ltac:(lia)) as Ca.
  pose proof (nearest_double_close (t * 1000000) ltac:(lia)) as Ct.
  rewrite E in Ca. set (v := nearest_double (t * 1000000)) in *.
  assert (2 ^ 53 = 9007199254740992) as P by reflexivity.
  assert (10 ^ 15 = 1000000000000000) as Q by reflexivity.
  rewrite P in *. rewrite Q in *. lia.
Qed.

Lemma shortest_step (j : nat) (v : Z) :
  shortest j v =
    let u := 10 ^ Z.of_nat j in
    let lo := v / u * u in
    let hi := lo + u in
    let ok_lo := (0 <? lo) && (nearest_double lo =? v) in
    let ok_hi := nearest_double hi =? v in
    if ok_lo && ok_hi then
      if v - lo <? hi - v then lo
      else if hi - v <? v - lo then hi
      else if Z.even (lo / u) then lo else hi
    else if ok_lo then lo
    else if ok_hi then hi
    else
      match j with
      | O => v
      | S j' => shortest j' v
      end.
Proof. by destruct j. Qed.

(** The decimal chosen for the Number of [t * 1000000], for [t] of at most
    fifteen digits, is [t * 1000000] itself. *)
Lemma shortest_exact (j : nat) (t : Z) :
  (6 <= j)%nat -> 0 < t < 10 ^ 15 ->
  shortest j (nearest_double (t * 1000000)) = t * 1000000.
Proof.
  intros Hj Ht. set (p := t * 1000000). set (v := nearest_double p).
  pose proof (nearest_double_close p ltac:(unfold p; lia)) as Hc.
  fold v in Hc.
  assert (10 ^ 15 = 1000000000000000) as Q by reflexivity.
  assert (2 ^ 53 = 9007199254740992) as P by reflexivity.
  rewrite P in Hc. rewrite Q in Ht.
  assert (0 < v) as Hv by (unfold p in *; lia).
  induction j as [|j IH]; [lia|].
  rewrite shortest_step. cbv zeta.
  set (u := 10 ^ Z.of_nat (S j)).
  assert (exists k, 0 < k /\ u = k * 1000000) as (k & Hk & Hu).
  { exists (10 ^ (Z.of_nat (S j) - 6)). split.
    - apply Z.pow_pos_nonneg; lia.
    - change 1000000 with (10 ^ 6). rewrite <- Z.pow_add_r by lia.
      unfold u. f_equal. lia. }
  assert (0 <= v / u) as Hdiv by (apply Z.div_pos; lia).
  set (a := v / u) in *.
  assert (forall b, 0 < b -> nearest_double (b * 1000000) = v -> b = t)
    as Hvalid.
  { intros b Hb E. apply fifteen_digits_apart; [done|lia|done]. }
  assert (0 < a * u -> nearest_double (a * u) = v -> a * u = p) as Hlo.
  { intros H0 E. rewrite Hu in *.
    assert (a * k = t) as Hak; [|unfold p; rewrite <- Hak; ring].
    apply Hvalid; [nia|].
    by replace (a * k * 1000000) with (a * (k * 1000000)) by ring. }
  assert (nearest_double (a * u + u) = v -> a * u + u = p) as Hhi.
  { intros E. rewrite Hu in *.
    assert (a * k + k = t) as Hak; [|unfold p; rewrite <- Hak; ring].
    apply Hvalid; [nia|].
    by replace ((a * k + k) * 1000000)
      with (a * (k * 1000000) + k * 1000000) by ring. }
  set (okl := (0 <? a * u) && (nearest_double (a * u) =? v)).
  set (okh := nearest_double (a * u + u) =? v).
  assert (okl = true -> a * u = p) as Hl.
  { unfold okl. intros [E0 E1]%andb_true_iff.
    apply Hlo; [by apply Z.ltb_lt|by apply Z.eqb_eq]. }
  assert (okh = true -> a * u + u = p) as Hh.
  { unfold okh. intros E. by apply Hhi, Z.eqb_eq. }
  assert ((6 <= j)%nat \/ okl = true \/ okh = true) as Hx.
  { destruct (decide (6 <= j)%nat) as [H6|H6]; [by left|right].
    assert (j = 5%nat) as -> by lia. change u with 1000000 in *.
    destruct (Z_le_gt_dec p v) as [Hpv|Hpv].
    - left. assert (a = t) as Ha.
      { unfold a. symmetry.
        apply (Z.div_unique_pos v 1000000 t (v - p)); unfold p; lia. }
      unfold okl. rewrite Ha. fold p. apply andb_true_iff. split.
      + apply Z.ltb_lt. unfold p. lia.
      + by apply Z.eqb_eq.
    - right. assert (a = t - 1) as Ha.
      { unfold a. symmetry.
        apply (Z.div_unique_pos v 1000000 (t - 1) (v - p + 1000000));
          unfold p; lia. }
      unfold okh. rewrite Ha.
      replace ((t - 1) * 1000000 + 1000000) with p by (unfold p; lia).
      by apply Z.eqb_eq. }
  destruct okl, okh; cbn [andb].
  - exfalso. pose proof (Hl eq_refl). pose proof (Hh eq_refl). lia.
  - by apply Hl.
  - by apply Hh.
  - destruct Hx as [H6|[?|?]]; [by apply IH|done|done].
Qed.

(** C7's arithmetic: for a time value of fewer than sixteen digits, the
    Number of its product with 1000000 prints as the digits of that
    product. *)
Lemma Number_toString_million (t : Z) :
  Z.abs t < 10 ^ 15 ->
  Number_toString (nearest_double (t * 1000000))
  = integerToString (t * 1000000).
Proof.
  intros Ht.
  assert (10 ^ 15 = 1000000000000000) as Q by reflexivity.
  assert (2 ^ 53 = 9007199254740992) as P by reflexivity.
  assert (forall s, 0 < s < 10 ^ 15 ->
            decimal_or_exponent
              (shortest (Z.to_nat (Z.log2 (nearest_double (s * 1000000))))
                 (nearest_double (s * 1000000)))
            = digits (digits_fuel (s * 1000000)) (s * 1000000)
            /\ 0 < nearest_double (s * 1000000)) as Hpos.
  { intros s Hs.
    pose proof (nearest_double_close (s * 1000000) ltac:(lia)) as Hc.
    rewrite P in Hc. rewrite Q in Hs.
    assert (2 ^ 6 <= nearest_double (s * 1000000)) as Hv
      by (change (2 ^ 6) with 64; lia).
    split; [|lia].
    rewrite shortest_exact; [|apply Z.log2_le_pow2 in Hv; lia|lia].
    unfold decimal_or_exponent.
    rewrite (proj2 (Z.ltb_lt _ _)); [done|].
    change (10 ^ 21) with 1000000000000000000000. lia. }
  destruct (Z.lt_trichotomy t 0) as [Hn|[->|Hp]].
  - destruct (Hpos (- t) ltac:(lia)) as [H1 H2].
    replace (- t * 1000000) with (- (t * 1000000)) in H1, H2 by lia.
    rewrite nearest_double_opp in H1, H2.
    unfold Number_toString, integerToString.
    rewrite (proj2 (Z.eqb_neq _ _)) by lia.
    rewrite !(proj2 (Z.ltb_lt _ _)) by lia.
    by rewrite H1.
  - reflexivity.
  - destruct (Hpos t ltac:(lia)) as [H1 H2].
    unfold Number_toString, integerToString.
    rewrite (proj2 (Z.eqb_neq _ _)) by lia.
    rewrite !(proj2 (Z.ltb_ge _ _)) by lia.
    exact H1.
Qed.
End Numbers.

(** ** What each operation leaves to be observed *)

Section Views.
Variable host : Host.

Lemma elements_insert (l : nat) xs s w :
  elements l (set_store (<[l := xs]> s) w) = xs.
Proof. unfold elements. simpl. by rewrite lookup_insert_eq. Qed.

Lemma set_outputs_id w : set_outputs (outputs w) w = w.
Proof. by destruct w. Qed.

Lemma echo_all dev logs w :
  fold_left
    (fun w log => if dev : bool then emit (echo log) w else w) logs w
  = set_outputs (outputs w ++ (if dev then map echo logs else [])) w.
Proof.
  revert w. induction logs as [|log logs IH]; intros w; simpl.
  - destruct dev; by rewrite app_nil_r, set_outputs_id.
  - rewrite IH. destruct dev; simpl; [|done].
    unfold emit. simpl. by rewrite <- app_assoc.
Qed.

Lemma flushLogs_empty w : queue w = [] -> flushLogs host w = (w, Fulfilled).
Proof. intros E. unfold flushLogs. rewrite E. by rewrite decide_True. Qed.

Lemma flushLogs_detach w :
  queue w <> [] ->
  flushLogs host w =
    let cfg := getA11yLoggerConfig w in
    (set_awaiting
       (if Required.lokiEnabled cfg then S (awaiting w) else awaiting w)
       (set_outputs (outputs w ++ dispatch host cfg (queue w)) (detach w)),
     if Required.lokiEnabled cfg then Pending else Fulfilled).
Proof.
  intros E. unfold flushLogs.
  rewrite decide_False by (destruct (queue w); simpl; congruence).
  unfold alloc. cbn zeta. cbn beta iota.
  rewrite elements_insert.
  unfold dispatch, getA11yLoggerConfig. simpl.
  destruct (nullish (A11yLoggerConfig.lokiEnabled (config w)) false) eqn:L; simpl.
  - reflexivity.
  - rewrite echo_all. reflexivity.
Qed.

Lemma queue_detach w : queue (detach w) = [].
Proof. unfold detach, queue. simpl. apply elements_insert. Qed.

Lemma wf_detach w : wf (detach w).
Proof. unfold wf, detach. simpl. rewrite lookup_insert_eq. eauto. Qed.

Lemma view_detach w :
  view (detach w) =
    (config w, [], flushTimer w, shutdownHookRegistered w, timers w,
     nextHandle w, beforeExit w, awaiting w, outputs w,
     batches w ++ [queue w]).
Proof. unfold view. rewrite queue_detach. reflexivity. Qed.

Lemma view_flushLogs w :
  view (flushLogs host w).1 =
    (config w, [], flushTimer w, shutdownHookRegistered w, timers w,
     nextHandle w, beforeExit w,
     match queue w with
     | [] => awaiting w
     | _ => if Required.lokiEnabled (getA11yLoggerConfig w)
            then S (awaiting w) else awaiting w
     end,
     outputs w ++
       match queue w with
       | [] => []
       | q => dispatch host (getA11yLoggerConfig w) q
       end,
     batches w ++ match queue w with [] => [] | q => [q] end).
Proof.
  destruct (queue w) as [|x q] eqn:E.
  - rewrite flushLogs_empty by done. cbn [fst]. unfold view. rewrite E.
    by rewrite !app_nil_r.
  - rewrite flushLogs_detach by congruence. rewrite E.
    cbn [fst]. unfold view.
    change (queue (set_awaiting ?a (set_outputs ?o (detach w)))) with (queue (detach w)).
    rewrite queue_detach. simpl. by rewrite E.
Qed.

(** *** Views of the other operations *)

Lemma queue_push w x : queue (push (logBuffer w) x w) = queue w ++ [x].
Proof. unfold queue, push. simpl. apply elements_insert. Qed.

Lemma view_push w x :
  view (push (logBuffer w) x w) =
    (config w, queue w ++ [x], flushTimer w, shutdownHookRegistered w,
     timers w, nextHandle w, beforeExit w, awaiting w, outputs w, batches w).
Proof. unfold view. by rewrite queue_push. Qed.

Lemma view_cancel w :
  view (cancel w) =
    (config w, queue w, None, shutdownHookRegistered w,
     match flushTimer w with
     | Some h => disarm h (timers w)
     | None => timers w
     end,
     nextHandle w, beforeExit w, awaiting w, outputs w, batches w).
Proof. unfold cancel. destruct (flushTimer w) eqn:E; unfold view; simpl; by rewrite ?E. Qed.

Lemma view_inv a b :
  view a = view b ->
  config a = config b /\ queue a = queue b /\ flushTimer a = flushTimer b
  /\ shutdownHookRegistered a = shutdownHookRegistered b
  /\ timers a = timers b /\ nextHandle a = nextHandle b
  /\ beforeExit a = beforeExit b /\ awaiting a = awaiting b
  /\ outputs a = outputs b /\ batches a = batches b.
Proof. unfold view. intros H. by simplify_eq. Qed.

Local Ltac fields H :=
  let Hc := fresh "Hc" in let Hq := fresh "Hq" in let Hf := fresh "Hf" in
  let Hs := fresh "Hs" in let Ht := fresh "Ht" in let Hn := fresh "Hn" in
  let Hb := fresh "Hb" in let Ha := fresh "Ha" in let Ho := fresh "Ho" in
  let Hbt := fresh "Hbt" in
  apply view_inv in H;
  destruct H as (Hc & Hq & Hf & Hs & Ht & Hn & Hb & Ha & Ho & Hbt);
  unfold getA11yLoggerConfig;
  rewrite ?Hc, ?Hq, ?Hf, ?Hs, ?Ht, ?Hn, ?Hb, ?Ha, ?Ho, ?Hbt.

Lemma respects_push x : respects (fun w => push (logBuffer w) x w).
Proof. intros a b H. rewrite !view_push. by fields H. Qed.

Lemma respects_cancel : respects cancel.
Proof. intros a b H. rewrite !view_cancel. by fields H. Qed.

Lemma respects_flushLogs : respects (fun w => (flushLogs host w).1).
Proof.
  intros a b H. rewrite !view_flushLogs. by fields H.
Qed.

Lemma respects_scheduleFlush : respects (scheduleFlush host).
Proof.
  intros a b H. unfold scheduleFlush. pose proof H as H'. fields H.
  destruct (flushTimer b); [done|].
  unfold setTimeout. cbn zeta. cbn beta iota.
  destruct (timeout_unref host); unfold view, unref, queue, elements in *;
    simpl; by rewrite ?Hc, ?Hq, ?Ht, ?Hn, ?Hs, ?Hb, ?Ha, ?Ho, ?Hbt.
Qed.

Lemma respects_ensureShutdownHook : respects (ensureShutdownHook host).
Proof.
  intros a b H. unfold ensureShutdownHook. pose proof H as H'. fields H.
  destruct (shutdownHookRegistered b); [done|].
  destruct (negb _); [done|]. destruct (process_on host); [|done].
  unfold view, queue, elements in *; simpl.
  by rewrite ?Hc, ?Hq, ?Ht, ?Hn, ?Hf, ?Hb, ?Ha, ?Ho, ?Hbt.
Qed.

Lemma addLog_eq x w :
  addLog host x w =
    if PrimFloat.leb (Required.maxBufferSize (getA11yLoggerConfig w))
         (number_of_nat (length (queue w ++ [x])))
    then (flushLogs host (cancel (push (logBuffer w) x w))).1
    else scheduleFlush host (push (logBuffer w) x w).
Proof. unfold addLog. cbn zeta. by rewrite queue_push. Qed.

Lemma respects_addLog x : respects (addLog host x).
Proof.
  intros a b H. rewrite !addLog_eq.
  pose proof (respects_push x _ _ H) as Hp. fields H.
  destruct (PrimFloat.leb _ _).
  - by apply respects_flushLogs, respects_cancel.
  - by apply respects_scheduleFlush.
Qed.

Lemma perform_eq c now w :
  perform host c now w =
    addLog host (entry_of host c now) (ensureShutdownHook host w).
Proof. by destruct c. Qed.

Lemma respects_perform c now : respects (perform host c now).
Proof.
  intros a b H. rewrite !perform_eq.
  by apply respects_addLog, respects_ensureShutdownHook.
Qed.

Lemma flush_eq w : a11yLogger.flush host w = flushLogs host (cancel w).
Proof. reflexivity. Qed.

Lemma respects_flush : respects (fun w => (a11yLogger.flush host w).1).
Proof.
  intros a b H. rewrite !flush_eq.
  by apply respects_flushLogs, respects_cancel.
Qed.

Lemma respects_iter (f : World -> World) n :
  respects f -> respects (Nat.iter n f).
Proof. intros Hf. induction n as [|n IH]; intros a b H; simpl; auto. Qed.

Lemma respects_fire h : respects (fire host h).
Proof.
  intros a b H. unfold fire, timer_callback. pose proof H as H'. fields H.
  case_decide; [|done].
  apply respects_flushLogs.
  unfold view, queue, elements in *; simpl.
  by rewrite ?Hc, ?Hq, ?Ht, ?Hn, ?Hs, ?Hb, ?Ha, ?Ho, ?Hbt.
Qed.

Lemma respects_resume r : respects (fun w => (flushLogs_resume r w).1).
Proof.
  intros a b H. unfold flushLogs_resume. pose proof H as H'. fields H.
  destruct (awaiting b); [done|].
  destruct r; unfold view, queue, elements in *; simpl;
    by rewrite ?Hc, ?Hq, ?Ht, ?Hn, ?Hs, ?Hf, ?Hb, ?Ho, ?Hbt.
Qed.

Lemma respects_configure c : respects (configureA11yLogger c).
Proof.
  intros a b H. fields H.
  unfold view, queue, elements, configureA11yLogger in *; simpl.
  by rewrite ?Hc, ?Hq, ?Ht, ?Hn, ?Hs, ?Hf, ?Hb, ?Ha, ?Ho, ?Hbt.
Qed.

Lemma respects_resetConfig : respects resetA11yLoggerConfig.
Proof.
  intros a b H. fields H.
  unfold view, queue, elements, resetA11yLoggerConfig in *; simpl.
  by rewrite ?Hq, ?Ht, ?Hn, ?Hs, ?Hf, ?Hb, ?Ha, ?Ho, ?Hbt.
Qed.

Lemma view_reset w :
  view (_resetInternalState w) =
    (config w, [], None, false,
     match flushTimer w with
     | Some h => disarm h (timers w)
     | None => timers w
     end,
     nextHandle w, beforeExit w, awaiting w, outputs w, batches w).
Proof.
  unfold _resetInternalState. fold (cancel w).
  pose proof (view_cancel w) as H. unfold view in H.
  injection H as Hc Hq Hf Hs Ht Hn Hb Ha Ho Hbt.
  unfold alloc. cbn zeta. cbn beta iota. unfold view.
  unfold queue at 1. unfold elements. simpl. rewrite lookup_insert_eq.
  simpl. by rewrite Hc, Hf, Ht, Hn, Hb, Ha, Ho, Hbt.
Qed.

Lemma respects_reset : respects _resetInternalState.
Proof. intros a b H. rewrite !view_reset. by fields H. Qed.

(** *** Well-formedness *)

Lemma elements_alloc xs w l :
  is_Some (store w !! l) -> elements l (alloc xs w).2 = elements l w.
Proof.
  intros Hl. unfold alloc, elements. simpl.
  rewrite lookup_insert_ne; [done|].
  intros E. destruct Hl as [ys Hl].
  pose proof (is_fresh (dom (store w))) as Hfresh.
  apply not_elem_of_dom in Hfresh. congruence.
Qed.

Lemma queue_alloc xs w : wf w -> queue (alloc xs w).2 = queue w.
Proof. intros Hw. by apply elements_alloc. Qed.

Lemma view_getLogBuffer w : wf w -> view (_getLogBuffer w).2 = view w.
Proof.
  intros Hw. unfold view, _getLogBuffer. by rewrite queue_alloc.
Qed.

Lemma grows_refl w : wf w -> grows w w.
Proof. intros Hw. split; [done|]. split; auto. Qed.

Lemma grows_trans w1 w2 w3 : grows w1 w2 -> grows w2 w3 -> grows w1 w3.
Proof.
  intros [_ [Hd1 Hl1]] [Hw3 [Hd2 Hl2]]. split; [done|]. split; [auto|].
  destruct Hl2 as [E|N].
  - rewrite E. exact Hl1.
  - right. destruct (store w1 !! logBuffer w3) eqn:E; [|done].
    destruct (Hd1 (logBuffer w3)) as [ys Hys]; [eauto|]. congruence.
Qed.

Lemma grows_same w w' :
  wf w -> store w' = store w -> logBuffer w' = logBuffer w -> grows w w'.
Proof.
  intros Hw Hs Hl. unfold grows, wf, extends. rewrite Hs, Hl. auto.
Qed.

Lemma insert_is_Some (s : gmap nat (list A11yLogEntry)) l xs l' :
  is_Some (s !! l') -> is_Some (<[l := xs]> s !! l').
Proof. intros H. apply lookup_insert_is_Some'. auto. Qed.

Lemma fresh_None (s : gmap nat (list A11yLogEntry)) :
  s !! fresh (dom s) = None.
Proof. apply not_elem_of_dom, is_fresh. Qed.

Lemma grows_insert w l xs :
  wf w -> grows w (set_store (<[l := xs]> (store w)) w).
Proof.
  intros Hw. split; [|split].
  - unfold wf. simpl. by apply insert_is_Some.
  - simpl. intros l'. apply insert_is_Some.
  - by left.
Qed.

Lemma grows_alloc w xs : wf w -> grows w (alloc xs w).2.
Proof. intros Hw. by apply grows_insert. Qed.

Lemma grows_detach w : grows w (detach w).
Proof.
  split; [apply wf_detach|]. unfold detach. split; simpl.
  - intros l' H. by do 2 apply insert_is_Some.
  - right.
    set (s := <[fresh (dom (store w)) := queue w]> (store w)).
    destruct (store w !! fresh (dom s)) eqn:E; [|done].
    assert (is_Some (s !! fresh (dom s))) as [ys Hys]
      by (apply insert_is_Some; eauto).
    rewrite fresh_None in Hys. done.
Qed.

Lemma grows_flushLogs w : wf w -> grows w (flushLogs host w).1.
Proof.
  intros Hw. destruct (queue w) as [|x q] eqn:E.
  - rewrite flushLogs_empty by done. by apply grows_refl.
  - rewrite flushLogs_detach by congruence. cbn [fst].
    eapply grows_trans; [apply grows_detach|].
    apply grows_same; [apply wf_detach|done..].
Qed.

Lemma grows_cancel w : wf w -> grows w (cancel w).
Proof.
  intros Hw. apply grows_same; [done|..]; unfold cancel;
    by destruct (flushTimer w).
Qed.

Lemma grows_scheduleFlush w : wf w -> grows w (scheduleFlush host w).
Proof.
  intros Hw. apply grows_same; [done|..]; unfold scheduleFlush;
    destruct (flushTimer w); try done; simpl;
    by destruct (timeout_unref host).
Qed.

Lemma grows_ensureShutdownHook w :
  wf w -> grows w (ensureShutdownHook host w).
Proof.
  intros Hw. apply grows_same; [done|..]; unfold ensureShutdownHook;
    destruct (shutdownHookRegistered w); try done;
    destruct (negb _); try done; by destruct (process_on host).
Qed.

Lemma grows_addLog x w : wf w -> grows w (addLog host x w).
Proof.
  intros Hw. rewrite addLog_eq.
  assert (grows w (push (logBuffer w) x w)) as Hp by by apply grows_insert.
  pose proof (proj1 Hp) as Hwp.
  destruct (PrimFloat.leb _ _).
  - eapply grows_trans; [exact Hp|].
    eapply grows_trans; [by apply grows_cancel|].
    apply grows_flushLogs. exact (proj1 (grows_cancel _ Hwp)).
  - eapply grows_trans; [exact Hp|]. by apply grows_scheduleFlush.
Qed.

Lemma grows_flush w : wf w -> grows w (a11yLogger.flush host w).1.
Proof.
  intros Hw. rewrite flush_eq.
  eapply grows_trans; [by apply grows_cancel|].
  apply grows_flushLogs. exact (proj1 (grows_cancel _ Hw)).
Qed.

Lemma grows_iter (f : World -> World) n w :
  (forall w, wf w -> grows w (f w)) -> wf w -> grows w (Nat.iter n f w).
Proof.
  intros Hf Hw. induction n as [|n IH]; simpl; [by apply grows_refl|].
  eapply grows_trans; [exact IH|]. apply Hf, (proj1 IH).
Qed.

Lemma grows_reset w : wf w -> grows w (_resetInternalState w).
Proof.
  intros Hw. unfold _resetInternalState. fold (cancel w).
  eapply grows_trans; [by apply grows_cancel|].
  pose proof (proj1 (grows_cancel _ Hw)) as Hc.
  unfold alloc. cbn zeta. cbn beta iota. split; [|split]; simpl.
  - unfold wf. simpl. rewrite lookup_insert_eq. eauto.
  - intros l'. apply insert_is_Some.
  - right. apply fresh_None.
Qed.

Lemma grows_step w ev : wf w -> grows w (step host w ev).
Proof.
  intros Hw. destruct ev as [c now| |h|r|c| | | |]; simpl.
  - rewrite perform_eq.
    eapply grows_trans; [by apply grows_ensureShutdownHook|].
    apply grows_addLog. exact (proj1 (grows_ensureShutdownHook _ Hw)).
  - by apply grows_flush.
  - unfold fire, timer_callback. case_decide; [|by apply grows_refl].
    assert (grows w (set_flushTimer None (set_timers (disarm h (timers w)) w)))
      as Hg by by apply grows_same.
    eapply grows_trans; [exact Hg|]. apply grows_flushLogs, (proj1 Hg).
  - apply grows_same; [done|..]; unfold flushLogs_resume;
      destruct (awaiting w); try done; by destruct r.
  - by apply grows_same.
  - by apply grows_same.
  - by apply grows_reset.
  - by apply grows_alloc.
  - apply grows_iter; [|done]. intros w'. apply grows_flush.
Qed.

Lemma step_sim a b ev : sim a b -> sim (step host a ev) (step host b ev).
Proof.
  intros (H & Ha & Hb).
  split; [|split; eapply proj1, grows_step; eassumption].
  destruct ev as [c now| |h|r|c| | | |]; cbn [step].
  - by apply respects_perform.
  - by apply respects_flush.
  - by apply respects_fire.
  - by apply respects_resume.
  - by apply respects_configure.
  - by apply respects_resetConfig.
  - by apply respects_reset.
  - by rewrite !view_getLogBuffer.
  - assert (beforeExit a = beforeExit b) as ->
      by (apply view_inv in H; tauto).
    by apply respects_iter; [apply respects_flush|].
Qed.
End Views.

(** ** The scheduler *)

Section Scheduler.
Variable host : Host.

Lemma tidy_view w c q f s t n b a o bt :
  view w = (c, q, f, s, t, n, b, a, o, bt) ->
  tidy q f t -> tidy (queue w) (flushTimer w) (timers w).
Proof. unfold view. intros H. by simplify_eq. Qed.

Lemma disarm_only h ts : handle <$> ts = [h] -> disarm h ts = [].
Proof.
  destruct ts as [|t [|t' ts]]; try done. simpl. intros [= E].
  unfold disarm. rewrite filter_cons_False by (by intros []). done.
Qed.

Lemma tidy_idle : tidy [] None [].
Proof. split; [done|]. split; [by intros [? ?]|done]. Qed.

Lemma tidy_pending q x h ts :
  handle <$> ts = [h] -> tidy (q ++ [x]) (Some h) ts.
Proof.
  intros H. split; [done|]. split; [|eauto]. intros _. by destruct q.
Qed.

Lemma tidy_cancelled q f ts :
  tidy q f ts ->
  match f with Some h => disarm h ts | None => ts end = [].
Proof.
  intros [H _]. destruct f as [h|]; simpl in H.
  - by apply disarm_only.
  - by destruct ts.
Qed.

Lemma flushTimer_cancel w : flushTimer (cancel w) = None.
Proof. unfold cancel. by destruct (flushTimer w) eqn:E. Qed.

Lemma timers_cancel w :
  timers (cancel w) =
    match flushTimer w with
    | Some h => disarm h (timers w)
    | None => timers w
    end.
Proof. unfold cancel. by destruct (flushTimer w). Qed.

Lemma queue_cancel w : queue (cancel w) = queue w.
Proof. unfold cancel. by destruct (flushTimer w). Qed.

Lemma scheduleFlush_noop w :
  is_Some (flushTimer w) -> scheduleFlush host w = w.
Proof. intros [h E]. unfold scheduleFlush. by rewrite E. Qed.

Lemma scheduleFlush_armed w :
  flushTimer w = None -> timers w = [] ->
  view (scheduleFlush host w) =
    (config w, queue w, Some (nextHandle w), shutdownHookRegistered w,
     [armed host (nextHandle w)
        (Required.flushInterval (getA11yLoggerConfig w))],
     S (nextHandle w), beforeExit w, awaiting w, outputs w, batches w).
Proof.
  intros E T. unfold scheduleFlush, setTimeout, armed. rewrite E, T.
  cbn zeta. cbn beta iota.
  destruct (timeout_unref host); unfold view, unref, queue, elements; simpl;
    rewrite ?T; simpl; rewrite ?decide_True by done; done.
Qed.

Lemma view_ensureShutdownHook w :
  exists s b,
    view (ensureShutdownHook host w) =
      (config w, queue w, flushTimer w, s, timers w, nextHandle w, b,
       awaiting w, outputs w, batches w).
Proof.
  unfold ensureShutdownHook.
  destruct (shutdownHookRegistered w); [by eexists _, _|].
  destruct (negb _); [by eexists _, _|].
  destruct (process_on host); by eexists _, _.
Qed.

Lemma tidy_addLog x w :
  tidy (queue w) (flushTimer w) (timers w) ->
  tidy (queue (addLog host x w)) (flushTimer (addLog host x w))
    (timers (addLog host x w)).
Proof.
  intros Hw. rewrite addLog_eq. destruct (PrimFloat.leb _ _).
  - eapply tidy_view; [apply view_flushLogs|].
    rewrite flushTimer_cancel, timers_cancel.
    cbn [flushTimer timers push set_store].
    rewrite (tidy_cancelled _ _ _ Hw). apply tidy_idle.
  - destruct (flushTimer w) as [h|] eqn:E.
    + rewrite scheduleFlush_noop by (simpl; rewrite E; eauto).
      rewrite queue_push. simpl. rewrite E. destruct Hw as [H1 _].
      by apply tidy_pending.
    + eapply tidy_view.
      * apply scheduleFlush_armed; [done|]. simpl.
        destruct Hw as [H1 _]. by destruct (timers w).
      * rewrite queue_push. by apply tidy_pending.
Qed.

Lemma tidy_flushLogs w :
  flushTimer w = None -> timers w = [] ->
  tidy (queue (flushLogs host w).1) (flushTimer (flushLogs host w).1)
    (timers (flushLogs host w).1).
Proof.
  intros E T. eapply tidy_view; [apply view_flushLogs|].
  rewrite E, T. apply tidy_idle.
Qed.

Lemma tidy_flush w :
  tidy (queue w) (flushTimer w) (timers w) ->
  tidy (queue (a11yLogger.flush host w).1)
    (flushTimer (a11yLogger.flush host w).1)
    (timers (a11yLogger.flush host w).1).
Proof.
  intros H. rewrite flush_eq.
  apply tidy_flushLogs; [apply flushTimer_cancel|].
  rewrite timers_cancel. apply (tidy_cancelled _ _ _ H).
Qed.

Lemma tidy_fire h w :
  tidy (queue w) (flushTimer w) (timers w) ->
  tidy (queue (fire host h w)) (flushTimer (fire host h w))
    (timers (fire host h w)).
Proof.
  intros H. unfold fire, timer_callback. case_decide as Hh; [|done].
  apply tidy_flushLogs; [done|]. simpl.
  destruct H as [H _]. rewrite H in Hh.
  destruct (flushTimer w) as [h'|]; simpl in Hh.
  - apply list_elem_of_singleton in Hh. subst h'.
    apply (disarm_only _ _ H).
  - by apply not_elem_of_nil in Hh.
Qed.

Lemma scheduler_ok_step w ev :
  scheduler_ok w -> scheduler_ok (step host w ev).
Proof.
  intros [Hw H]. split; [exact (proj1 (grows_step host w ev Hw))|].
  destruct ev as [c now| |h|r|c| | | |]; cbn [step].
  - rewrite perform_eq. apply tidy_addLog.
    destruct (view_ensureShutdownHook w) as (s & b & E).
    by eapply tidy_view.
  - by apply tidy_flush.
  - by apply tidy_fire.
  - unfold flushLogs_resume. destruct (awaiting w); [done|]. by destruct r.
  - done.
  - done.
  - eapply tidy_view; [apply view_reset|].
    rewrite (tidy_cancelled _ _ _ H). apply tidy_idle.
  - eapply tidy_view; [by apply view_getLogBuffer|done].
  - generalize (beforeExit w). intros n.
    induction n as [|n IH]; simpl; [done|]. by apply tidy_flush.
Qed.

Lemma scheduler_ok_initial : scheduler_ok initial.
Proof. split; [by eexists|]. apply tidy_idle. Qed.

Lemma scheduler_ok_run tr w :
  scheduler_ok w -> scheduler_ok (run host tr w).
Proof.
  revert w. induction tr as [|ev tr IH]; intros w H; simpl; [done|].
  by apply IH, scheduler_ok_step.
Qed.
End Scheduler.

(** ** The ledger of entries *)

Section Ledger.
Variable host : Host.

Lemma view_fields w c q f s t n b a o bt :
  view w = (c, q, f, s, t, n, b, a, o, bt) ->
  config w = c /\ queue w = q /\ flushTimer w = f
  /\ shutdownHookRegistered w = s /\ timers w = t /\ nextHandle w = n
  /\ beforeExit w = b /\ awaiting w = a /\ outputs w = o /\ batches w = bt.
Proof. unfold view. intros H. by simplify_eq. Qed.

Lemma ledger_view a b : view a = view b -> ledger a = ledger b.
Proof.
  intros H. apply view_inv in H. unfold ledger.
  destruct H as (_ & -> & _ & _ & _ & _ & _ & _ & _ & ->). done.
Qed.

Lemma ledger_flushLogs w : ledger (flushLogs host w).1 = ledger w.
Proof.
  destruct (view_fields _ _ _ _ _ _ _ _ _ _ _ (view_flushLogs host w))
    as (_ & Hq & _ & _ & _ & _ & _ & _ & _ & Hb).
  unfold ledger. rewrite Hq, Hb, app_nil_r.
  destruct (queue w); [by rewrite !app_nil_r|].
  rewrite concat_app. simpl. by rewrite app_nil_r.
Qed.

Lemma ledger_cancel w : ledger (cancel w) = ledger w.
Proof. unfold ledger, cancel. by destruct (flushTimer w). Qed.

Lemma ledger_scheduleFlush w : ledger (scheduleFlush host w) = ledger w.
Proof.
  unfold ledger, scheduleFlush. destruct (flushTimer w); [done|].
  simpl. by destruct (timeout_unref host).
Qed.

Lemma ledger_push w x :
  ledger (push (logBuffer w) x w) = ledger w ++ [x].
Proof. unfold ledger. rewrite queue_push. simpl. by rewrite app_assoc. Qed.

Lemma ledger_addLog w x : ledger (addLog host x w) = ledger w ++ [x].
Proof.
  rewrite addLog_eq. destruct (PrimFloat.leb _ _).
  - by rewrite ledger_flushLogs, ledger_cancel, ledger_push.
  - by rewrite ledger_scheduleFlush, ledger_push.
Qed.

Lemma ledger_flush w : ledger (a11yLogger.flush host w).1 = ledger w.
Proof. by rewrite flush_eq, ledger_flushLogs, ledger_cancel. Qed.

Lemma ledger_step w ev :
  wf w -> is_reset ev = false ->
  ledger (step host w ev) = ledger w ++ enqueued host [ev].
Proof.
  intros Hw Hr. destruct ev as [c now| |h|r|c| | | |]; cbn [step enqueued];
    rewrite ?app_nil_r; try done.
  - rewrite perform_eq, ledger_addLog. f_equal.
    destruct (view_ensureShutdownHook host w) as (s & b & E).
    destruct (view_fields _ _ _ _ _ _ _ _ _ _ _ E)
      as (_ & Hq & _ & _ & _ & _ & _ & _ & _ & Hb).
    unfold ledger. by rewrite Hq, Hb.
  - apply ledger_flush.
  - unfold fire, timer_callback. case_decide; [|done].
    by rewrite ledger_flushLogs.
  - unfold flushLogs_resume. destruct (awaiting w); [done|]. by destruct r.
  - by apply ledger_view, view_getLogBuffer.
  - generalize (beforeExit w). intros n.
    induction n as [|n IH]; simpl; [done|]. by rewrite ledger_flush.
Qed.

Lemma enqueued_cons ev tr :
  enqueued host (ev :: tr) = enqueued host [ev] ++ enqueued host tr.
Proof. by destruct ev. Qed.

Lemma ledger_run tr w :
  wf w -> forallb (fun ev => negb (is_reset ev)) tr = true ->
  ledger (run host tr w) = ledger w ++ enqueued host tr.
Proof.
  revert w. induction tr as [|ev tr IH]; intros w Hw Hr.
  - simpl. by rewrite app_nil_r.
  - simpl in Hr. apply andb_true_iff in Hr as [Hev Hr].
    apply negb_true_iff in Hev.
    cbn [run fold_left]. fold (run host tr (step host w ev)).
    rewrite IH; [|exact (proj1 (grows_step host w ev Hw))|done].
    rewrite ledger_step by done. rewrite (enqueued_cons ev tr).
    by rewrite app_assoc.
Qed.
End Ledger.

(** ** The transport *)

Section Transport.
Variable host : Host.

Lemma fetches_app os os' : fetches (os ++ os') = fetches os ++ fetches os'.
Proof. unfold fetches. apply omap_app. Qed.

Lemma fetches_echo logs : fetches (map echo logs) = [].
Proof. induction logs; simpl; auto. Qed.

Lemma outputs_flushLogs w :
  outputs (flushLogs host w).1 =
    outputs w ++
      match queue w with
      | [] => []
      | q => dispatch host (getA11yLoggerConfig w) q
      end.
Proof.
  by destruct (view_fields _ _ _ _ _ _ _ _ _ _ _ (view_flushLogs host w))
    as (_ & _ & _ & _ & _ & _ & _ & _ & Ho & _).
Qed.

Lemma batches_flushLogs w :
  batches (flushLogs host w).1 =
    batches w ++ match queue w with [] => [] | q => [q] end.
Proof.
  by destruct (view_fields _ _ _ _ _ _ _ _ _ _ _ (view_flushLogs host w))
    as (_ & _ & _ & _ & _ & _ & _ & _ & _ & Hb).
Qed.

Lemma queue_flushLogs w : queue (flushLogs host w).1 = [].
Proof.
  by destruct (view_fields _ _ _ _ _ _ _ _ _ _ _ (view_flushLogs host w))
    as (_ & Hq & _).
Qed.

Lemma awaiting_flushLogs w :
  awaiting (flushLogs host w).1 =
    match queue w with
    | [] => awaiting w
    | _ => if Required.lokiEnabled (getA11yLoggerConfig w)
           then S (awaiting w) else awaiting w
    end.
Proof.
  by destruct (view_fields _ _ _ _ _ _ _ _ _ _ _ (view_flushLogs host w))
    as (_ & _ & _ & _ & _ & _ & _ & Ha & _).
Qed.

Lemma flushTimer_flushLogs w :
  flushTimer (flushLogs host w).1 = flushTimer w.
Proof.
  by destruct (view_fields _ _ _ _ _ _ _ _ _ _ _ (view_flushLogs host w))
    as (_ & _ & Hf & _).
Qed.

Lemma timers_flushLogs w : timers (flushLogs host w).1 = timers w.
Proof.
  by destruct (view_fields _ _ _ _ _ _ _ _ _ _ _ (view_flushLogs host w))
    as (_ & _ & _ & _ & Ht & _).
Qed.

Lemma config_flushLogs w : config (flushLogs host w).1 = config w.
Proof.
  by destruct (view_fields _ _ _ _ _ _ _ _ _ _ _ (view_flushLogs host w))
    as (Hc & _).
Qed.

Lemma promise_flushLogs w :
  (flushLogs host w).2 =
    match queue w with
    | [] => Fulfilled
    | _ => if Required.lokiEnabled (getA11yLoggerConfig w)
           then Pending else Fulfilled
    end.
Proof.
  destruct (queue w) eqn:E.
  - by rewrite flushLogs_empty.
  - by rewrite flushLogs_detach by congruence.
Qed.

(** C3. With [lokiEnabled] true, flushing a non-empty queue of K entries
    calls [fetch] exactly once, with a POST to [{lokiUrl}/loki/api/v1/push]
    whose body is the serialisation of an object with exactly one stream;
    the stream's [values] has one element per queued entry, in the order of
    the queue, and its labels are the configured, or else the default,
    [jobLabel], [containerLabel], [environment] and [serviceLabel].  The
    manual [flush()] sends the same request. *)
Theorem remote_flush_payload w :
  Required.lokiEnabled (getA11yLoggerConfig w) = true ->
  queue w <> [] ->
  let payload :=
    JObject
      [("streams",
        JArray
          [JObject
             [("stream",
               JObject
                 [("job",
                   JString
                     (nullish (A11yLoggerConfig.jobLabel (config w))
                        "accessibility"));
                  ("container",
                   JString
                     (nullish (A11yLoggerConfig.containerLabel (config w))
                        "stonewall-sveltekit"));
                  ("environment",
                   JString
                     (nullish (A11yLoggerConfig.environment (config w))
                        "development"));
                  ("service",
                   JString
                     (nullish (A11yLoggerConfig.serviceLabel (config w))
                        "a11y-monitoring"))]);
              ("values", JArray (map (lokiValue host) (queue w)))]])] in
  let req :=
    {| url :=
         (nullish (A11yLoggerConfig.lokiUrl (config w))
            "http://localhost:3100" ++ "/loki/api/v1/push")%string;
       method := "POST";
       headers := [("Content-Type", "application/json")];
       body := JSON_stringify host payload |} in
  outputs (flushLogs host w).1 = outputs w ++ [fetch_call req]
  /\ outputs (a11yLogger.flush host w).1 = outputs w ++ [fetch_call req]
  /\ fetches (outputs (flushLogs host w).1) = fetches (outputs w) ++ [req]
  /\ length (map (lokiValue host) (queue w)) = length (queue w)
  /\ forall i,
       map (lokiValue host) (queue w) !! i
       = lokiValue host <$> queue w !! i.
Proof.
  intros L Q payload req.
  assert (outputs (flushLogs host w).1 = outputs w ++ [fetch_call req]) as E.
  { rewrite outputs_flushLogs. destruct (queue w) as [|x q] eqn:Eq; [done|].
    unfold dispatch. by rewrite L. }
  split; [exact E|]. split; [|split; [|split]].
  - rewrite flush_eq, outputs_flushLogs, queue_cancel.
    destruct (queue w) as [|x q] eqn:Eq; [done|].
    unfold dispatch, getA11yLoggerConfig in *.
    assert (config (cancel w) = config w) as ->
      by (unfold cancel; by destruct (flushTimer w)).
    assert (outputs (cancel w) = outputs w) as ->
      by (unfold cancel; by destruct (flushTimer w)).
    by rewrite L.
  - rewrite E, fetches_app. done.
  - apply length_map.
  - intros i. apply list_lookup_fmap.
Qed.

(** C8. With [lokiEnabled] false, flushing a queue of K entries calls
    [fetch] not at all and suspends on nothing.  When [isDevelopment] is true
    it prints exactly K lines, one per entry in the order of the queue, each
    ["[A11y {LEVEL}] {message}"] with the entry's labels as its context; when
    [isDevelopment] is false it prints nothing. *)
Theorem local_flush_echo w :
  Required.lokiEnabled (getA11yLoggerConfig w) = false ->
  let w' := (flushLogs host w).1 in
  outputs w' =
    outputs w ++
      (if Required.isDevelopment (getA11yLoggerConfig w)
       then map echo (queue w) else [])
  /\ fetches (outputs w') = fetches (outputs w)
  /\ awaiting w' = awaiting w
  /\ (flushLogs host w).2 = Fulfilled
  /\ length (map echo (queue w)) = length (queue w)
  /\ forall log,
       echo log =
         console_log
           ("[A11y "
              ++ match level log with
                 | Info => "INFO"
                 | Warn => "WARN"
                 | Error => "ERROR"
                 end ++ "] " ++ message log)%string
           (labels log).
Proof.
  intros L w'.
  assert (outputs w' =
            outputs w ++
              (if Required.isDevelopment (getA11yLoggerConfig w)
               then map echo (queue w) else [])) as E.
  { unfold w'. rewrite outputs_flushLogs. unfold dispatch. rewrite L.
    destruct (queue w); [|done]. by destruct (Required.isDevelopment _). }
  split; [exact E|]. split; [|split; [|split; [|split]]].
  - rewrite E, fetches_app.
    destruct (Required.isDevelopment _); [|by rewrite app_nil_r].
    by rewrite fetches_echo, app_nil_r.
  - unfold w'. rewrite awaiting_flushLogs, L. by destruct (queue w).
  - rewrite promise_flushLogs, L. by destruct (queue w).
  - apply length_map.
  - intros log. unfold echo. by destruct (level log).
Qed.
End Transport.

Section Failure.
Variable host : Host.

Lemma resume_rejected err w n :
  awaiting w = S n ->
  flushLogs_resume (Some err) w
  = (emit (failure_report err) (set_awaiting n w), Fulfilled).
Proof. intros E. unfold flushLogs_resume. by rewrite E. Qed.

Lemma never_rejected w err :
  (flushLogs host w).2 <> Rejected err
  /\ (a11yLogger.flush host w).2 <> Rejected err
  /\ forall r, (flushLogs_resume r w).2 <> Rejected err.
Proof.
  split; [|split].
  - rewrite promise_flushLogs. destruct (queue w); [done|].
    by destruct (Required.lokiEnabled _).
  - rewrite flush_eq, promise_flushLogs. destruct (queue _); [done|].
    by destruct (Required.lokiEnabled _).
  - intros r. unfold flushLogs_resume. destruct (awaiting w); [done|].
    by destruct r.
Qed.

Lemma config_cancel w : config (cancel w) = config w.
Proof. unfold cancel. by destruct (flushTimer w). Qed.

Lemma outputs_cancel w : outputs (cancel w) = outputs w.
Proof. unfold cancel. by destruct (flushTimer w). Qed.

Lemma batches_cancel w : batches (cancel w) = batches w.
Proof. unfold cancel. by destruct (flushTimer w). Qed.

Lemma awaiting_cancel w : awaiting (cancel w) = awaiting w.
Proof. unfold cancel. by destruct (flushTimer w). Qed.

Lemma scheduleFlush_frame w :
  config (scheduleFlush host w) = config w
  /\ queue (scheduleFlush host w) = queue w
  /\ outputs (scheduleFlush host w) = outputs w
  /\ batches (scheduleFlush host w) = batches w
  /\ awaiting (scheduleFlush host w) = awaiting w.
Proof.
  unfold scheduleFlush. destruct (flushTimer w); [done|].
  simpl. by destruct (timeout_unref host).
Qed.

(** Whatever the threshold, an entry recorded into an empty queue and
    then flushed makes a batch of its own. *)
Lemma flush_after_addLog w x :
  queue w = [] ->
  let w' := (a11yLogger.flush host (addLog host x w)).1 in
  queue w' = []
  /\ batches w' = batches w ++ [[x]]
  /\ outputs w' = outputs w ++ dispatch host (getA11yLoggerConfig w) [x].
Proof.
  intros Q w'. unfold w'. rewrite flush_eq, addLog_eq, Q. simpl app.
  set (p := push (logBuffer w) x w).
  assert (queue p = [x]) as Qp by (unfold p; by rewrite queue_push, Q).
  destruct (PrimFloat.leb _ _).
  - set (f := (flushLogs host (cancel p)).1).
    assert (queue (cancel f) = []) as Qf.
    { unfold f. by rewrite queue_cancel, queue_flushLogs. }
    split; [apply queue_flushLogs|].
    rewrite batches_flushLogs, outputs_flushLogs, Qf, !app_nil_r.
    rewrite batches_cancel, outputs_cancel. unfold f.
    rewrite batches_flushLogs, outputs_flushLogs, queue_cancel, Qp.
    rewrite batches_cancel, outputs_cancel.
    unfold getA11yLoggerConfig. by rewrite config_cancel.
  - destruct (scheduleFlush_frame p) as (Hc & Hq & Ho & Hb & _).
    split; [apply queue_flushLogs|].
    rewrite batches_flushLogs, outputs_flushLogs, queue_cancel, Hq, Qp.
    rewrite batches_cancel, outputs_cancel, Hb, Ho.
    unfold getA11yLoggerConfig. by rewrite config_cancel, Hc.
Qed.

(** C4. In remote mode, for every batch and every error [err] the transport
    fails with: the flush has emptied the queue before it suspends on the
    transport; when the promise of [fetch] is rejected the [catch] clause
    reports [err] to [console.error] and the promise of [flush()] is
    fulfilled, never rejected; the failed batch is not put back (the queue is
    still empty and no batch is added); and an entry recorded afterwards is
    enqueued and flushed as usual, in a batch and a request of its own.  No
    promise of [flushLogs], of [flush()] or of a resumed flush is ever
    rejected, in any world. *)
Theorem transport_failure_absorbed w err :
  Required.lokiEnabled (getA11yLoggerConfig w) = true ->
  queue w <> [] ->
  let w1 := (a11yLogger.flush host w).1 in
  let w2 := (flushLogs_resume (Some err) w1).1 in
  ((a11yLogger.flush host w).2 = Pending
   /\ queue w1 = [] /\ batches w1 = batches w ++ [queue w]
   /\ awaiting w1 = S (awaiting w))
  /\ ((flushLogs_resume (Some err) w1).2 = Fulfilled
      /\ outputs w2 = outputs w1 ++ [failure_report err]
      /\ queue w2 = [] /\ batches w2 = batches w1
      /\ awaiting w2 = awaiting w
      /\ flushTimer w2 = None /\ timers w2 = timers w1)
  /\ (forall x,
        let w3 := (a11yLogger.flush host (addLog host x w2)).1 in
        queue w3 = [] /\ batches w3 = batches w2 ++ [[x]]
        /\ outputs w3 =
             outputs w2
               ++ [fetch_call (push_request host (getA11yLoggerConfig w) [x])])
  /\ (forall w0 e0,
        (flushLogs host w0).2 <> Rejected e0
        /\ (a11yLogger.flush host w0).2 <> Rejected e0
        /\ forall r, (flushLogs_resume r w0).2 <> Rejected e0).
Proof.
  intros L Q w1 w2.
  assert (queue w1 = []) as Q1 by apply queue_flushLogs.
  assert (awaiting w1 = S (awaiting w)) as A1.
  { unfold w1. rewrite flush_eq, awaiting_flushLogs, queue_cancel.
    unfold getA11yLoggerConfig in *. rewrite config_cancel, L, awaiting_cancel.
    by destruct (queue w). }
  assert (flushLogs_resume (Some err) w1
          = (emit (failure_report err) (set_awaiting (awaiting w) w1),
             Fulfilled)) as R by by apply resume_rejected.
  assert (config w2 = config w) as C2.
  { unfold w2. rewrite R. simpl. unfold w1.
    by rewrite flush_eq, config_flushLogs, config_cancel. }
  split; [|split; [|split]].
  - split; [|split; [done|split; [|done]]].
    + rewrite flush_eq, promise_flushLogs, queue_cancel.
      unfold getA11yLoggerConfig in *. rewrite config_cancel, L.
      by destruct (queue w).
    + unfold w1. rewrite flush_eq, batches_flushLogs, queue_cancel.
      rewrite batches_cancel. by destruct (queue w).
  - unfold w2. rewrite R. simpl. repeat split; try done.
    unfold w1. by rewrite flush_eq, flushTimer_flushLogs, flushTimer_cancel.
  - intros x w3.
    assert (queue w2 = []) as Q2 by (unfold w2; by rewrite R).
    destruct (flush_after_addLog w2 x Q2) as (H1 & H2 & H3).
    split; [done|]. split; [done|]. unfold w3. rewrite H3.
    unfold dispatch, getA11yLoggerConfig in *. by rewrite C2, L.
  - intros w0 e0. apply never_rejected.
Qed.

(** C7. For every entry of a remote batch whose timestamp parses to the
    time value [t], the first element of its pair in [values] is what
    [Number::toString] prints for the Number nearest to [t * 1000000].
    For [t] below 10^15 ms in magnitude that is the decimal text of
    [t * 1000000]: the digits of [t] followed by six zeros (["0"] when [t]
    is zero), so the part below the millisecond is zero.  (From 10^15 ms
    on the product reaches 10^21 and is printed in exponent notation.) *)
Theorem nanosecond_timestamp cfg logs i log t :
  logs !! i = Some log ->
  dateGetTime host (timestamp log) = Some t ->
  values_of (streams host cfg logs) !! i
  = Some (JArray [JString (Number_toString (nearest_double (t * 1000000)));
                  JString (JSON_stringify host (line_object log))])
  /\ ((Z.abs t < 10 ^ 15)%Z ->
      Number_toString (nearest_double (t * 1000000))
      = integerToString (t * 1000000)
      /\ (t <> 0%Z ->
          integerToString (t * 1000000)
          = (integerToString t ++ "000000")%string)
      /\ (t = 0%Z -> integerToString (t * 1000000) = "0")).
Proof.
  intros Hi Ht. split.
  - simpl. rewrite list_lookup_fmap, Hi. simpl.
    unfold lokiValue, nanoseconds. by rewrite Ht.
  - intros Hr. split; [by apply Number_toString_million|]. split.
    + apply integerToString_million.
    + by intros ->.
Qed.
End Failure.

(** ** Enqueueing and timers *)

Section Schedule.
Variable host : Host.

Lemma reachable_ok tr : scheduler_ok (run host tr initial).
Proof. apply scheduler_ok_run, scheduler_ok_initial. Qed.

(** What [addLog] leaves when the entry brings a reachable queue to the
    threshold. *)
Lemma addLog_at_threshold tr x :
  let w := run host tr initial in
  let cfg := getA11yLoggerConfig w in
  let w' := addLog host x w in
  PrimFloat.leb (Required.maxBufferSize cfg)
    (number_of_nat (length (queue w) + 1)) = true ->
  queue w' = [] /\ flushTimer w' = None /\ timers w' = []
  /\ batches w' = batches w ++ [queue w ++ [x]]
  /\ outputs w' = outputs w ++ dispatch host cfg (queue w ++ [x]).
Proof.
  intros w cfg w' Hn. destruct (reachable_ok tr) as [Hw Ht].
  fold w in Hw, Ht.
  unfold w'. rewrite addLog_eq, length_app. simpl length. fold cfg.
  rewrite Hn.
  set (p := push (logBuffer w) x w).
  assert (queue p = queue w ++ [x]) as Qp by apply queue_push.
  rewrite queue_flushLogs, flushTimer_flushLogs, timers_flushLogs.
  rewrite batches_flushLogs, outputs_flushLogs, queue_cancel, Qp.
  rewrite flushTimer_cancel, timers_cancel, batches_cancel, outputs_cancel.
  unfold getA11yLoggerConfig. rewrite config_cancel.
  change (timers p) with (timers w). change (flushTimer p) with (flushTimer w).
  rewrite (tidy_cancelled _ _ _ Ht).
  repeat split; by destruct (queue w).
Qed.

(** C2. In every reachable world and for every entry: when the push brings
    the queue length to at least [maxBufferSize], [addLog] cancels the
    pending timer, clears [flushTimer] and flushes at once, which leaves the
    queue empty and the whole queue, the new entry last, in one batch; when
    the push leaves the length strictly below [maxBufferSize], [addLog]
    flushes nothing and a timed flush is scheduled: the timer already
    pending is kept, or else one is armed for [flushInterval]. *)
Theorem enqueue_threshold tr x :
  let w := run host tr initial in
  let cfg := getA11yLoggerConfig w in
  let n := number_of_nat (length (queue w) + 1) in
  let w' := addLog host x w in
  (PrimFloat.leb (Required.maxBufferSize cfg) n = true ->
     queue w' = [] /\ flushTimer w' = None /\ timers w' = []
     /\ batches w' = batches w ++ [queue w ++ [x]]
     /\ outputs w' = outputs w ++ dispatch host cfg (queue w ++ [x]))
  /\ (PrimFloat.ltb n (Required.maxBufferSize cfg) = true ->
        queue w' = queue w ++ [x] /\ batches w' = batches w
        /\ outputs w' = outputs w /\ awaiting w' = awaiting w
        /\ match flushTimer w with
           | Some h => flushTimer w' = Some h /\ timers w' = timers w
           | None =>
               flushTimer w' = Some (nextHandle w)
               /\ timers w' =
                    [armed host (nextHandle w) (Required.flushInterval cfg)]
           end).
Proof.
  intros w cfg n w'. split; intros Hn.
  - apply (addLog_at_threshold tr x Hn).
  - destruct (reachable_ok tr) as [Hw Ht]. fold w in Hw, Ht.
    unfold w'. rewrite addLog_eq, length_app. simpl length. fold cfg n.
    set (p := push (logBuffer w) x w).
    assert (queue p = queue w ++ [x]) as Qp by apply queue_push.
    rewrite (ltb_not_leb _ _ Hn).
    destruct (scheduleFlush_frame host p) as (Hc & Hq & Ho & Hb & Ha).
    rewrite Hq, Ho, Hb, Ha, Qp. repeat split; try done.
    destruct (flushTimer w) as [h|] eqn:E.
    + rewrite scheduleFlush_noop by (unfold p; simpl; rewrite E; eauto).
      unfold p. simpl. by rewrite E.
    + assert (timers p = []) as Tp.
      { change (timers p) with (timers w). destruct Ht as [H _].
        by destruct (timers w). }
      destruct (view_fields _ _ _ _ _ _ _ _ _ _ _
                  (scheduleFlush_armed host p E Tp))
        as (_ & _ & Hf & _ & Hts & _).
      by rewrite Hf, Hts.
Qed.

(** The pending timer fires: the handle is cleared, then the queue is
    flushed. *)
Lemma fire_pending w h :
  scheduler_ok w -> flushTimer w = Some h ->
  fire host h w = (flushLogs host (set_flushTimer None (set_timers [] w))).1.
Proof.
  intros [_ [H _]] E. unfold fire, timer_callback.
  rewrite E in H. simpl in H.
  rewrite decide_True by (rewrite H; apply list_elem_of_singleton; done).
  by rewrite (disarm_only _ _ H).
Qed.

(** After the timer [h] has fired, a recording call arms one timer, or none
    when its entry reaches the threshold. *)
Lemma rearm_after_fire w h c now :
  scheduler_ok w -> flushTimer w = Some h ->
  let cfg := getA11yLoggerConfig w in
  let w2 := perform host c now (fire host h w) in
  if PrimFloat.leb (Required.maxBufferSize cfg) 1
  then flushTimer w2 = None /\ timers w2 = []
  else flushTimer w2 = Some (nextHandle w)
       /\ timers w2 = [armed host (nextHandle w) (Required.flushInterval cfg)].
Proof.
  intros Hok E cfg w2.
  unfold w2. rewrite (fire_pending w h Hok E), perform_eq.
  set (f := (flushLogs host (set_flushTimer None (set_timers [] w))).1).
  destruct (view_ensureShutdownHook host f) as (s & b & Ev).
  destruct (view_fields _ _ _ _ _ _ _ _ _ _ _ Ev)
    as (Hc & Hq & Hf & _ & Hts & Hnh & _).
  set (g := ensureShutdownHook host f) in *.
  assert (queue g = []) as Qg by (rewrite Hq; apply queue_flushLogs).
  assert (flushTimer g = None) as Fg
    by (rewrite Hf; unfold f; by rewrite flushTimer_flushLogs).
  assert (timers g = []) as Tg
    by (rewrite Hts; unfold f; by rewrite timers_flushLogs).
  assert (config g = config w) as Cg
    by (rewrite Hc; unfold f; by rewrite config_flushLogs).
  assert (nextHandle g = nextHandle w) as Ng.
  { rewrite Hnh. unfold f.
    by destruct (view_fields _ _ _ _ _ _ _ _ _ _ _
                   (view_flushLogs host
                      (set_flushTimer None (set_timers [] w))))
      as (_ & _ & _ & _ & _ & Hn' & _). }
  rewrite addLog_eq, Qg. unfold getA11yLoggerConfig. rewrite Cg.
  change (number_of_nat (length ([] ++ [entry_of host c now])))
    with (number_of_nat 1).
  replace (number_of_nat 1) with 1%float by (vm_compute; reflexivity).
  fold (getA11yLoggerConfig w). fold cfg.
  destruct (PrimFloat.leb (Required.maxBufferSize cfg) 1).
  - rewrite flushTimer_flushLogs, timers_flushLogs.
    rewrite flushTimer_cancel, timers_cancel.
    change (flushTimer (push (logBuffer g) (entry_of host c now) g))
      with (flushTimer g).
    change (timers (push (logBuffer g) (entry_of host c now) g))
      with (timers g).
    by rewrite Fg, Tg.
  - set (p := push (logBuffer g) (entry_of host c now) g).
    destruct (view_fields _ _ _ _ _ _ _ _ _ _ _
                (scheduleFlush_armed host p Fg Tg))
      as (_ & _ & Hf' & _ & Hts' & _).
    rewrite Hf', Hts'. unfold p. simpl.
    unfold getA11yLoggerConfig, cfg. by rewrite Ng, Cg.
Qed.

(** A timer armed under the current settings was armed by an entry that,
    alone in the queue, stayed below the threshold. *)
Lemma below_threshold_step w ev :
  scheduler_ok w -> below_threshold w -> keeps_settings ev = true ->
  below_threshold (step host w ev) /\ config (step host w ev) = config w.
Proof.
  intros [Hw Ht] Hb Hev.
  assert (forall w', flushTimer w' = None -> below_threshold w') as Hnone
    by (intros w' E [h Eh]; congruence).
  assert (forall w0,
            below_threshold (a11yLogger.flush host w0).1
            /\ config (a11yLogger.flush host w0).1 = config w0) as Hflush.
  { intros w0. rewrite flush_eq. split.
    - apply Hnone. by rewrite flushTimer_flushLogs, flushTimer_cancel.
    - by rewrite config_flushLogs, config_cancel. }
  destruct ev as [c now| |h|r|c| | | |]; try discriminate; cbn [step].
  - rewrite perform_eq.
    destruct (view_ensureShutdownHook host w) as (s & b & Ev).
    destruct (view_fields _ _ _ _ _ _ _ _ _ _ _ Ev)
      as (Hc & Hq & Hf & _ & Hts & _).
    set (g := ensureShutdownHook host w) in *.
    rewrite addLog_eq. unfold getA11yLoggerConfig. rewrite Hc.
    destruct (PrimFloat.leb _ _) eqn:Hleb.
    + split.
      * apply Hnone. by rewrite flushTimer_flushLogs, flushTimer_cancel.
      * by rewrite config_flushLogs, config_cancel.
    + destruct (scheduleFlush_frame host (push (logBuffer g)
                                            (entry_of host c now) g))
        as (Hc' & _).
      split; [|by rewrite Hc'].
      intros _. unfold getA11yLoggerConfig. rewrite Hc'.
      change (config (push (logBuffer g) (entry_of host c now) g))
        with (config g). rewrite Hc.
      destruct (flushTimer w) as [h|] eqn:E; [apply Hb; eauto|].
      assert (queue w = []) as Q.
      { destruct Ht as [_ [_ Hn]]. destruct (queue w); [done|].
        destruct Hn as [h Eh]; [done|congruence]. }
      rewrite Hq, Q in Hleb.
      change (number_of_nat (length ([] ++ [entry_of host c now])))
        with (number_of_nat 1) in Hleb.
      replace (number_of_nat 1) with 1%float in Hleb
        by (vm_compute; reflexivity).
      exact Hleb.
  - apply Hflush.
  - unfold fire, timer_callback. case_decide; [|done]. split.
    + apply Hnone. by rewrite flushTimer_flushLogs.
    + by rewrite config_flushLogs.
  - unfold flushLogs_resume. destruct (awaiting w); [done|]. by destruct r.
  - destruct (view_fields _ _ _ _ _ _ _ _ _ _ _ (view_reset w))
      as (Hc & _ & Hf & _).
    split; [by apply Hnone|done].
  - done.
  - generalize (beforeExit w). intros n.
    induction n as [|n IH]; simpl; [done|].
    destruct IH as [_ IH]. destruct (Hflush
      (Nat.iter n (fun w0 => (a11yLogger.flush host w0).1) w)) as [H1 H2].
    split; [exact H1|congruence].
Qed.

Lemma below_threshold_run tr w :
  scheduler_ok w -> below_threshold w ->
  forallb keeps_settings tr = true ->
  below_threshold (run host tr w).
Proof.
  revert w. induction tr as [|ev tr IH]; intros w Hw Hb Hk; [done|].
  simpl in Hk. apply andb_true_iff in Hk as [Hev Hk].
  cbn [run fold_left]. fold (run host tr (step host w ev)).
  apply IH; [by apply scheduler_ok_step| |done].
  by apply below_threshold_step.
Qed.

(** C9, as amended. In every reachable world at most one timed flush is
    pending: the armed timers are exactly the one [flushTimer] names;
    [scheduleFlush] does nothing while a handle is stored; a timer that fires
    clears the handle and then flushes; the manual flush and the threshold
    flush cancel the pending timer and clear the handle; a stored handle
    implies a non-empty queue.  A recording call after a timed flush has
    fired arms exactly one timer when its entry leaves the queue below
    [maxBufferSize], and none when the entry reaches the threshold (it is
    flushed at once); it always arms exactly one when the settings have not
    been changed since the queue was last empty, that is since before the
    fired timer was armed. *)
Theorem one_pending_timer tr :
  let w := run host tr initial in
  let cfg := getA11yLoggerConfig w in
  (handle <$> timers w = option_list (flushTimer w)
   /\ length (timers w) <= 1)
  /\ (is_Some (flushTimer w) -> scheduleFlush host w = w)
  /\ (forall h,
        flushTimer w = Some h ->
        fire host h w
        = (flushLogs host (set_flushTimer None (set_timers [] w))).1
        /\ flushTimer (fire host h w) = None
        /\ timers (fire host h w) = [])
  /\ (flushTimer (a11yLogger.flush host w).1 = None
      /\ timers (a11yLogger.flush host w).1 = [])
  /\ (forall x,
        PrimFloat.leb (Required.maxBufferSize cfg)
          (number_of_nat (length (queue w) + 1)) = true ->
        flushTimer (addLog host x w) = None
        /\ timers (addLog host x w) = [])
  /\ (is_Some (flushTimer w) -> queue w <> [])
  /\ (forall h c now,
        flushTimer w = Some h ->
        let w2 := perform host c now (fire host h w) in
        if PrimFloat.leb (Required.maxBufferSize cfg) 1
        then flushTimer w2 = None /\ timers w2 = []
        else flushTimer w2 = Some (nextHandle w)
             /\ timers w2 =
                  [armed host (nextHandle w) (Required.flushInterval cfg)])
  /\ (forall tr' h c now,
        queue w = [] ->
        forallb keeps_settings tr' = true ->
        let w' := run host tr' w in
        flushTimer w' = Some h ->
        let w2 := perform host c now (fire host h w') in
        flushTimer w2 = Some (nextHandle w')
        /\ timers w2 =
             [armed host (nextHandle w')
                (Required.flushInterval (getA11yLoggerConfig w'))]).
Proof.
  intros w cfg. pose proof (reachable_ok tr) as Hok. fold w in Hok.
  destruct Hok as [Hw Ht].
  split; [|split; [|split; [|split; [|split; [|split; [|split]]]]]].
  - destruct Ht as [H _]. split; [done|].
    apply (f_equal length) in H. rewrite length_fmap in H. rewrite H.
    destruct (flushTimer w); simpl; lia.
  - apply scheduleFlush_noop.
  - intros h E. pose proof (fire_pending w h (conj Hw Ht) E) as Hfire.
    split; [done|]. rewrite Hfire.
    by rewrite flushTimer_flushLogs, timers_flushLogs.
  - rewrite flush_eq, flushTimer_flushLogs, timers_flushLogs.
    rewrite flushTimer_cancel, timers_cancel.
    by rewrite (tidy_cancelled _ _ _ Ht).
  - intros x Hn.
    by destruct (addLog_at_threshold tr x Hn) as (_ & ? & ? & _).
  - apply Ht.
  - intros h c now E. by apply rearm_after_fire.
  - intros tr' h c now Q Hk w' E w2.
    assert (scheduler_ok w') as Hok' by (by apply scheduler_ok_run).
    assert (below_threshold w') as Hb.
    { apply below_threshold_run; [done| |done].
      intros [h0 E0]. destruct Ht as [_ [Hn _]].
      destruct Hn; [eauto|done]. }
    pose proof (rearm_after_fire w' h c now Hok' E) as H.
    cbv zeta in H. rewrite Hb in H by eauto. exact H.
Qed.

(** C1. Over every trace of recording calls, manual flushes, timers that
    fire, transports that settle and reconfigurations (no state reset), the
    batches detached so far followed by the current queue are exactly the
    entries enqueued, in order: every entry is in one batch or still queued,
    none in two and none lost.  A flush detaches the whole queue into its
    batch and leaves the queue empty before it suspends on the transport;
    an entry appended below the threshold, whatever is in flight, stays in
    the queue and changes no batch; and while entries are queued a timer is
    pending whose firing detaches them all into the next batch. *)
Theorem one_flush_cycle tr :
  forallb (fun ev => negb (is_reset ev)) tr = true ->
  let w := run host tr initial in
  concat (batches w) ++ queue w = enqueued host tr
  /\ (forall w0,
        queue w0 <> [] ->
        let w1 := (flushLogs host w0).1 in
        batches w1 = batches w0 ++ [queue w0] /\ queue w1 = []
        /\ (Required.lokiEnabled (getA11yLoggerConfig w0) = true ->
            (flushLogs host w0).2 = Pending
            /\ awaiting w1 = S (awaiting w0)))
  /\ (forall w0 x,
        PrimFloat.leb (Required.maxBufferSize (getA11yLoggerConfig w0))
          (number_of_nat (length (queue w0) + 1)) = false ->
        queue (addLog host x w0) = queue w0 ++ [x]
        /\ batches (addLog host x w0) = batches w0)
  /\ (queue w <> [] ->
      exists h,
        flushTimer w = Some h /\ handle <$> timers w = [h]
        /\ batches (fire host h w) = batches w ++ [queue w]
        /\ queue (fire host h w) = []).
Proof.
  intros Hr w. split; [|split; [|split]].
  - pose proof (ledger_run host tr initial) as H.
    unfold ledger at 1 in H. apply H; [by eexists|done].
  - intros w0 Q w1. unfold w1.
    rewrite batches_flushLogs, queue_flushLogs, promise_flushLogs,
      awaiting_flushLogs.
    destruct (queue w0); [done|]. split; [done|]. split; [done|].
    by intros ->.
  - intros w0 x Hn. rewrite addLog_eq, length_app. simpl length.
    rewrite Hn.
    destruct (scheduleFlush_frame host (push (logBuffer w0) x w0))
      as (_ & Hq & _ & Hb & _).
    rewrite Hq, Hb. split; [apply queue_push|done].
  - intros Q. pose proof (reachable_ok tr) as Hok. fold w in Hok.
    destruct Hok as [Hw Ht].
    destruct (proj2 (proj2 Ht) Q) as [h E]. exists h.
    split; [done|]. split; [by rewrite (proj1 Ht), E|].
    rewrite (fire_pending w h (conj Hw Ht) E).
    rewrite batches_flushLogs, queue_flushLogs.
    change (queue (set_flushTimer None (set_timers [] w))) with (queue w).
    split; [|done]. by destruct (queue w).
Qed.
End Schedule.

(** ** Entry shaping *)

Lemma carried_or_number x d : carried truthy_number d x (or_number x d).
Proof.
  destruct x as [n|]; simpl; [|constructor].
  destruct (truthy_number n) eqn:E; by constructor.
Qed.

Lemma carried_or_string x d : carried truthy_string d x (or_string x d).
Proof.
  destruct x as [s|]; simpl; [|constructor].
  destruct (truthy_string s) eqn:E; by constructor.
Qed.

Lemma falsy_number n :
  truthy_number n = false <->
  PrimFloat.eqb n 0 = true \/ PrimFloat.eqb n n = false.
Proof.
  unfold truthy_number.
  destruct (PrimFloat.eqb n 0), (PrimFloat.eqb n n); simpl; intuition congruence.
Qed.

Lemma falsy_string s : truthy_string s = false <-> s = "".
Proof. by destruct s. Qed.

Ltac label_fields :=
  repeat split;
  try reflexivity;
  try (eexists; split; [reflexivity|apply carried_or_string]);
  try (eexists; split; [reflexivity|apply carried_or_number]).

(** C5, as amended. For every recording call of every kind, each label with
    a default takes that default when the caller omits the field or supplies
    a falsy value (the empty string, 0, -0 or NaN), and carries the supplied
    value when it is truthy; the fields of a summary, which have no default,
    are carried as supplied. *)
Theorem labels_defaulting :
  (forall message l now,
     let ls := labels (a11yLogger.contrast_entry message l now) in
     obj_get "type" ls = Some (Str "contrast")
     /\ str_label ls "selector" (ContrastLabels.selector l) "unknown"
     /\ num_label ls "ratio" (ContrastLabels.ratio l) 0
     /\ num_label ls "requiredRatio" (ContrastLabels.requiredRatio l) 4.5
     /\ str_label ls "foreground" (ContrastLabels.foreground l) "unknown"
     /\ str_label ls "background" (ContrastLabels.background l) "unknown"
     /\ str_label ls "wcagLevel" (ContrastLabels.wcagLevel l) "AA"
     /\ str_label ls "tagName" (tagName <$> ContrastLabels.elementInfo l)
          "unknown"
     /\ str_label ls "page" (ContrastLabels.page l) ""
     /\ str_label ls "theme" (ContrastLabels.theme l) "")
  /\ (forall message l now,
        let ls := labels (a11yLogger.wcag_entry message l now) in
        obj_get "type" ls = Some (Str "wcag")
        /\ str_label ls "selector" (WcagLabels.selector l) "unknown"
        /\ str_label ls "rule" (WcagLabels.rule l) "unknown"
        /\ str_label ls "wcagLevel" (WcagLabels.wcagLevel l) "AA"
        /\ str_label ls "severity" (WcagLabels.severity l) "warning")
  /\ (forall message l now,
        let ls := labels (a11yLogger.evaluation_entry message l now) in
        obj_get "type" ls = Some (Str "evaluation")
        /\ num_label ls "resultsCount" (EvaluationLabels.resultsCount l) 0
        /\ num_label ls "issuesCount" (EvaluationLabels.issuesCount l) 0
        /\ num_label ls "criticalCount" (EvaluationLabels.criticalCount l) 0
        /\ num_label ls "evaluationTimeMs"
             (EvaluationLabels.evaluationTimeMs l) 0)
  /\ (forall message l now,
        let ls := labels (a11yLogger.session_entry message l now) in
        obj_get "type" ls = Some (Str "session")
        /\ str_label ls "action" (SessionLabels.action l) "unknown"
        /\ str_label ls "userId" (SessionLabels.userId l) "anonymous"
        /\ str_label ls "userAgent" (SessionLabels.userAgent l) "unknown")
  /\ (forall message l now,
        let ls := labels (a11yLogger.error_entry message l now) in
        obj_get "type" ls = Some (Str "error")
        /\ str_label ls "error" (ErrorLabels.error l) "unknown"
        /\ str_label ls "stack" (ErrorLabels.stack l) "")
  /\ (forall host d now,
        let ls := labels (a11yLogger.summary_entry host d now) in
        obj_get "type" ls = Some (Str "summary")
        /\ obj_get "totalElements" ls = Some (Num (SummaryData.totalElements d))
        /\ obj_get "evaluatedElements" ls
           = Some (Num (SummaryData.evaluatedElements d))
        /\ obj_get "issues" ls = Some (Num (SummaryData.issues d))
        /\ obj_get "criticalIssues" ls
           = Some (Num (SummaryData.criticalIssues d))
        /\ obj_get "evaluationTimeMs" ls
           = Some (Num (SummaryData.evaluationTimeMs d)))
  /\ (forall message l now,
        let ls := labels (a11yLogger.aria_entry message l now) in
        obj_get "type" ls = Some (Str "aria")
        /\ str_label ls "selector" (AriaLabels.selector l) "unknown"
        /\ str_label ls "issue" (AriaLabels.issue l) "unknown"
        /\ str_label ls "tagName" (tagName <$> AriaLabels.elementInfo l)
             "unknown"
        /\ str_label ls "fix" (AriaLabels.fix_ l) ""
        /\ str_label ls "page" (AriaLabels.page l) "")
  /\ (forall n,
        truthy_number n = false <->
        PrimFloat.eqb n 0 = true \/ PrimFloat.eqb n n = false)
  /\ (forall s, truthy_string s = false <-> s = "").
Proof.
  split; [|split; [|split; [|split; [|split; [|split; [|split; [|split]]]]]]].
  1-7: intros; unfold str_label, num_label; label_fields.
  - apply falsy_number.
  - apply falsy_string.
Qed.

(** C5, counterexample: a contrast call with [requiredRatio = 0] gets the
    label [requiredRatio = 4.5], not 0. *)
Lemma supplied_zero_is_replaced :
  obj_get "requiredRatio"
    (labels (a11yLogger.contrast_entry "low contrast" required_zero "t"))
  = Some (Num 4.5)
  /\ obj_get "requiredRatio"
       (labels (a11yLogger.contrast_entry "low contrast" required_zero "t"))
     <> Some (Num 0).
Proof.
  split; [reflexivity|]. intros H.
  assert (forall o, o = Some (Num 0) ->
            match o with
            | Some (Num n) => PrimFloat.eqb n 0
            | _ => false
            end = true) as K by (by intros o ->).
  apply K in H. vm_compute in H. discriminate.
Qed.

(** C6. The level of a contrast entry is [error] exactly when the ratio is
    supplied and strictly below 3, and [warn] otherwise: when it is
    undefined, equal to 3, or at least 3.  A negative ratio gives [error]. *)
Theorem contrast_level message l now :
  let e := a11yLogger.contrast_entry message l now in
  (level e = Error <->
   exists r, ContrastLabels.ratio l = Some r /\ PrimFloat.ltb r 3 = true)
  /\ (level e = Warn <->
      ~ exists r, ContrastLabels.ratio l = Some r /\ PrimFloat.ltb r 3 = true)
  /\ (ContrastLabels.ratio l = None -> level e = Warn)
  /\ (forall r,
        ContrastLabels.ratio l = Some r -> PrimFloat.eqb r 3 = true ->
        level e = Warn)
  /\ (forall r,
        ContrastLabels.ratio l = Some r -> PrimFloat.leb 3 r = true ->
        level e = Warn)
  /\ (forall r,
        ContrastLabels.ratio l = Some r -> PrimFloat.ltb r 0 = true ->
        level e = Error)
  /\ forall host w,
       a11yLogger.contrast host message l now w
       = addLog host e (ensureShutdownHook host w).
Proof.
  intros e. unfold e. simpl.
  split; [|split; [|split; [|split; [|split; [|split]]]]].
  - destruct (ContrastLabels.ratio l) as [r|].
    + destruct (PrimFloat.ltb r 3) eqn:E; split; try done; eauto.
      intros (r' & [= <-] & H). congruence.
    + split; [done|]. by intros (r & ? & _).
  - destruct (ContrastLabels.ratio l) as [r|].
    + destruct (PrimFloat.ltb r 3) eqn:E; split; try done.
      * intros H. destruct H. eauto.
      * intros _ (r' & [= <-] & H). congruence.
    + split; [|done]. by intros _ (r & ? & _).
  - by intros ->.
  - intros r -> H. by rewrite (eqb_not_ltb _ _ H).
  - intros r -> H. by rewrite (leb_not_ltb _ _ H).
  - intros r -> H. by rewrite (negative_below_three _ H).
  - reflexivity.
Qed.

(** ** A copy of the queue *)

Section Copy.
Variable host : Host.

Lemma held_grows l w w' : held l w -> extends w w' -> held l w'.
Proof.
  intros [Hl Hn] [Hd Hb]. split; [auto|].
  destruct Hb as [->|N]; [done|].
  intros E. rewrite E in N. destruct Hl as [ys Hl]. congruence.
Qed.

Lemma sim_mutate l m a b : held l a -> sim a b -> sim (mutate l m a) b.
Proof.
  intros [Hl Hn] (H & Ha & Hb). split; [|split; [|done]].
  - rewrite <- H. unfold view, mutate, queue, elements. simpl.
    by rewrite lookup_insert_ne.
  - unfold wf, mutate. simpl. by apply insert_is_Some.
Qed.

Lemma held_mutate l m w : held l w -> held l (mutate l m w).
Proof.
  intros [Hl Hn]. split; [|done]. unfold mutate. simpl.
  rewrite lookup_insert_eq. eauto.
Qed.

Lemma sim_acts l acts a b :
  held l a -> sim a b ->
  view (fold_left (act host l) acts a) = view (run host (events_of acts) b).
Proof.
  revert a b. induction acts as [|[ev|m] acts IH]; intros a b Hl Hs.
  - apply Hs.
  - simpl. apply IH.
    + eapply held_grows; [exact Hl|]. apply grows_step, Hs.
    + by apply step_sim.
  - simpl. apply IH; [by apply held_mutate|by apply sim_mutate].
Qed.

(** C10. [_getLogBuffer] returns a new array holding the elements of the
    queue.  Whatever the caller then does to that array (push, pop, shift,
    assignment to an index, splice), interleaved with any events of the
    loop, the queue, the timer handle, the batches flushed and everything
    else that can be observed are what the same events alone would give. *)
Theorem getLogBuffer_fresh_copy w :
  wf w ->
  let l := (_getLogBuffer w).1 in
  let w1 := (_getLogBuffer w).2 in
  elements l w1 = queue w
  /\ l <> logBuffer w1
  /\ view w1 = view w
  /\ forall acts,
       view (fold_left (act host l) acts w1)
       = view (run host (events_of acts) w).
Proof.
  intros Hw l w1.
  assert (held l w1) as Hl.
  { split.
    - unfold l, w1, _getLogBuffer, alloc. simpl. rewrite lookup_insert_eq. eauto.
    - unfold l, w1, _getLogBuffer, alloc. simpl. intros E.
      destruct Hw as [ys Hw]. rewrite E, fresh_None in Hw. done. }
  assert (sim w1 w) as Hs.
  { split; [by apply view_getLogBuffer|]. split; [|done].
    by apply grows_alloc. }
  split; [apply elements_insert|]. split; [by destruct Hl|].
  split; [apply Hs|]. intros acts. by apply sim_acts.
Qed.
End Copy.

(** ** Examples *)

(** C9, counterexample: the timer armed by a first call fires after
    [maxBufferSize] was set to 1; the next recording call reaches the
    threshold, is flushed at once, and arms no timer. *)
Lemma no_timer_after_timed_flush :
  let w := run plain_host [first_call; Configure (threshold_settings 1)]
             initial in
  let w1 := step plain_host w (TimerFires 1) in
  let w2 := step plain_host w1 second_call in
  flushTimer w = Some 1
  /\ (queue w1 = [] /\ batches w1 = [[first_entry]] /\ timers w1 = [])
  /\ (timers w2 = [] /\ flushTimer w2 = None
      /\ batches w2 = [[first_entry]; [second_entry]])
  /\ length (timers w2) <> 1.
Proof.
  intros w w1 w2.
  assert (timers w2 = []) as T by (vm_compute; reflexivity).
  split; [vm_compute; reflexivity|].
  split; [repeat split; vm_compute; reflexivity|].
  split; [repeat split; vm_compute; reflexivity|].
  rewrite T. simpl. lia.
Qed.

Lemma one_flush_cycle_witness :
  forallb (fun ev => negb (is_reset ev)) interleaved = true
  /\ concat (batches (run plain_host interleaved initial))
       ++ queue (run plain_host interleaved initial)
     = [first_entry; second_entry; first_entry; second_entry].
Proof.
  split; [reflexivity|].
  rewrite (proj1 (one_flush_cycle plain_host interleaved eq_refl)).
  vm_compute. reflexivity.
Defined.

Lemma enqueue_threshold_witness :
  let tr := [Configure (threshold_settings 2); first_call] in
  let w := run plain_host tr initial in
  queue (addLog plain_host second_entry w) = []
  /\ timers (addLog plain_host second_entry w) = []
  /\ batches (addLog plain_host second_entry w)
     = [[first_entry; second_entry]].
Proof.
  intros tr w. unfold w.
  destruct (enqueue_threshold plain_host tr second_entry) as [H _].
  destruct H as (Hq & _ & Ht & Hb & _); [vm_compute; reflexivity|].
  split; [exact Hq|]. split; [exact Ht|]. rewrite Hb.
  vm_compute. reflexivity.
Defined.

Lemma one_pending_timer_witness :
  let w := run plain_host [first_call; second_call] initial in
  length (timers w) <= 1
  /\ flushTimer w = Some 1
  /\ timers (perform plain_host (Wcag "again" WcagLabels.empty) "t"
               (fire plain_host 1 w))
     = [armed plain_host 2 1000].
Proof.
  intros w. unfold w.
  destruct (one_pending_timer plain_host [first_call; second_call])
    as ((_ & H1) & _).
  destruct (one_pending_timer plain_host [])
    as (_ & _ & _ & _ & _ & _ & _ & H2).
  split; [exact H1|]. split; [vm_compute; reflexivity|].
  specialize (H2 [first_call; second_call] 1
                (Wcag "again" WcagLabels.empty) "t").
  destruct H2 as [_ H2];
    [vm_compute; reflexivity|reflexivity|vm_compute; reflexivity|].
  exact H2.
Defined.

Lemma remote_flush_payload_witness :
  Required.lokiEnabled (getA11yLoggerConfig remote_world) = true
  /\ queue remote_world <> []
  /\ length (fetches (outputs (flushLogs plain_host remote_world).1)) = 1.
Proof.
  assert (Required.lokiEnabled (getA11yLoggerConfig remote_world) = true)
    as L by (vm_compute; reflexivity).
  assert (queue remote_world <> []) as Q by (vm_compute; discriminate).
  split; [exact L|]. split; [exact Q|].
  destruct (remote_flush_payload plain_host remote_world L Q)
    as (_ & _ & -> & _).
  vm_compute. reflexivity.
Defined.

Lemma transport_failure_absorbed_witness :
  Required.lokiEnabled (getA11yLoggerConfig remote_world) = true
  /\ queue remote_world <> []
  /\ (a11yLogger.flush plain_host remote_world).2 = Pending
  /\ (flushLogs_resume (Some "ECONNREFUSED")
        (a11yLogger.flush plain_host remote_world).1).2 = Fulfilled.
Proof.
  assert (Required.lokiEnabled (getA11yLoggerConfig remote_world) = true)
    as L by (vm_compute; reflexivity).
  assert (queue remote_world <> []) as Q by (vm_compute; discriminate).
  split; [exact L|]. split; [exact Q|].
  destruct (transport_failure_absorbed plain_host remote_world
              "ECONNREFUSED" L Q) as ((H1 & _) & (H2 & _) & _).
  split; [exact H1|exact H2].
Defined.

Lemma contrast_level_witness :
  level (a11yLogger.contrast_entry "m" (ratio_of 3) "t") = Warn
  /\ level (a11yLogger.contrast_entry "m" (ratio_of (-1)) "t") = Error
  /\ level (a11yLogger.contrast_entry "m" (ratio_of 21) "t") = Warn.
Proof.
  split; [|split].
  - destruct (contrast_level "m" (ratio_of 3) "t") as (_ & _ & _ & H & _).
    apply (H 3%float); reflexivity.
  - destruct (contrast_level "m" (ratio_of (-1)) "t")
      as (_ & _ & _ & _ & _ & H & _).
    apply (H (-1)%float); reflexivity.
  - destruct (contrast_level "m" (ratio_of 21) "t")
      as (_ & _ & _ & _ & H & _).
    apply (H 21%float); reflexivity.
Defined.

(** The second of two entries recorded at 22:13:20.456 on 14 November
    2023. *)
Lemma nanosecond_timestamp_witness :
  dateGetTime iso_host (timestamp second_entry) = Some 1700000000456%Z
  /\ exists line,
       values_of (streams iso_host DEFAULTS [first_entry; second_entry]) !! 1
       = Some (JArray [JString "1700000000456000000"; JString line]).
Proof.
  assert (dateGetTime iso_host (timestamp second_entry)
          = Some 1700000000456%Z) as Ht by (vm_compute; reflexivity).
  split; [exact Ht|].
  destruct (nanosecond_timestamp iso_host DEFAULTS
              [first_entry; second_entry] 1 second_entry 1700000000456%Z
              eq_refl Ht) as (H & Hr).
  destruct Hr as (E & _); [vm_compute; reflexivity|].
  eexists. rewrite H, E. vm_compute. reflexivity.
Defined.

(** C7, as claimed for every entry, fails for an entry recorded when the
    clock reads 10^15 ms (the year 33658): the product with 1000000 is
    10^21, which [Number::toString] prints as [1e+21], not as the decimal
    text of the product. *)
Example timestamp_in_exponent_notation :
  let now := "+033658-09-27T01:46:40.000Z" in
  let log := entry_of iso_host (Wcag "Missing alt text" WcagLabels.empty) now in
  dateGetTime iso_host (timestamp log) = Some (10 ^ 15)%Z
  /\ nanoseconds iso_host (timestamp log) = "1e+21"
  /\ (exists line,
        values_of (streams iso_host DEFAULTS [log]) !! 0
        = Some (JArray [JString "1e+21"; JString line]))
  /\ integerToString (10 ^ 15 * 1000000) = "1000000000000000000000"
  /\ "1e+21" <> integerToString (10 ^ 15 * 1000000).
Proof.
  cbv zeta. split; [vm_compute; reflexivity|].
  split; [vm_compute; reflexivity|]. split.
  - eexists. vm_compute. reflexivity.
  - split; [vm_compute; reflexivity|]. vm_compute. discriminate.
Qed.

Lemma local_flush_echo_witness :
  Required.lokiEnabled (getA11yLoggerConfig development_world) = false
  /\ outputs (flushLogs plain_host development_world).1
     = [console_log "[A11y ERROR] Low contrast on heading"
          (labels first_entry);
        console_log "[A11y WARN] Missing alt text" (labels second_entry)].
Proof.
  assert (Required.lokiEnabled (getA11yLoggerConfig development_world) = false)
    as L by (vm_compute; reflexivity).
  split; [exact L|].
  destruct (local_flush_echo plain_host development_world L) as (-> & _).
  vm_compute. reflexivity.
Defined.

Lemma getLogBuffer_fresh_copy_witness :
  wf remote_world
  /\ view (fold_left
             (act plain_host (_getLogBuffer remote_world).1)
             [Mut MPop; Mut (MPush first_entry); Ev Flush;
              Mut (MSet 0 second_entry)]
             (_getLogBuffer remote_world).2)
     = view (run plain_host [Flush] remote_world).
Proof.
  assert (wf remote_world) as W by (vm_compute; eauto).
  split; [exact W|].
  destruct (getLogBuffer_fresh_copy plain_host remote_world W)
    as (_ & _ & _ & H).
  exact (H [Mut MPop; Mut (MPush first_entry); Ev Flush;
            Mut (MSet 0 second_entry)]).
Defined.

(** * Further properties of the code *)

(** ** Settings *)

Lemma nullish_spread {T : Type} (a b : OptProp T) (d : T) :
  nullish (spread a b) d = configured (nullish a d) d b.
Proof. by destruct b. Qed.

Lemma spread_assoc {T : Type} (a b c : OptProp T) :
  spread (spread a b) c = spread a (spread b c).
Proof. by destruct c. Qed.

Lemma spread_absent {T : Type} (a : OptProp T) : spread Absent a = a.
Proof. by destruct a. Qed.

Lemma merge_assoc (a b c : A11yLoggerConfig.t) :
  A11yLoggerConfig.merge (A11yLoggerConfig.merge a b) c
  = A11yLoggerConfig.merge a (A11yLoggerConfig.merge b c).
Proof.
  unfold A11yLoggerConfig.merge. simpl. by rewrite !spread_assoc.
Qed.

Lemma merge_empty_l (c : A11yLoggerConfig.t) :
  A11yLoggerConfig.merge A11yLoggerConfig.empty c = c.
Proof.
  destruct c. unfold A11yLoggerConfig.merge. simpl.
  by rewrite !spread_absent.
Qed.

Lemma merge_empty_r (c : A11yLoggerConfig.t) :
  A11yLoggerConfig.merge c A11yLoggerConfig.empty = c.
Proof. by destruct c. Qed.

(** X1. After [configureA11yLogger(c)], every setting [getA11yLoggerConfig]
    returns is the value [c] gives it when [c] has one, its default when
    [c] holds the key with [undefined], and what it was before when [c]
    does not have the key. *)
Theorem configure_then_get (c : A11yLoggerConfig.t) (w : World) :
  let old := getA11yLoggerConfig w in
  getA11yLoggerConfig (configureA11yLogger c w) =
    {| Required.lokiUrl :=
         configured (Required.lokiUrl old) "http://localhost:3100"
           (A11yLoggerConfig.lokiUrl c);
       Required.lokiEnabled :=
         configured (Required.lokiEnabled old) false
           (A11yLoggerConfig.lokiEnabled c);
       Required.isDevelopment :=
         configured (Required.isDevelopment old) false
           (A11yLoggerConfig.isDevelopment c);
       Required.flushInterval :=
         configured (Required.flushInterval old) 1000%float
           (A11yLoggerConfig.flushInterval c);
       Required.maxBufferSize :=
         configured (Required.maxBufferSize old) 100%float
           (A11yLoggerConfig.maxBufferSize c);
       Required.jobLabel :=
         configured (Required.jobLabel old) "accessibility"
           (A11yLoggerConfig.jobLabel c);
       Required.containerLabel :=
         configured (Required.containerLabel old) "stonewall-sveltekit"
           (A11yLoggerConfig.containerLabel c);
       Required.environment :=
         configured (Required.environment old) "development"
           (A11yLoggerConfig.environment c);
       Required.serviceLabel :=
         configured (Required.serviceLabel old) "a11y-monitoring"
           (A11yLoggerConfig.serviceLabel c);
       Required.registerShutdownHook :=
         configured (Required.registerShutdownHook old) true
           (A11yLoggerConfig.registerShutdownHook c) |}.
Proof.
  unfold getA11yLoggerConfig, configureA11yLogger, resolve. simpl.
  by rewrite !nullish_spread.
Qed.

(** X2. Calls of [configureA11yLogger] compose by spreading their
    arguments: configuring with [c1] and then with [c2] leaves the stored
    settings configuring once with [{...c1, ...c2}] leaves; configuring
    with [{}] changes nothing; and after [resetA11yLoggerConfig],
    whatever was configured before, [getA11yLoggerConfig] returns the
    defaults, and configuring with [c] stores [c] itself. *)
Theorem configure_composes (c1 c2 : A11yLoggerConfig.t) (w : World) :
  configureA11yLogger c2 (configureA11yLogger c1 w)
  = configureA11yLogger (A11yLoggerConfig.merge c1 c2) w
  /\ configureA11yLogger A11yLoggerConfig.empty w = w
  /\ getA11yLoggerConfig (resetA11yLoggerConfig (configureA11yLogger c1 w))
     = DEFAULTS
  /\ config (configureA11yLogger c2
               (resetA11yLoggerConfig (configureA11yLogger c1 w))) = c2.
Proof.
  repeat split.
  - unfold configureA11yLogger, set_config. simpl. by rewrite merge_assoc.
  - unfold configureA11yLogger. rewrite merge_empty_r. by destruct w.
  - unfold configureA11yLogger, resetA11yLoggerConfig. simpl.
    apply merge_empty_l.
Qed.

(** ** The shutdown hook and manual flushes *)

Section Shutdown.
Variable host : Host.

Lemma hook_view a b : view a = view b -> hook a = hook b.
Proof.
  intros H. apply view_inv in H.
  destruct H as (_ & _ & _ & Hs & _ & _ & Hb & _). unfold hook. congruence.
Qed.

Lemma hook_flushLogs w : hook (flushLogs host w).1 = hook w.
Proof.
  destruct (view_fields _ _ _ _ _ _ _ _ _ _ _ (view_flushLogs host w))
    as (_ & _ & _ & Hs & _ & _ & Hb & _).
  unfold hook. congruence.
Qed.

Lemma hook_cancel w : hook (cancel w) = hook w.
Proof. unfold cancel. by destruct (flushTimer w). Qed.

Lemma hook_scheduleFlush w : hook (scheduleFlush host w) = hook w.
Proof.
  unfold scheduleFlush. destruct (flushTimer w); [done|].
  simpl. by destruct (timeout_unref host).
Qed.

Lemma hook_addLog x w : hook (addLog host x w) = hook w.
Proof.
  rewrite addLog_eq. destruct (PrimFloat.leb _ _).
  - by rewrite hook_flushLogs, hook_cancel.
  - by rewrite hook_scheduleFlush.
Qed.

Lemma hook_flush w : hook (a11yLogger.flush host w).1 = hook w.
Proof. by rewrite flush_eq, hook_flushLogs, hook_cancel. Qed.

(** A second manual flush finds nothing to do. *)
Lemma flush_flush w :
  a11yLogger.flush host (a11yLogger.flush host w).1
  = ((a11yLogger.flush host w).1, Fulfilled).
Proof.
  rewrite (flush_eq host (a11yLogger.flush host w).1).
  assert (flushTimer (a11yLogger.flush host w).1 = None) as E
    by (by rewrite flush_eq, flushTimer_flushLogs, flushTimer_cancel).
  assert (queue (a11yLogger.flush host w).1 = []) as Q
    by (rewrite flush_eq; apply queue_flushLogs).
  unfold cancel at 1. rewrite E. by apply flushLogs_empty.
Qed.

Lemma iter_flush n w :
  Nat.iter (S n) (fun w => (a11yLogger.flush host w).1) w
  = (a11yLogger.flush host w).1.
Proof.
  induction n as [|n IH]; [done|].
  change (Nat.iter (S (S n)) (fun w => (a11yLogger.flush host w).1) w)
    with ((a11yLogger.flush host
             (Nat.iter (S n) (fun w => (a11yLogger.flush host w).1) w)).1).
  by rewrite IH, flush_flush.
Qed.

Lemma step_beforeExit w :
  step host w BeforeExit
  = match beforeExit w with
    | O => w
    | S _ => (a11yLogger.flush host w).1
    end.
Proof.
  cbn [step]. destruct (beforeExit w) as [|n]; [done|]. apply iter_flush.
Qed.

Lemma hook_ensureShutdownHook w :
  hook (ensureShutdownHook host w) =
    if shutdownHookRegistered w then hook w
    else if Required.registerShutdownHook (getA11yLoggerConfig w)
              && process_on host
         then (true, S (beforeExit w))
         else hook w.
Proof.
  unfold ensureShutdownHook.
  destruct (shutdownHookRegistered w) eqn:E; [done|].
  destruct (Required.registerShutdownHook _); simpl; [|done].
  by destruct (process_on host).
Qed.

(** How one event changes the registration. *)
Lemma hook_step w ev :
  hook (step host w ev) =
    match ev with
    | Call _ _ => hook (ensureShutdownHook host w)
    | ResetInternalState => (false, beforeExit w)
    | _ => hook w
    end.
Proof.
  destruct ev as [c now| |h|r|c| | | |].
  - cbn [step]. by rewrite perform_eq, hook_addLog.
  - apply hook_flush.
  - cbn [step]. unfold fire, timer_callback. case_decide; [|done].
    by rewrite hook_flushLogs.
  - cbn [step]. unfold flushLogs_resume.
    destruct (awaiting w); [done|]. by destruct r.
  - done.
  - done.
  - cbn [step]. destruct (view_fields _ _ _ _ _ _ _ _ _ _ _ (view_reset w))
      as (_ & _ & _ & Hs & _ & _ & Hb & _).
    unfold hook. congruence.
  - done.
  - rewrite step_beforeExit. destruct (beforeExit w) eqn:E; [done|].
    apply hook_flush.
Qed.

Lemma resets_cons ev tr :
  resets (ev :: tr) = (if is_reset ev then 1 else 0) + resets tr.
Proof.
  unfold resets. destruct (is_reset ev) eqn:E.
  - by rewrite filter_cons_True.
  - rewrite filter_cons_False; [done|]. by rewrite E.
Qed.

Lemma hook_bounds tr w n :
  (if shutdownHookRegistered w then 1 else 0) <= beforeExit w
  <= (if shutdownHookRegistered w then 1 else 0) + n ->
  let w' := run host tr w in
  (if shutdownHookRegistered w' then 1 else 0) <= beforeExit w'
  <= (if shutdownHookRegistered w' then 1 else 0) + (n + resets tr).
Proof.
  revert w n. induction tr as [|ev tr IH]; intros w n H.
  - simpl. unfold resets. simpl. lia.
  - cbn [run fold_left]. fold (run host tr (step host w ev)).
    rewrite resets_cons.
    replace (n + ((if is_reset ev then 1 else 0) + resets tr))
      with ((n + (if is_reset ev then 1 else 0)) + resets tr) by lia.
    apply IH. pose proof (hook_step w ev) as Hs.
    assert (hook (step host w ev) = hook w /\ is_reset ev = false
            \/ hook (step host w ev) = (false, beforeExit w)
               /\ is_reset ev = true
            \/ shutdownHookRegistered w = false
               /\ hook (step host w ev) = (true, S (beforeExit w))
               /\ is_reset ev = false) as D.
    { destruct ev; try (left; done); [|right; left; done].
      rewrite Hs, hook_ensureShutdownHook.
      destruct (shutdownHookRegistered w) eqn:E; [by left|].
      destruct (_ && _); [|by left]. right; right. done. }
    unfold hook in D.
    destruct D as [[D E]|[[D E]|(E & D & E')]]; injection D as -> ->.
    + rewrite E. revert H. destruct (shutdownHookRegistered w); lia.
    + rewrite E. revert H. destruct (shutdownHookRegistered w); lia.
    + rewrite E in H. rewrite E'. lia.
Qed.

Lemma hook_without_process tr w :
  process_on host = false ->
  hook (run host tr w) = hook w
  \/ resets tr <> 0 /\ hook (run host tr w) = (false, beforeExit w).
Proof.
  intros Hp. revert w. induction tr as [|ev tr IH]; intros w; [by left|].
  cbn [run fold_left]. fold (run host tr (step host w ev)).
  rewrite resets_cons.
  assert (hook (step host w ev) = hook w /\ is_reset ev = false
          \/ hook (step host w ev) = (false, beforeExit w)
             /\ is_reset ev = true) as D.
  { rewrite hook_step. destruct ev; try (left; done); [|by right].
    rewrite hook_ensureShutdownHook, Hp, andb_false_r.
    left. by destruct (shutdownHookRegistered w). }
  destruct (IH (step host w ev)) as [H|[N H]];
    destruct D as [[D E]|[D E]]; rewrite E.
  - left. congruence.
  - right. split; [lia|]. congruence.
  - right. split; [done|]. rewrite H. unfold hook in D. congruence.
  - right. split; [lia|]. rewrite H. unfold hook in D. congruence.
Qed.

(** X3. The shutdown hook is registered at most once between two state
    resets.  Over every trace from the initial state, the process holds at
    least one [beforeExit] listener when the flag is set, and never more
    listeners than the number of state resets, plus one when the flag is
    set; with no state reset there is one listener exactly when the flag
    is set, and none otherwise.  Where [process.on] is not available no
    listener is ever registered and the flag is never set. *)
Theorem shutdown_hook_once (tr : list Event) :
  let w := run host tr initial in
  let flag := if shutdownHookRegistered w then 1 else 0 in
  flag <= beforeExit w <= flag + resets tr
  /\ (resets tr = 0 -> beforeExit w = flag)
  /\ (process_on host = false ->
      beforeExit w = 0 /\ shutdownHookRegistered w = false).
Proof.
  intros w flag.
  assert (flag <= beforeExit w <= flag + resets tr) as H.
  { apply (hook_bounds tr initial 0). simpl. lia. }
  split; [done|]. split; [lia|].
  intros Hp. destruct (hook_without_process tr initial Hp) as [E|[_ E]];
    fold w in E; unfold hook in E; by injection E as -> ->.
Qed.

(** X4. [_resetInternalState] forgets the registration and leaves the
    listener with the process: when the hook is enabled and [process.on]
    is available, the first recording call after a state reset registers
    a further [beforeExit] listener and sets the flag again. *)
Theorem reset_registers_again (c : Recording) (now : string) (w : World) :
  Required.registerShutdownHook (getA11yLoggerConfig w) = true ->
  process_on host = true ->
  let w' := perform host c now (_resetInternalState w) in
  beforeExit w' = S (beforeExit w) /\ shutdownHookRegistered w' = true.
Proof.
  intros Hr Hp w'. pose proof (hook_step (_resetInternalState w) (Call c now))
    as H. cbn [step] in H. fold w' in H.
  rewrite hook_ensureShutdownHook in H.
  destruct (view_fields _ _ _ _ _ _ _ _ _ _ _ (view_reset w))
    as (Hc & _ & _ & Hs & _ & _ & Hb & _).
  unfold getA11yLoggerConfig in H, Hr. rewrite Hs, Hc, Hr, Hp, Hb in H.
  unfold hook in H. simpl in H. by injection H as -> ->.
Qed.

(** X5. When the process is about to exit and a listener is registered,
    the pending timer is cancelled and the queue is flushed as by one
    manual flush, however many listeners there are: the queue is left
    empty, no timer handle stays stored, and the entries that were queued
    form the last batch.  With no listener the event changes nothing. *)
Theorem exit_flushes_queue (w : World) :
  (beforeExit w = 0 -> step host w BeforeExit = w)
  /\ (beforeExit w <> 0 ->
      let w' := step host w BeforeExit in
      w' = (a11yLogger.flush host w).1
      /\ queue w' = [] /\ flushTimer w' = None
      /\ batches w' = batches w ++ match queue w with [] => [] | q => [q] end
      /\ outputs w' =
           outputs w ++
             match queue w with
             | [] => []
             | q => dispatch host (getA11yLoggerConfig w) q
             end).
Proof.
  rewrite step_beforeExit. split; [by intros ->|].
  intros N. destruct (beforeExit w); [done|]. cbv zeta.
  rewrite flush_eq, queue_flushLogs, flushTimer_flushLogs, flushTimer_cancel,
    batches_flushLogs, outputs_flushLogs, queue_cancel, batches_cancel,
    outputs_cancel.
  unfold getA11yLoggerConfig. by rewrite config_cancel.
Qed.

(** X6. A manual flush leaves nothing for the next one: flushing again at
    once changes nothing and resolves at once.  In every state reachable
    from the initial one, a manual flush of an empty queue changes nothing
    at all: no console line, no request, no batch, and the promise is
    fulfilled. *)
Theorem flush_idempotent (tr : list Event) (w0 : World) :
  a11yLogger.flush host (a11yLogger.flush host w0).1
  = ((a11yLogger.flush host w0).1, Fulfilled)
  /\ (let w := run host tr initial in
      queue w = [] -> a11yLogger.flush host w = (w, Fulfilled)).
Proof.
  split; [apply flush_flush|]. intros w Q.
  destruct (reachable_ok host tr) as [_ [_ Hn]]. fold w in Hn.
  rewrite flush_eq. unfold cancel.
  destruct (flushTimer w) as [h|] eqn:E.
  - destruct (proj1 Hn); [eauto|done].
  - by apply flushLogs_empty.
Qed.

End Shutdown.

(** ** What a trace prints and sends *)

Section Effects.
Variable host : Host.

Lemma flushed_nothing w w' :
  config w' = config w -> batches w' = batches w -> outputs w' = outputs w ->
  awaiting w' = awaiting w -> flushed host w w' [].
Proof.
  intros Hc Hb Ho Ha. unfold flushed. cbn [map concat length].
  rewrite Hc, Hb, Ho, Ha, !app_nil_r. repeat split.
  destruct (Required.lokiEnabled _); lia.
Qed.

Lemma flushed_flushLogs w :
  flushed host w (flushLogs host w).1
    match queue w with [] => [] | q => [q] end.
Proof.
  unfold flushed.
  rewrite config_flushLogs, batches_flushLogs, outputs_flushLogs,
    awaiting_flushLogs.
  destruct (queue w); cbn [map concat length]; rewrite ?app_nil_r;
    repeat split; destruct (Required.lokiEnabled _); lia.
Qed.

Lemma flushed_after w w0 w' nb :
  config w0 = config w -> batches w0 = batches w -> outputs w0 = outputs w ->
  awaiting w0 = awaiting w -> flushed host w0 w' nb -> flushed host w w' nb.
Proof.
  unfold flushed, getA11yLoggerConfig. by intros -> -> -> ->.
Qed.

Lemma flushed_flush w :
  flushed host w (a11yLogger.flush host w).1
    match queue w with [] => [] | q => [q] end.
Proof.
  rewrite flush_eq, <- (queue_cancel w).
  apply (flushed_after w (cancel w));
    [apply config_cancel|apply batches_cancel|apply outputs_cancel
    |apply awaiting_cancel|apply flushed_flushLogs].
Qed.

Lemma flushed_addLog x w : exists nb, flushed host w (addLog host x w) nb.
Proof.
  rewrite addLog_eq. set (p := push (logBuffer w) x w).
  destruct (PrimFloat.leb _ _).
  - eexists. apply (flushed_after w (cancel p));
      [by rewrite config_cancel|by rewrite batches_cancel
      |by rewrite outputs_cancel|by rewrite awaiting_cancel
      |apply flushed_flushLogs].
  - exists []. destruct (scheduleFlush_frame host p) as (Hc & _ & Ho & Hb & Ha).
    by apply flushed_nothing.
Qed.

Lemma flushed_perform c now w :
  exists nb, flushed host w (perform host c now w) nb.
Proof.
  rewrite perform_eq.
  destruct (view_ensureShutdownHook host w) as (s & b & Ev).
  destruct (view_fields _ _ _ _ _ _ _ _ _ _ _ Ev)
    as (Hc & _ & _ & _ & _ & _ & _ & Ha & Ho & Hb).
  destruct (flushed_addLog (entry_of host c now) (ensureShutdownHook host w))
    as [nb H].
  exists nb. by apply (flushed_after w (ensureShutdownHook host w)).
Qed.

Lemma flushed_fire h w : exists nb, flushed host w (fire host h w) nb.
Proof.
  unfold fire, timer_callback. case_decide.
  - eexists. eapply flushed_after; [..|apply flushed_flushLogs]; done.
  - exists []. by apply flushed_nothing.
Qed.

(** What one event detaches, prints and sends. *)
Lemma step_effect w ev :
  let w' := step host w ev in
  match ev with
  | FetchSettles r =>
      config w' = config w /\ batches w' = batches w
      /\ (awaiting w = 0 /\ outputs w' = outputs w /\ awaiting w' = 0
          \/ awaiting w = S (awaiting w')
             /\ outputs w' =
                  outputs w ++
                    match r with
                    | Some err => [failure_report err]
                    | None => []
                    end)
  | Configure c =>
      config w' = A11yLoggerConfig.merge (config w) c
      /\ batches w' = batches w /\ outputs w' = outputs w
      /\ awaiting w' = awaiting w
  | ResetConfig =>
      config w' = A11yLoggerConfig.empty
      /\ batches w' = batches w /\ outputs w' = outputs w
      /\ awaiting w' = awaiting w
  | _ => exists nb, flushed host w w' nb
  end.
Proof.
  destruct ev as [c now| |h|r|c| | | |]; cbv zeta.
  - apply flushed_perform.
  - eexists. apply flushed_flush.
  - apply flushed_fire.
  - cbn [step]. unfold flushLogs_resume.
    destruct (awaiting w) as [|n] eqn:E.
    { simpl. split; [done|]. split; [done|]. by left. }
    split; [by destruct r|]. split; [by destruct r|]. right.
    destruct r as [err|]; simpl; [done|]. by rewrite app_nil_r.
  - done.
  - done.
  - exists []. cbn [step].
    destruct (view_fields _ _ _ _ _ _ _ _ _ _ _ (view_reset w))
      as (Hc & _ & _ & _ & _ & _ & _ & Ha & Ho & Hb).
    by apply flushed_nothing.
  - exists []. by apply flushed_nothing.
  - rewrite step_beforeExit. destruct (beforeExit w).
    + exists []. by apply flushed_nothing.
    + eexists. apply flushed_flush.
Qed.

Lemma config_step w ev :
  keeps_settings ev = true -> config (step host w ev) = config w.
Proof.
  intros Hk. pose proof (step_effect w ev) as H.
  destruct ev; try discriminate; cbv zeta in H.
  1-3, 5-7: by destruct H as [nb [H _]].
  by destruct H as [H _].
Qed.

Lemma config_run tr w :
  forallb keeps_settings tr = true -> config (run host tr w) = config w.
Proof.
  revert w. induction tr as [|ev tr IH]; intros w Hk; [done|].
  simpl in Hk. apply andb_true_iff in Hk as [Hev Hk].
  cbn [run fold_left]. fold (run host tr (step host w ev)).
  by rewrite IH, config_step.
Qed.

Lemma deliveries_app os os' :
  deliveries (os ++ os') = deliveries os ++ deliveries os'.
Proof. apply List.filter_app. Qed.

Lemma reports_app os os' : reports (os ++ os') = reports os ++ reports os'.
Proof. apply omap_app. Qed.

Lemma deliveries_dispatch cfg q :
  deliveries (dispatch host cfg q) = dispatch host cfg q
  /\ reports (dispatch host cfg q) = []
  /\ length (fetches (dispatch host cfg q))
     = if Required.lokiEnabled cfg then 1 else 0.
Proof.
  unfold dispatch. destruct (Required.lokiEnabled cfg); [done|].
  destruct (Required.isDevelopment cfg); [|done].
  induction q as [|x q (IH1 & IH2 & IH3)]; [done|]. simpl.
  by rewrite IH1.
Qed.

Lemma deliveries_batches cfg nb :
  deliveries (concat (map (dispatch host cfg) nb))
  = concat (map (dispatch host cfg) nb)
  /\ reports (concat (map (dispatch host cfg) nb)) = []
  /\ length (fetches (concat (map (dispatch host cfg) nb)))
     = if Required.lokiEnabled cfg then length nb else 0.
Proof.
  induction nb as [|q nb (IH1 & IH2 & IH3)].
  - simpl. by destruct (Required.lokiEnabled cfg).
  - destruct (deliveries_dispatch cfg q) as (H1 & H2 & H3). simpl.
    rewrite deliveries_app, reports_app, fetches_app, length_app,
      IH1, IH2, IH3, H1, H2, H3.
    repeat split. by destruct (Required.lokiEnabled cfg).
Qed.

(** Under settings that stay as they are, what was delivered is what the
    transport selected makes of the batches, in order. *)
Lemma deliveries_run tr w :
  forallb keeps_settings tr = true ->
  deliveries (outputs w)
  = concat (map (dispatch host (getA11yLoggerConfig w)) (batches w)) ->
  let w' := run host tr w in
  deliveries (outputs w')
  = concat (map (dispatch host (getA11yLoggerConfig w)) (batches w')).
Proof.
  revert w. induction tr as [|ev tr IH]; intros w Hk H; [done|].
  simpl in Hk. apply andb_true_iff in Hk as [Hev Hk].
  cbn [run fold_left]. fold (run host tr (step host w ev)).
  assert (getA11yLoggerConfig (step host w ev) = getA11yLoggerConfig w) as Hc
    by (unfold getA11yLoggerConfig; by rewrite config_step).
  rewrite <- Hc. apply IH; [done|]. rewrite Hc.
  pose proof (step_effect w ev) as He.
  destruct ev; try discriminate; cbv zeta in He;
    try (destruct He as (nb & _ & Hb & Ho & _);
         destruct (deliveries_batches (getA11yLoggerConfig w) nb)
           as (D & _);
         by rewrite Hb, Ho, deliveries_app, map_app, concat_app, H, D).
  destruct He as (_ & Hb & [(_ & Ho & _)|(_ & Ho)]); rewrite Hb, Ho; [done|].
  rewrite deliveries_app, H. destruct r; simpl; by rewrite app_nil_r.
Qed.

(** Every failure report answers a request, and every request carries a
    batch of its own. *)
Lemma requests_run tr w :
  awaiting w + length (reports (outputs w)) <= length (fetches (outputs w))
  <= length (batches w) ->
  let w' := run host tr w in
  awaiting w' + length (reports (outputs w')) <= length (fetches (outputs w'))
  <= length (batches w').
Proof.
  revert w. induction tr as [|ev tr IH]; intros w H; [done|].
  cbn [run fold_left]. fold (run host tr (step host w ev)).
  apply IH. pose proof (step_effect w ev) as He.
  assert (forall nb, flushed host w (step host w ev) nb ->
            awaiting (step host w ev)
              + length (reports (outputs (step host w ev)))
            <= length (fetches (outputs (step host w ev)))
            <= length (batches (step host w ev))) as Hf.
  { intros nb (_ & Hb & Ho & Ha).
    destruct (deliveries_batches (getA11yLoggerConfig w) nb)
      as (_ & R & F).
    rewrite Hb, Ho, Ha, reports_app, fetches_app, !length_app, R, F.
    cbn [length]. destruct (Required.lokiEnabled _); lia. }
  destruct ev; cbv zeta in He; try (destruct He as [nb He]; by eapply Hf).
  - destruct He as (_ & Hb & [(E & Ho & Ha)|(E & Ho)]); rewrite Hb, Ho.
    + rewrite Ha. lia.
    + rewrite reports_app, fetches_app, !length_app. rewrite E in H.
      set (a := awaiting (step host w (FetchSettles r))) in *.
      destruct r as [err|].
      * change (length (reports [failure_report err])) with 1.
        change (length (fetches [failure_report err])) with 0. lia.
      * change (length (reports [])) with 0.
        change (length (fetches [])) with 0. lia.
  - destruct He as (_ & -> & -> & ->). done.
  - destruct He as (_ & -> & -> & ->). done.
Qed.

Lemma deliveries_all os : reports os = [] -> deliveries os = os.
Proof.
  induction os as [|o os IH]; [done|]. destruct o; simpl; try done.
  - intros H. by rewrite IH.
  - intros H. by rewrite IH.
Qed.

Lemma fetches_deliveries os : fetches (deliveries os) = fetches os.
Proof.
  induction os as [|o os IH]; [done|]. destruct o; simpl; try done.
  by rewrite IH.
Qed.

Lemma fetches_batches cfg nb :
  Required.lokiEnabled cfg = true ->
  fetches (concat (map (dispatch host cfg) nb))
  = map (push_request host cfg) nb.
Proof.
  intros E. induction nb as [|q nb IH]; [done|]. simpl.
  rewrite fetches_app, IH. unfold dispatch. by rewrite E.
Qed.

Lemma echoes_batches cfg nb :
  Required.lokiEnabled cfg = false ->
  concat (map (dispatch host cfg) nb)
  = if Required.isDevelopment cfg then map echo (concat nb) else [].
Proof.
  intros E. induction nb as [|q nb IH]; simpl.
  - by destruct (Required.isDevelopment cfg).
  - rewrite IH. unfold dispatch. rewrite E.
    destruct (Required.isDevelopment cfg); [|done]. by rewrite map_app.
Qed.

(** X7. With the settings configured once and then left alone, over every
    trace of recording calls, flushes, timers, settling transports, state
    resets and exits, what the module has delivered is what the selected
    transport makes of the batches flushed so far, one after the other in
    flush order.  With Loki enabled the requests made are one per batch,
    in order, each with the payload of its batch.  With Loki disabled no
    request is ever made and no failure is ever reported: the console
    holds one line per flushed entry in development mode, and nothing
    otherwise. *)
Theorem batches_delivered_in_order (c : A11yLoggerConfig.t)
    (tr : list Event) :
  forallb keeps_settings tr = true ->
  let w := run host tr (configureA11yLogger c initial) in
  let cfg := resolve c in
  getA11yLoggerConfig w = cfg
  /\ deliveries (outputs w) = concat (map (dispatch host cfg) (batches w))
  /\ (Required.lokiEnabled cfg = true ->
      fetches (outputs w) = map (push_request host cfg) (batches w))
  /\ (Required.lokiEnabled cfg = false ->
      awaiting w = 0
      /\ outputs w =
           if Required.isDevelopment cfg
           then map echo (concat (batches w)) else []).
Proof.
  intros Hk w cfg. set (w0 := configureA11yLogger c initial).
  assert (getA11yLoggerConfig w0 = cfg) as C0.
  { unfold w0, getA11yLoggerConfig, configureA11yLogger. simpl.
    by rewrite merge_empty_l. }
  assert (getA11yLoggerConfig w = cfg) as C.
  { unfold w, getA11yLoggerConfig. rewrite config_run by done. exact C0. }
  assert (deliveries (outputs w)
          = concat (map (dispatch host cfg) (batches w))) as D.
  { rewrite <- C0. by apply deliveries_run. }
  split; [done|]. split; [done|]. split.
  - intros E. by rewrite <- fetches_deliveries, D, fetches_batches.
  - intros E.
    assert (awaiting w0 + length (reports (outputs w0))
            <= length (fetches (outputs w0)) <= length (batches w0)) as H0
      by (simpl; lia).
    pose proof (requests_run tr w0 H0) as H. cbv zeta in H.
    change (run host tr w0) with w in H.
    assert (fetches (outputs w) = []) as F.
    { rewrite <- fetches_deliveries, D, echoes_batches by done.
      destruct (Required.isDevelopment cfg); [apply fetches_echo|done]. }
    rewrite F in H. simpl in H. split; [lia|].
    rewrite <- (deliveries_all (outputs w)), D; [by apply echoes_batches|].
    destruct (reports (outputs w)); [done|simpl in H; lia].
Qed.

(** X8. Whatever the trace from the initial state, and however the
    settings change along it, a failure is reported only for a request
    that was made, and a request is made only for a batch that was
    detached: the requests still in flight and the failures reported
    together never outnumber the requests made, which never outnumber the
    batches. *)
Theorem reports_answer_requests (tr : list Event) :
  let w := run host tr initial in
  awaiting w + length (reports (outputs w)) <= length (fetches (outputs w))
  /\ length (fetches (outputs w)) <= length (batches w).
Proof.
  intros w. apply (requests_run tr initial). simpl. lia.
Qed.

(** X9. The settings are read when a flush runs, not when an entry is
    recorded: entries queued under one configuration and flushed after a
    call of [configureA11yLogger] are delivered by the transport, and to
    the URL and with the stream labels, of the merged configuration.  The
    call itself delivers nothing and leaves the queue as it is. *)
Theorem flush_uses_settings_in_force (c : A11yLoggerConfig.t) (w : World) :
  let w1 := configureA11yLogger c w in
  let w2 := (a11yLogger.flush host w1).1 in
  let cfg := resolve (A11yLoggerConfig.merge (config w) c) in
  (queue w1 = queue w /\ outputs w1 = outputs w /\ batches w1 = batches w)
  /\ queue w2 = []
  /\ batches w2 = batches w ++ match queue w with [] => [] | q => [q] end
  /\ outputs w2 =
       outputs w ++
         match queue w with
         | [] => []
         | q => dispatch host cfg q
         end
  /\ (Required.lokiEnabled cfg = true -> queue w <> [] ->
      fetches (outputs w2)
      = fetches (outputs w) ++ [push_request host cfg (queue w)]).
Proof.
  intros w1 w2 cfg. split; [done|]. unfold w2.
  rewrite flush_eq, queue_flushLogs, batches_flushLogs, outputs_flushLogs,
    queue_cancel, batches_cancel, outputs_cancel.
  unfold getA11yLoggerConfig. rewrite config_cancel.
  change (config w1) with (A11yLoggerConfig.merge (config w) c).
  change (queue w1) with (queue w). change (batches w1) with (batches w).
  change (outputs w1) with (outputs w). fold cfg.
  repeat split. intros E Q. rewrite fetches_app.
  destruct (queue w); [done|]. unfold dispatch. by rewrite E.
Qed.

End Effects.

(** ** State reset, the timer observer and the exit of the process *)

Section Lifecycle.
Variable host : Host.

Lemma wf_run tr w : wf w -> wf (run host tr w).
Proof.
  revert w. induction tr as [|ev tr IH]; intros w Hw; [done|].
  cbn [run fold_left]. fold (run host tr (step host w ev)).
  apply IH. exact (proj1 (grows_step host w ev Hw)).
Qed.

Lemma timers_idle w :
  scheduler_ok w -> flushTimer w = None -> timers w = [].
Proof.
  intros [_ [H _]] E. rewrite E in H. simpl in H. by destruct (timers w).
Qed.

(** X10. [_resetInternalState], in any state reachable from the initial
    one, empties the queue without flushing it: no console line, no
    request and no batch is produced, in-flight requests and settings stay
    as they are, the pending timer is cancelled with the host, so that no
    timer stays armed and no timer event has an effect any more, and the
    registration flag is cleared.  The entries dropped are never flushed
    later: over every continuation without a further reset, the batches
    and the queue hold the batches of before the reset and the entries
    recorded since. *)
Theorem reset_drops_queue (tr : list Event) :
  let w := run host tr initial in
  let w' := _resetInternalState w in
  (queue w' = [] /\ flushTimer w' = None /\ timers w' = []
   /\ shutdownHookRegistered w' = false /\ _hasFlushTimer w' = false)
  /\ (config w' = config w /\ outputs w' = outputs w
      /\ batches w' = batches w /\ awaiting w' = awaiting w
      /\ beforeExit w' = beforeExit w)
  /\ (forall h, fire host h w' = w')
  /\ (forall tr',
        forallb (fun ev => negb (is_reset ev)) tr' = true ->
        let w2 := run host tr' w' in
        concat (batches w2) ++ queue w2
        = concat (batches w) ++ enqueued host tr').
Proof.
  intros w w'. destruct (reachable_ok host tr) as [Hw Ht]. fold w in Hw, Ht.
  destruct (view_fields _ _ _ _ _ _ _ _ _ _ _ (view_reset w))
    as (Hc & Hq & Hf & Hs & Hts & _ & Hb & Ha & Ho & Hbt).
  fold w' in Hc, Hq, Hf, Hs, Hts, Hb, Ha, Ho, Hbt.
  rewrite (tidy_cancelled _ _ _ Ht) in Hts.
  split; [|split; [done|split]].
  - unfold _hasFlushTimer. by rewrite Hf.
  - intros h. unfold fire. rewrite Hts. by rewrite decide_False by set_solver.
  - intros tr' Hr w2.
    pose proof (ledger_run host tr' w') as H. unfold ledger in H.
    unfold w2. rewrite H; [|exact (proj1 (grows_reset w Hw))|done].
    by rewrite Hq, Hbt, app_nil_r.
Qed.

(** X11. [_hasFlushTimer] tells what the host holds.  In every state
    reachable from the initial one it answers [true] exactly when one
    timer is armed with the host, which is exactly when the queue is not
    empty; it answers [false] exactly when no timer is armed.  It answers
    [false] after a manual flush, after the pending timer has fired and
    after a state reset. *)
Theorem hasFlushTimer_exact (tr : list Event) :
  let w := run host tr initial in
  (_hasFlushTimer w = true <-> queue w <> [])
  /\ (_hasFlushTimer w = true <-> length (timers w) = 1)
  /\ (_hasFlushTimer w = false <-> timers w = [])
  /\ _hasFlushTimer (a11yLogger.flush host w).1 = false
  /\ (forall h, flushTimer w = Some h -> _hasFlushTimer (fire host h w) = false)
  /\ _hasFlushTimer (_resetInternalState w) = false.
Proof.
  intros w. destruct (reachable_ok host tr) as [Hw Ht]. fold w in Hw, Ht.
  destruct Ht as [Hh Hn].
  assert (length (timers w) = length (option_list (flushTimer w))) as L
    by (by rewrite <- Hh, length_fmap).
  unfold _hasFlushTimer.
  split; [|split; [|split; [|split; [|split]]]].
  - rewrite <- Hn.
    destruct (flushTimer w); split; (done || eauto || by intros [? ?]).
  - rewrite L. by destruct (flushTimer w).
  - destruct (flushTimer w); simpl in L.
    + split; [done|]. intros E. by rewrite E in L.
    + split; [|done]. intros _. by destruct (timers w).
  - by rewrite flush_eq, flushTimer_flushLogs, flushTimer_cancel.
  - intros h E. rewrite (fire_pending host w h (conj Hw (conj Hh Hn)) E).
    by rewrite flushTimer_flushLogs.
  - by destruct (view_fields _ _ _ _ _ _ _ _ _ _ _ (view_reset w))
      as (_ & _ & -> & _).
Qed.

Lemma queue_step_other w ev :
  wf w -> match ev with Call _ _ => False | _ => True end ->
  queue (step host w ev) = queue w \/ queue (step host w ev) = [].
Proof.
  intros Hw Hev. destruct ev as [c now| |h|r|c| | | |]; [done|..].
  - right. cbn [step]. rewrite flush_eq. apply queue_flushLogs.
  - cbn [step]. unfold fire, timer_callback. case_decide; [right|by left].
    apply queue_flushLogs.
  - left. cbn [step]. unfold flushLogs_resume.
    destruct (awaiting w); [done|]. by destruct r.
  - by left.
  - by left.
  - right. cbn [step].
    by destruct (view_fields _ _ _ _ _ _ _ _ _ _ _ (view_reset w))
      as (_ & -> & _).
  - left. cbn [step]. unfold _getLogBuffer. by apply queue_alloc.
  - rewrite step_beforeExit. destruct (beforeExit w); [by left|right].
    rewrite flush_eq. apply queue_flushLogs.
Qed.

Lemma exit_ready_step w ev :
  process_on host = true -> wf w -> keeps_hook ev = true ->
  exit_ready w -> exit_ready (step host w ev).
Proof.
  intros Hp Hw Hk (Hr & Hs & Hq).
  pose proof (hook_step host w ev) as Hh.
  pose proof (step_effect host w ev) as He. cbv zeta in He.
  assert (Required.registerShutdownHook
            (getA11yLoggerConfig (step host w ev)) = true) as Hr'.
  { unfold getA11yLoggerConfig in *.
    destruct ev; try (destruct He as [nb [-> _]]; exact Hr).
    - destruct He as [-> _]. exact Hr.
    - destruct He as [-> _]. simpl in Hk. unfold resolve in *. simpl.
      rewrite nullish_spread.
      by destruct (A11yLoggerConfig.registerShutdownHook c) as [| |[|]].
    - by destruct He as [-> _]. }
  split; [done|].
  assert (match ev with Call _ _ => False | _ => True end ->
          beforeExit (step host w ev) = beforeExit w
          /\ (shutdownHookRegistered (step host w ev) = true ->
              shutdownHookRegistered w = true)
          /\ (queue (step host w ev) <> [] -> queue w <> [])) as Hother.
  { intros Hev.
    assert (hook (step host w ev) = hook w
            \/ hook (step host w ev) = (false, beforeExit w)) as [E|E]
      by (rewrite Hh; destruct ev; try done; auto).
    all: pose proof (f_equal fst E) as E1; pose proof (f_equal snd E) as E2;
      simpl in E1, E2; rewrite E1, E2; split; [done|]; split; [done|];
      by destruct (queue_step_other w ev Hw Hev) as [-> | ->]. }
  destruct ev as [c now| |h|r|c| | | |];
    try (destruct (Hother I) as (-> & H1 & H2); by auto).
  rewrite hook_ensureShutdownHook, Hr, Hp in Hh.
  pose proof (f_equal fst Hh) as E1. pose proof (f_equal snd Hh) as E2.
  change (step host w (Call c now)) with (perform host c now w).
  destruct (shutdownHookRegistered w) eqn:E; simpl in E1, E2;
    rewrite E2.
  - split; intros _; by apply Hs.
  - split; intros _; lia.
Qed.

Lemma exit_ready_run tr w :
  process_on host = true -> wf w -> forallb keeps_hook tr = true ->
  exit_ready w -> exit_ready (run host tr w).
Proof.
  intros Hp. revert w. induction tr as [|ev tr IH]; intros w Hw Hk H; [done|].
  simpl in Hk. apply andb_true_iff in Hk as [Hev Hk].
  cbn [run fold_left]. fold (run host tr (step host w ev)).
  apply IH; [exact (proj1 (grows_step host w ev Hw))|done|].
  by apply exit_ready_step.
Qed.

Lemma enqueued_app tr tr' :
  enqueued host (tr ++ tr') = enqueued host tr ++ enqueued host tr'.
Proof.
  induction tr as [|ev tr IH]; [done|].
  change ((ev :: tr) ++ tr') with (ev :: (tr ++ tr')).
  by rewrite (enqueued_cons host ev), (enqueued_cons host ev tr), IH,
    app_assoc.
Qed.

(** X12. Where [process.on] is available and no call of
    [configureA11yLogger] sets [registerShutdownHook] to [false], nothing
    recorded is left behind when the process exits: after any trace
    followed by the [beforeExit] event the queue is empty, no timer handle
    is stored and no timer is armed; with no state reset in the trace, the
    batches flushed are exactly the entries recorded, in order. *)
Theorem nothing_left_at_exit (tr : list Event) :
  process_on host = true ->
  forallb keeps_hook tr = true ->
  let w := run host (tr ++ [BeforeExit]) initial in
  queue w = [] /\ flushTimer w = None /\ timers w = []
  /\ (forallb (fun ev => negb (is_reset ev)) tr = true ->
      concat (batches w) = enqueued host tr).
Proof.
  intros Hp Hk w.
  assert (wf initial) as Hw0 by (by eexists).
  assert (exit_ready initial) as H0 by (by split).
  pose proof (exit_ready_run tr initial Hp Hw0 Hk H0) as (_ & _ & Hq).
  pose proof (reachable_ok host tr) as Hok.
  pose proof (reachable_ok host (tr ++ [BeforeExit])) as Hok'. fold w in Hok'.
  assert (queue w = []) as Q.
  { unfold w, run. rewrite fold_left_app. cbn [fold_left].
    fold (run host tr initial). rewrite step_beforeExit.
    destruct (beforeExit (run host tr initial)) eqn:E.
    - destruct (queue (run host tr initial)); [done|]. by destruct Hq.
    - rewrite flush_eq. apply queue_flushLogs. }
  assert (flushTimer w = None) as F.
  { destruct Hok' as [_ [_ Hn]]. destruct (flushTimer w) eqn:E; [|done].
    destruct (proj1 Hn); [eauto|done]. }
  split; [done|]. split; [done|]. split; [by apply timers_idle|].
  intros Hr. pose proof (ledger_run host (tr ++ [BeforeExit]) initial Hw0)
    as H. fold w in H. unfold ledger in H.
  rewrite Q, app_nil_r, enqueued_app in H. simpl in H.
  rewrite app_nil_r in H. apply H.
  rewrite forallb_app, Hr. done.
Qed.

Lemma hook_disabled_run tr w :
  forallb keeps_settings tr = true ->
  Required.registerShutdownHook (getA11yLoggerConfig w) = false ->
  hook w = (false, 0) -> hook (run host tr w) = (false, 0).
Proof.
  revert w. induction tr as [|ev tr IH]; intros w Hk Hr Hh; [done|].
  simpl in Hk. apply andb_true_iff in Hk as [Hev Hk].
  cbn [run fold_left]. fold (run host tr (step host w ev)).
  apply IH; [done| |].
  - unfold getA11yLoggerConfig in *. by rewrite config_step.
  - rewrite hook_step. pose proof (f_equal fst Hh) as H1.
    pose proof (f_equal snd Hh) as H2. simpl in H1, H2.
    destruct ev; try done; [|by rewrite H2].
    by rewrite hook_ensureShutdownHook, H1, Hr.
Qed.

(** X13. With [registerShutdownHook] configured [false] and the settings
    then left alone, no recording call ever registers a [beforeExit]
    listener or sets the flag, and the exit of the process flushes
    nothing: what is queued then stays queued. *)
Theorem hook_disabled_never_registers (c : A11yLoggerConfig.t)
    (tr : list Event) :
  Required.registerShutdownHook (resolve c) = false ->
  forallb keeps_settings tr = true ->
  let w := run host tr (configureA11yLogger c initial) in
  beforeExit w = 0 /\ shutdownHookRegistered w = false
  /\ step host w BeforeExit = w.
Proof.
  intros Hr Hk w.
  assert (hook w = (false, 0)) as H.
  { apply hook_disabled_run; [done| |done].
    unfold getA11yLoggerConfig, configureA11yLogger. simpl set_config.
    cbn [config]. by rewrite merge_empty_l. }
  pose proof (f_equal fst H) as H1. pose proof (f_equal snd H) as H2.
  simpl in H1, H2. split; [done|]. split; [done|].
  by rewrite step_beforeExit, H2.
Qed.

End Lifecycle.

(** ** The entries the recording methods build *)

Lemma obj_set_new {V : Type} (k : string) (v : V) (o : list (string * V)) :
  k ∉ o.*1 -> obj_set k v o = o ++ [(k, v)].
Proof.
  induction o as [|[k' v'] o IH]; [done|]. simpl. intros N.
  apply not_elem_of_cons in N as [N1 N2].
  destruct (String.eqb k' k) eqn:E.
  - apply String.eqb_eq in E. congruence.
  - by rewrite IH.
Qed.

Lemma obj_spread_new {V : Type} (o src : list (string * V)) :
  NoDup src.*1 -> (forall k, k ∈ src.*1 -> k ∉ o.*1) ->
  obj_spread o src = o ++ src.
Proof.
  revert o. induction src as [|[k v] src IH]; intros o Hd Hn.
  - by rewrite app_nil_r.
  - apply NoDup_cons in Hd as [Hk Hd].
    unfold obj_spread in *. cbn [fold_left fst snd].
    rewrite obj_set_new by (apply Hn; left).
    rewrite IH; [by rewrite <- app_assoc|done|].
    intros k' Hk'. rewrite fmap_app. intros [H|H]%elem_of_app.
    + apply (Hn k'); [by right|done].
    + apply list_elem_of_singleton in H. simpl in H. by subst.
Qed.

Lemma own_properties_plain {V : Type} (o : list (string * V)) :
  Forall (fun k => array_index k = None) o.*1 -> own_properties o = o.
Proof.
  intros Ho. unfold own_properties.
  assert (fold_right
            (fun (kv : string * V) acc =>
               match array_index (fst kv) with
               | Some n => insert_by_index n kv acc
               | None => acc
               end) [] o = []
          /\ List.filter
               (fun kv : string * V =>
                  match array_index (fst kv) with
                  | Some _ => false
                  | None => true
                  end) o = o) as [-> ->]; [|done].
  induction o as [|[k v] o IH]; [done|].
  apply Forall_cons in Ho as [Hk Ho]. simpl in Hk.
  destruct (IH Ho) as [IH1 IH2].
  cbn [fold_right List.filter fst]. by rewrite Hk, IH1, IH2.
Qed.

Lemma line_object_plain (log : A11yLogEntry) :
  NoDup (labels log).*1 -> ("level" ∉ (labels log).*1) ->
  ("msg" ∉ (labels log).*1) ->
  Forall (fun k => array_index k = None) (labels log).*1 ->
  line_object log = plain_line log.
Proof.
  intros Hd Hl Hm Hi. unfold line_object, plain_line. f_equal.
  rewrite obj_spread_new.
  - cbn [app]. apply own_properties_plain. rewrite !fmap_cons. cbn [fst].
    apply Forall_cons. split; [done|]. apply Forall_cons. split; [done|].
    by rewrite <- list_fmap_compose.
  - by rewrite <- list_fmap_compose.
  - rewrite <- list_fmap_compose. intros k Hk [H|H]%elem_of_cons.
    + by subst.
    + apply list_elem_of_singleton in H. by subst.
Qed.

(** X14. The line serialised for an entry is the object with [level],
    [msg] and then every label, in that order, whenever the label names
    are distinct, none is [level] or [msg] and none is an array index
    (which an object enumerates before its other properties); and every
    entry a recording method builds is such an entry, so that no label
    ever replaces or precedes the level and the message in the line that
    is sent. *)
Theorem line_keeps_level_and_message (host : Host) :
  (forall log,
     NoDup (labels log).*1 -> ("level" ∉ (labels log).*1) ->
     ("msg" ∉ (labels log).*1) ->
     Forall (fun k => array_index k = None) (labels log).*1 ->
     line_object log = plain_line log)
  /\ (forall c now,
        let e := entry_of host c now in
        NoDup (labels e).*1 /\ ("level" ∉ (labels e).*1)
        /\ ("msg" ∉ (labels e).*1)
        /\ Forall (fun k => array_index k = None) (labels e).*1
        /\ line_object e = plain_line e).
Proof.
  split; [apply line_object_plain|].
  intros c now e.
  assert (NoDup (labels e).*1 /\ ("level" ∉ (labels e).*1)
          /\ ("msg" ∉ (labels e).*1)
          /\ Forall (fun k => array_index k = None) (labels e).*1)
    as (Hd & Hl & Hm & Hi).
  { unfold e. destruct c as [m l|m l|m l|m l|m l|d|m l];
      cbn [entry_of labels fmap list_fmap fst
           a11yLogger.contrast_entry a11yLogger.wcag_entry
           a11yLogger.evaluation_entry a11yLogger.session_entry
           a11yLogger.error_entry a11yLogger.summary_entry
           a11yLogger.aria_entry];
      (split; [|split; [|split]]); by apply (bool_decide_unpack _). }
  repeat split; try done. by apply line_object_plain.
Qed.

(** X15. Every recording method stamps its entry with the time of the
    call and puts the name of its kind first among the labels, under
    [type].  The level is fixed by the kind: [info] for evaluation,
    session and summary entries, [error] for error entries, [warn] for
    aria entries.  A WCAG entry is an [error] exactly when its [severity]
    label is the text [error], and a [warn] otherwise; a contrast entry is
    never [info]. *)
Theorem entry_kind_and_level (host : Host) (c : Recording) (now : string) :
  let e := entry_of host c now in
  timestamp e = now
  /\ hd_error (labels e) = Some ("type", Str (kind c))
  /\ obj_get "type" (labels e) = Some (Str (kind c))
  /\ match c with
     | Contrast _ _ => level e = Error \/ level e = Warn
     | Wcag _ _ =>
         (level e = Error
          <-> obj_get "severity" (labels e) = Some (Str "error"))
         /\ (level e <> Error -> level e = Warn)
     | Failure _ _ => level e = Error
     | Aria _ _ => level e = Warn
     | _ => level e = Info
     end.
Proof.
  intros e. unfold e. destruct c as [m l|m l|m l|m l|m l|d|m l];
    (split; [done|]); (split; [done|]); (split; [done|]); try done.
  - simpl. destruct (ContrastLabels.ratio l) as [r|]; [|by right].
    destruct (PrimFloat.ltb r 3); auto.
  - cbn [entry_of a11yLogger.wcag_entry level labels].
    destruct (WcagLabels.severity l) as [s|] eqn:E.
    + destruct (String.eqb s "error") eqn:Es.
      * apply String.eqb_eq in Es. subst s. split; [|done]. by split.
      * split; [|done]. split; [done|]. intros H. exfalso.
        cbn in H. unfold or_string in H.
        destruct (truthy_string s) eqn:T.
        -- injection H as H. subst s. discriminate.
        -- discriminate.
    + split; [|done]. split; [done|]. discriminate.
Qed.

(** ** The timer the host holds *)

Section Timers.
Variable host : Host.

Lemma pending_timer_view ok a b :
  view a = view b -> pending_timer host ok b -> pending_timer host ok a.
Proof.
  intros H. apply view_inv in H.
  destruct H as (_ & _ & Hf & _ & Ht & _). unfold pending_timer.
  by rewrite Hf, Ht.
Qed.

Lemma pending_timer_idle ok w :
  flushTimer w = None -> timers w = [] -> pending_timer host ok w.
Proof. intros Hf Ht. unfold pending_timer. by rewrite Hf. Qed.

Lemma pending_timer_flushLogs ok w :
  flushTimer w = None -> timers w = [] ->
  pending_timer host ok (flushLogs host w).1.
Proof.
  intros Hf Ht. apply pending_timer_idle.
  - by rewrite flushTimer_flushLogs.
  - by rewrite timers_flushLogs.
Qed.

Lemma pending_timer_flush ok w :
  scheduler_ok w -> pending_timer host ok (a11yLogger.flush host w).1.
Proof.
  intros [_ Ht]. rewrite flush_eq. apply pending_timer_flushLogs.
  - apply flushTimer_cancel.
  - rewrite timers_cancel. by apply (tidy_cancelled _ _ _ Ht).
Qed.

Lemma pending_timer_addLog (ok : float -> Prop) x w :
  tidy (queue w) (flushTimer w) (timers w) ->
  ok (Required.flushInterval (getA11yLoggerConfig w)) ->
  pending_timer host ok w -> pending_timer host ok (addLog host x w).
Proof.
  intros Ht Hok Hp. rewrite addLog_eq. set (p := push (logBuffer w) x w).
  destruct (PrimFloat.leb _ _).
  - apply pending_timer_flushLogs; [apply flushTimer_cancel|].
    rewrite timers_cancel. by apply (tidy_cancelled _ _ _ Ht).
  - destruct (flushTimer w) as [h|] eqn:E.
    + rewrite scheduleFlush_noop by (unfold p; simpl; rewrite E; eauto).
      unfold pending_timer in *. unfold p. simpl. by rewrite E in *.
    + assert (timers p = []) as Tp.
      { unfold pending_timer in Hp. by rewrite E in Hp. }
      destruct (view_fields _ _ _ _ _ _ _ _ _ _ _
                  (scheduleFlush_armed host p E Tp))
        as (_ & _ & Hf & _ & Hts & _).
      unfold pending_timer. rewrite Hf, Hts. eauto.
Qed.

Lemma pending_timer_step (ok : float -> Prop) w ev :
  scheduler_ok w ->
  ok (Required.flushInterval (getA11yLoggerConfig w)) ->
  pending_timer host ok w -> pending_timer host ok (step host w ev).
Proof.
  intros Hok Hi Hp. pose proof Hok as [Hw Ht].
  destruct ev as [c now| |h|r|c| | | |].
  - cbn [step]. rewrite perform_eq.
    destruct (view_ensureShutdownHook host w) as (s & b & Ev).
    destruct (view_fields _ _ _ _ _ _ _ _ _ _ _ Ev)
      as (Hc & Hq & Hf & _ & Hts & _).
    apply pending_timer_addLog.
    + by rewrite Hq, Hf, Hts.
    + unfold getA11yLoggerConfig. by rewrite Hc.
    + unfold pending_timer. by rewrite Hf, Hts.
  - by apply pending_timer_flush.
  - cbn [step]. destruct (decide (h ∈ handle <$> timers w)) as [Hin|Hin].
    + destruct Ht as [Hh Hn]. rewrite Hh in Hin.
      destruct (flushTimer w) as [h'|] eqn:E; simpl in Hin; [|set_solver].
      apply list_elem_of_singleton in Hin. subst h'.
      rewrite (fire_pending host w h Hok E).
      by apply pending_timer_flushLogs.
    + unfold fire. by rewrite decide_False.
  - cbn [step]. unfold flushLogs_resume.
    destruct (awaiting w); [done|]. by destruct r.
  - done.
  - done.
  - cbn [step].
    destruct (view_fields _ _ _ _ _ _ _ _ _ _ _ (view_reset w))
      as (_ & _ & Hf & _ & Hts & _).
    apply pending_timer_idle; [done|].
    rewrite Hts. by apply (tidy_cancelled _ _ _ Ht).
  - cbn [step]. eapply pending_timer_view; [by apply view_getLogBuffer|done].
  - rewrite step_beforeExit. destruct (beforeExit w); [done|].
    by apply pending_timer_flush.
Qed.

(** X16. The host never holds a timer the module has lost track of.  In
    every state reachable from the initial one, however the settings
    changed, either no handle is stored and no timer is armed, or the one
    timer armed is the one [flushTimer] names; that timer has been
    [unref]ed whenever the handles of the host have an [unref] method, so
    that it does not keep the process alive. *)
Theorem pending_timer_unrefed (tr : list Event) :
  let w := run host tr initial in
  match flushTimer w with
  | Some h => exists ms, timers w = [armed host h ms]
  | None => timers w = []
  end
  /\ Forall (fun t => refed t = negb (timeout_unref host)) (timers w)
  /\ (timeout_unref host = true -> Forall (fun t => refed t = false) (timers w)).
Proof.
  intros w.
  assert (forall tr' w0,
            scheduler_ok w0 -> pending_timer host (fun _ => True) w0 ->
            pending_timer host (fun _ => True) (run host tr' w0)) as Hrun.
  { induction tr' as [|ev tr' IH]; intros w0 Hok Hp; [done|].
    cbn [run fold_left]. fold (run host tr' (step host w0 ev)).
    apply IH; [by apply scheduler_ok_step|].
    by apply pending_timer_step. }
  pose proof (Hrun tr initial (scheduler_ok_initial) eq_refl) as H.
  fold w in H. unfold pending_timer in H.
  assert (Forall (fun t => refed t = negb (timeout_unref host)) (timers w))
    as HF.
  { destruct (flushTimer w); [|by rewrite H].
    destruct H as (ms & _ & ->). by repeat constructor. }
  split; [|split; [done|]].
  - destruct (flushTimer w); [|done]. destruct H as (ms & _ & H). eauto.
  - intros E. by rewrite E in HF.
Qed.

(** X17. With the settings configured once and then left alone, the timer
    pending at any moment was armed for the configured [flushInterval].
    A call of [configureA11yLogger] itself arms, cancels and reschedules
    nothing: a timer already pending keeps the delay it was armed for. *)
Theorem pending_timer_delay (c c' : A11yLoggerConfig.t) (tr : list Event) :
  forallb keeps_settings tr = true ->
  let w := run host tr (configureA11yLogger c initial) in
  match flushTimer w with
  | Some h =>
      timers w = [armed host h (Required.flushInterval (resolve c))]
  | None => timers w = []
  end
  /\ timers (configureA11yLogger c' w) = timers w
  /\ flushTimer (configureA11yLogger c' w) = flushTimer w.
Proof.
  intros Hk w. split; [|done].
  set (ok := fun ms => ms = Required.flushInterval (resolve c)).
  assert (forall tr' w0,
            forallb keeps_settings tr' = true ->
            getA11yLoggerConfig w0 = resolve c ->
            scheduler_ok w0 -> pending_timer host ok w0 ->
            pending_timer host ok (run host tr' w0)) as Hrun.
  { induction tr' as [|ev tr' IH]; intros w0 Hk' Hc Hok Hp; [done|].
    simpl in Hk'. apply andb_true_iff in Hk' as [Hev Hk'].
    cbn [run fold_left]. fold (run host tr' (step host w0 ev)).
    apply IH; [done| |by apply scheduler_ok_step|].
    - unfold getA11yLoggerConfig in *. by rewrite config_step.
    - apply pending_timer_step; [done| |done]. unfold ok. by rewrite Hc. }
  assert (pending_timer host ok w) as H.
  { apply Hrun; [done| | |done].
    - unfold getA11yLoggerConfig, configureA11yLogger. simpl.
      by rewrite merge_empty_l.
    - apply (scheduler_ok_step host initial (Configure c)).
      apply scheduler_ok_initial. }
  unfold pending_timer in H. destruct (flushTimer w); [|done].
  by destruct H as (ms & -> & ->).
Qed.

End Timers.

(** ** The size of the queue *)

Section Threshold.
Variable host : Host.

Lemma threshold_at_spec m N n :
  threshold_at m N = true -> n <= N ->
  PrimFloat.leb m (number_of_nat n) = (Nat.leb N n).
Proof.
  intros H Hn. unfold threshold_at in H.
  rewrite forallb_forall in H. apply eqb_prop, H, in_seq. lia.
Qed.

(** What a recording call does to the queue and to the batches. *)
Lemma perform_effect c now w :
  let e := entry_of host c now in
  let w' := perform host c now w in
  if PrimFloat.leb (Required.maxBufferSize (getA11yLoggerConfig w))
       (number_of_nat (length (queue w) + 1))
  then queue w' = [] /\ batches w' = batches w ++ [queue w ++ [e]]
       /\ nextHandle w' = nextHandle w
  else queue w' = queue w ++ [e] /\ batches w' = batches w.
Proof.
  intros e w'. unfold w'. rewrite perform_eq. fold e.
  destruct (view_ensureShutdownHook host w) as (s & b & Ev).
  destruct (view_fields _ _ _ _ _ _ _ _ _ _ _ Ev)
    as (Hc & Hq & _ & _ & _ & Hn & _ & _ & _ & Hb).
  set (g := ensureShutdownHook host w) in *.
  rewrite addLog_eq, length_app. cbn [length].
  unfold getA11yLoggerConfig. rewrite Hc, Hq.
  set (p := push (logBuffer g) e g).
  assert (queue p = queue w ++ [e]) as Qp
    by (unfold p; by rewrite queue_push, Hq).
  destruct (PrimFloat.leb _ _).
  - rewrite queue_flushLogs, batches_flushLogs, queue_cancel, batches_cancel.
    split; [done|]. split.
    + rewrite Qp. change (batches p) with (batches g). rewrite Hb.
      by destruct (queue w).
    + destruct (view_fields _ _ _ _ _ _ _ _ _ _ _
                  (view_flushLogs host (cancel p)))
        as (_ & _ & _ & _ & _ & -> & _).
      by destruct (view_fields _ _ _ _ _ _ _ _ _ _ _ (view_cancel p))
        as (_ & _ & _ & _ & _ & -> & _).
  - destruct (scheduleFlush_frame host p) as (_ & -> & _ & -> & _).
    split; [done|]. by change (batches p) with (batches g).
Qed.

(** What any other event does to them. *)
Lemma other_effect w ev :
  wf w -> match ev with Call _ _ => False | _ => True end ->
  let w' := step host w ev in
  nextHandle w' = nextHandle w
  /\ (queue w' = queue w /\ batches w' = batches w
      \/ queue w' = []
         /\ batches w' = batches w ++ match queue w with [] => [] | q => [q] end
      \/ queue w' = [] /\ batches w' = batches w).
Proof.
  intros Hw Hev.
  assert (forall w0,
            nextHandle w0 = nextHandle w -> queue w0 = queue w ->
            batches w0 = batches w ->
            nextHandle (flushLogs host w0).1 = nextHandle w
            /\ (queue (flushLogs host w0).1 = queue w
                /\ batches (flushLogs host w0).1 = batches w
                \/ queue (flushLogs host w0).1 = []
                   /\ batches (flushLogs host w0).1
                      = batches w ++ match queue w with [] => [] | q => [q] end
                \/ queue (flushLogs host w0).1 = []
                   /\ batches (flushLogs host w0).1 = batches w)) as Hfl.
  { intros w0 Hn Hq Hb. split.
    - by destruct (view_fields _ _ _ _ _ _ _ _ _ _ _ (view_flushLogs host w0))
        as (_ & _ & _ & _ & _ & -> & _).
    - right; left. by rewrite queue_flushLogs, batches_flushLogs, Hq, Hb. }
  assert (nextHandle (cancel w) = nextHandle w) as Hnc
    by (by destruct (view_fields _ _ _ _ _ _ _ _ _ _ _ (view_cancel w))
          as (_ & _ & _ & _ & _ & -> & _)).
  destruct ev as [c now| |h|r|c| | | |]; [done|..]; cbv zeta.
  - cbn [step]. rewrite flush_eq.
    apply Hfl; [done|apply queue_cancel|apply batches_cancel].
  - cbn [step]. unfold fire, timer_callback. case_decide; [|auto].
    by apply Hfl.
  - cbn [step]. unfold flushLogs_resume.
    destruct (awaiting w); [auto|]. destruct r; simpl; auto.
  - auto.
  - auto.
  - cbn [step].
    destruct (view_fields _ _ _ _ _ _ _ _ _ _ _ (view_reset w))
      as (_ & Hq & _ & _ & _ & Hn & _ & _ & _ & Hb).
    auto.
  - cbn [step].
    pose proof (view_getLogBuffer w Hw) as Ev. apply view_inv in Ev.
    destruct Ev as (_ & Hq & _ & _ & _ & Hn & _ & _ & _ & Hb). auto.
  - rewrite step_beforeExit. destruct (beforeExit w); [auto|].
    rewrite flush_eq.
    apply Hfl; [done|apply queue_cancel|apply batches_cancel].
Qed.

Lemma queue_bound_run (m : float) (N : nat) tr w :
  threshold_at m N = true -> N <> 0 ->
  forallb keeps_settings tr = true ->
  Required.maxBufferSize (getA11yLoggerConfig w) = m -> wf w ->
  length (queue w) < N /\ Forall (fun b => 1 <= length b <= N) (batches w) ->
  let w' := run host tr w in
  length (queue w') < N /\ Forall (fun b => 1 <= length b <= N) (batches w').
Proof.
  intros Hm HN. revert w.
  induction tr as [|ev tr IH]; intros w Hk Hc Hw [Hq Hb]; [done|].
  simpl in Hk. apply andb_true_iff in Hk as [Hev Hk].
  cbn [run fold_left]. fold (run host tr (step host w ev)).
  apply IH; [done| |exact (proj1 (grows_step host w ev Hw))|].
  { unfold getA11yLoggerConfig in *. by rewrite config_step. }
  assert (match ev with Call _ _ => False | _ => True end
          \/ exists c now, ev = Call c now) as [Ho|(c & now & ->)]
    by (destruct ev; eauto).
  - destruct (other_effect w ev Hw Ho)
      as (_ & [(-> & ->)|[(-> & ->)|(-> & ->)]]).
    + done.
    + split; [simpl; lia|]. apply Forall_app. split; [done|].
      destruct (queue w) eqn:E; [done|].
      apply Forall_singleton. simpl in *. lia.
    + split; [simpl; lia|done].
  - pose proof (perform_effect c now w) as He. cbv zeta in He.
    rewrite Hc, (threshold_at_spec m N _ Hm) in He by lia.
    cbn [step]. destruct (Nat.leb N (length (queue w) + 1)) eqn:E.
    + destruct He as (-> & -> & _). split; [simpl; lia|].
      apply Forall_app. split; [done|]. apply Forall_singleton.
      apply Nat.leb_le in E. rewrite length_app. simpl. lia.
    + destruct He as (-> & ->). split; [|done].
      apply Nat.leb_gt in E. rewrite length_app. simpl. lia.
Qed.

(** X18. When [maxBufferSize] is a whole number [N] of at least one, set
    once and then left alone, the queue never holds [N] entries between
    two events: in every state reached, it holds fewer than [N], and every
    batch flushed so far holds at least one and at most [N] entries.  The
    recording call that finds [N - 1] entries queued flushes all [N] as one
    batch; one that finds fewer queues its entry and flushes nothing. *)
Theorem queue_stays_below_threshold (c : A11yLoggerConfig.t) (N : nat)
    (tr : list Event) :
  threshold_at (Required.maxBufferSize (resolve c)) N = true ->
  N <> 0 ->
  forallb keeps_settings tr = true ->
  let w := run host tr (configureA11yLogger c initial) in
  length (queue w) < N
  /\ Forall (fun b => 1 <= length b <= N) (batches w)
  /\ (forall r now,
        let w' := perform host r now w in
        (length (queue w) + 1 = N ->
         queue w' = []
         /\ batches w' = batches w ++ [queue w ++ [entry_of host r now]])
        /\ (length (queue w) + 1 < N ->
            queue w' = queue w ++ [entry_of host r now]
            /\ batches w' = batches w)).
Proof.
  intros Hm HN Hk w. set (w0 := configureA11yLogger c initial).
  assert (Required.maxBufferSize (getA11yLoggerConfig w0)
          = Required.maxBufferSize (resolve c)) as C0.
  { unfold w0, getA11yLoggerConfig, configureA11yLogger. simpl set_config.
    cbn [config]. by rewrite merge_empty_l. }
  assert (wf w0) as Hw0 by (by eexists).
  assert (length (queue w0) < N
          /\ Forall (fun b => 1 <= length b <= N) (batches w0)) as H0.
  { split; [|by constructor]. change (length (queue w0)) with 0. lia. }
  destruct (queue_bound_run _ N tr w0 Hm HN Hk C0 Hw0 H0) as [Hq Hb].
  change (run host tr w0) with w in Hq, Hb. split; [done|]. split; [done|].
  intros r now w'. pose proof (perform_effect r now w) as He.
  cbv zeta in He. fold w' in He.
  assert (Required.maxBufferSize (getA11yLoggerConfig w)
          = Required.maxBufferSize (resolve c)) as C.
  { unfold getA11yLoggerConfig, w. rewrite config_run by done. exact C0. }
  rewrite C, (threshold_at_spec _ N _ Hm) in He by lia.
  split; intros E.
  - rewrite (proj2 (Nat.leb_le _ _)) in He by lia.
    by destruct He as (? & ? & _).
  - by rewrite (proj2 (Nat.leb_gt _ _)) in He by lia.
Qed.

Lemma immediate_run tr w :
  forallb keeps_settings tr = true ->
  PrimFloat.leb (Required.maxBufferSize (getA11yLoggerConfig w)) 1 = true ->
  wf w -> queue w = [] ->
  let w' := run host tr w in
  queue w' = [] /\ nextHandle w' = nextHandle w
  /\ batches w' = batches w ++ map (fun e => [e]) (enqueued host tr).
Proof.
  revert w. induction tr as [|ev tr IH]; intros w Hk Hm Hw Hq.
  - simpl. by rewrite app_nil_r.
  - simpl in Hk. apply andb_true_iff in Hk as [Hev Hk].
    cbn [run fold_left]. fold (run host tr (step host w ev)).
    assert (getA11yLoggerConfig (step host w ev) = getA11yLoggerConfig w)
      as Hc by (unfold getA11yLoggerConfig; by rewrite config_step).
    assert (queue (step host w ev) = []
            /\ nextHandle (step host w ev) = nextHandle w
            /\ batches (step host w ev)
               = batches w ++ map (fun e => [e]) (enqueued host [ev]))
      as (Q & Hn & Hb).
    { assert (match ev with Call _ _ => False | _ => True end
              \/ exists c now, ev = Call c now) as [Ho|(c & now & ->)]
        by (destruct ev; eauto).
      - destruct (other_effect w ev Hw Ho)
          as (Hn & [(-> & ->)|[(-> & ->)|(-> & ->)]]); rewrite ?Hq;
          (split; [done|]); (split; [done|]);
          destruct ev; try done; by rewrite app_nil_r.
      - pose proof (perform_effect c now w) as He. cbv zeta in He.
        rewrite Hq in He. change (number_of_nat (length [] + 1))
          with (number_of_nat 1) in He.
        replace (number_of_nat 1) with 1%float in He
          by (vm_compute; reflexivity).
        rewrite Hm in He. cbn [step]. by destruct He as (-> & -> & ->). }
    destruct (IH (step host w ev)) as (Q' & Hn' & Hb');
      [done|by rewrite Hc|exact (proj1 (grows_step host w ev Hw))|done|].
    cbv zeta in Q', Hn', Hb'.
    rewrite Q', Hn', Hn, Hb', Hb, (enqueued_cons host ev tr), map_app,
      app_assoc.
    done.
Qed.

(** X19. When [maxBufferSize] is at most one, set once and then left
    alone, every recording call flushes its entry at once, as a batch of
    its own: over every trace the batches are the entries recorded, one
    per batch and in order, the queue is empty between two events, and no
    timer is ever armed. *)
Theorem immediate_flush_mode (c : A11yLoggerConfig.t) (tr : list Event) :
  PrimFloat.leb (Required.maxBufferSize (resolve c)) 1 = true ->
  forallb keeps_settings tr = true ->
  let w := run host tr (configureA11yLogger c initial) in
  queue w = [] /\ flushTimer w = None /\ timers w = []
  /\ nextHandle w = nextHandle initial
  /\ batches w = map (fun e => [e]) (enqueued host tr).
Proof.
  intros Hm Hk w. set (w0 := configureA11yLogger c initial).
  assert (getA11yLoggerConfig w0 = resolve c) as C0.
  { unfold w0, getA11yLoggerConfig, configureA11yLogger. simpl set_config.
    cbn [config]. by rewrite merge_empty_l. }
  assert (wf w0) as Hw0 by (by eexists).
  destruct (immediate_run tr w0 Hk) as (Q & Hn & Hb);
    [by rewrite C0|done|done|].
  change (run host tr w0) with w in Q, Hn, Hb.
  pose proof (reachable_ok host (Configure c :: tr)) as [Hw [Hh Hi]].
  change (run host (Configure c :: tr) initial) with w in Hw, Hh, Hi.
  assert (flushTimer w = None) as F.
  { destruct (flushTimer w) eqn:E; [|done].
    destruct (proj1 Hi); [eauto|done]. }
  split; [done|]. split; [done|]. split; [|done].
  rewrite F in Hh. simpl in Hh. by destruct (timers w).
Qed.

Lemma SFcompare_refl x : x <> S754_nan -> SFcompare x x = Some Eq.
Proof.
  destruct x as [s|s| |s m e]; intros N; try done.
  - by destruct s.
  - simpl. destruct s; rewrite Z.compare_refl.
    + pose proof (Pos.compare_cont_refl m Eq
                  : PosDef.Pos.compare_cont Eq m m = Eq) as A.
      by rewrite A.
    + pose proof (Pos.compare_cont_refl m Eq
                  : PosDef.Pos.compare_cont Eq m m = Eq) as A.
      by rewrite A.
Qed.

(** No number is at least NaN. *)
Lemma leb_nan (m x : float) :
  PrimFloat.eqb m m = false -> PrimFloat.leb m x = false.
Proof.
  rewrite Floats.FloatAxioms.eqb_spec, leb_spec. unfold SFeqb, SFleb.
  intros H. destruct (Prim2SF m) as [s|s| |s n e] eqn:E; [| |done|];
    by rewrite SFcompare_refl in H.
Qed.

Lemma scheduleFlush_is_Some w : is_Some (flushTimer (scheduleFlush host w)).
Proof.
  unfold scheduleFlush. destruct (flushTimer w) eqn:E; [by rewrite E|].
  simpl. destruct (timeout_unref host); simpl; eauto.
Qed.

(** X20. When [maxBufferSize] is NaN the size of the queue never triggers
    a flush: whatever the state and however long the queue, a recording
    call appends its entry, flushes, prints and sends nothing, and leaves
    a timer pending. *)
Theorem nan_threshold_never_flushes (c : Recording) (now : string)
    (w : World) :
  let m := Required.maxBufferSize (getA11yLoggerConfig w) in
  PrimFloat.eqb m m = false ->
  let w' := perform host c now w in
  queue w' = queue w ++ [entry_of host c now]
  /\ batches w' = batches w /\ outputs w' = outputs w
  /\ awaiting w' = awaiting w
  /\ is_Some (flushTimer w').
Proof.
  intros m Hm w'. unfold w'. rewrite perform_eq.
  destruct (view_ensureShutdownHook host w) as (s & b & Ev).
  destruct (view_fields _ _ _ _ _ _ _ _ _ _ _ Ev)
    as (Hc & Hq & _ & _ & _ & _ & _ & Ha & Ho & Hb).
  set (g := ensureShutdownHook host w) in *.
  rewrite addLog_eq. unfold getA11yLoggerConfig. rewrite Hc.
  fold (getA11yLoggerConfig w). fold m. rewrite (leb_nan m _ Hm).
  set (p := push (logBuffer g) (entry_of host c now) g).
  destruct (scheduleFlush_frame host p) as (_ & -> & -> & -> & ->).
  unfold p. rewrite queue_push, Hq.
  repeat split; try done. apply scheduleFlush_is_Some.
Qed.

End Threshold.

(** ** Arrays handed out *)

Section Snapshot.
Variable host : Host.

Lemma elements_same l w w' : store w' = store w -> elements l w' = elements l w.
Proof. unfold elements. by intros ->. Qed.

Lemma elements_push_other l x w :
  logBuffer w <> l -> elements l (push (logBuffer w) x w) = elements l w.
Proof.
  intros N. unfold push, elements at 1. simpl. by rewrite lookup_insert_ne.
Qed.

Lemma elements_detach l w :
  is_Some (store w !! l) -> elements l (detach w) = elements l w.
Proof.
  intros Hl. unfold detach, elements at 1. simpl.
  rewrite !lookup_insert_ne; [done| |].
  - intros E. rewrite <- E in Hl. rewrite fresh_None in Hl. by destruct Hl.
  - intros E. rewrite <- E in Hl.
    pose proof (fresh_None (<[fresh (dom (store w)) := queue w]> (store w)))
      as F.
    destruct (decide (fresh (dom (<[fresh (dom (store w)) := queue w]>
                                    (store w)))
                      = fresh (dom (store w)))) as [E'|N].
    + rewrite E', lookup_insert_eq in F. discriminate.
    + rewrite lookup_insert_ne in F by done. rewrite F in Hl. by destruct Hl.
Qed.

Lemma elements_flushLogs l w :
  is_Some (store w !! l) -> elements l (flushLogs host w).1 = elements l w.
Proof.
  intros Hl. destruct (queue w) eqn:Q.
  - by rewrite flushLogs_empty.
  - rewrite flushLogs_detach by (by rewrite Q). cbv zeta.
    cbn [fst]. rewrite <- (elements_detach l w Hl). by apply elements_same.
Qed.

Lemma elements_cancel l w : elements l (cancel w) = elements l w.
Proof. apply elements_same. unfold cancel. by destruct (flushTimer w). Qed.

Lemma elements_scheduleFlush l w :
  elements l (scheduleFlush host w) = elements l w.
Proof.
  apply elements_same. unfold scheduleFlush.
  destruct (flushTimer w); [done|]. simpl.
  by destruct (timeout_unref host).
Qed.

Lemma elements_ensureShutdownHook l w :
  elements l (ensureShutdownHook host w) = elements l w
  /\ store (ensureShutdownHook host w) = store w
  /\ logBuffer (ensureShutdownHook host w) = logBuffer w.
Proof.
  unfold ensureShutdownHook. destruct (shutdownHookRegistered w); [done|].
  destruct (negb _); [done|]. by destruct (process_on host).
Qed.

Lemma elements_addLog l x w :
  held l w -> elements l (addLog host x w) = elements l w.
Proof.
  intros [Hl Hn]. rewrite addLog_eq. set (p := push (logBuffer w) x w).
  assert (elements l p = elements l w) as Hp by (by apply elements_push_other).
  assert (is_Some (store p !! l)) as Hlp
    by (unfold p, push; simpl; by apply insert_is_Some).
  destruct (PrimFloat.leb _ _).
  - rewrite elements_flushLogs, elements_cancel; [done|].
    unfold cancel. by destruct (flushTimer p).
  - by rewrite elements_scheduleFlush.
Qed.

Lemma elements_flush l w :
  is_Some (store w !! l) ->
  elements l (a11yLogger.flush host w).1 = elements l w.
Proof.
  intros Hl. rewrite flush_eq, elements_flushLogs, elements_cancel; [done|].
  unfold cancel. by destruct (flushTimer w).
Qed.

Lemma elements_step l w ev :
  held l w -> elements l (step host w ev) = elements l w.
Proof.
  intros Hh. pose proof Hh as [Hl Hn].
  destruct ev as [c now| |h|r|c| | | |].
  - cbn [step]. rewrite perform_eq.
    destruct (elements_ensureShutdownHook l w) as (He & Hs & Hb).
    rewrite elements_addLog; [done|]. split; [by rewrite Hs|by rewrite Hb].
  - by apply elements_flush.
  - cbn [step]. unfold fire, timer_callback. case_decide; [|done].
    by rewrite elements_flushLogs.
  - cbn [step]. unfold flushLogs_resume.
    destruct (awaiting w); [done|]. by destruct r.
  - done.
  - done.
  - cbn [step]. unfold _resetInternalState.
    change (match flushTimer w with
            | Some h => set_flushTimer None (clearTimeout h w)
            | None => w
            end) with (cancel w).
    destruct (alloc [] (cancel w)) as [l0 w0] eqn:E.
    change (elements l (set_shutdownHookRegistered false (set_logBuffer l0 w0)))
      with (elements l w0).
    replace w0 with (alloc [] (cancel w)).2 by (by rewrite E).
    rewrite elements_alloc, elements_cancel; [done|].
    unfold cancel. by destruct (flushTimer w).
  - cbn [step]. unfold _getLogBuffer. by apply elements_alloc.
  - rewrite step_beforeExit. destruct (beforeExit w); [done|].
    by apply elements_flush.
Qed.

Lemma elements_run l tr w :
  wf w -> held l w -> elements l (run host tr w) = elements l w.
Proof.
  revert w. induction tr as [|ev tr IH]; intros w Hw Hh; [done|].
  cbn [run fold_left]. fold (run host tr (step host w ev)).
  pose proof (grows_step host w ev Hw) as [Hw' He].
  rewrite IH; [by apply elements_step|done|].
  by apply (held_grows l w).
Qed.

(** X21. The array [_getLogBuffer] returns is a snapshot: it holds the
    queue as it was at the call, and nothing the module does afterwards
    changes it.  Over every later trace of recording calls, flushes,
    timers, state resets and further calls of [_getLogBuffer], its
    elements stay the entries that were queued when it was taken. *)
Theorem getLogBuffer_snapshot (tr0 tr : list Event) :
  let w := run host tr0 initial in
  let l := (_getLogBuffer w).1 in
  let w1 := (_getLogBuffer w).2 in
  elements l w1 = queue w
  /\ elements l (run host tr w1) = queue w
  /\ logBuffer (run host tr w1) <> l.
Proof.
  intros w l w1. destruct (reachable_ok host tr0) as [Hw _]. fold w in Hw.
  assert (elements l w1 = queue w) as E
    by (unfold l, w1, _getLogBuffer, alloc; simpl; apply elements_insert).
  assert (held l w1) as Hh.
  { split.
    - unfold l, w1, _getLogBuffer, alloc. simpl.
      rewrite lookup_insert_eq. eauto.
    - unfold l, w1, _getLogBuffer, alloc. simpl. intros E'.
      destruct Hw as [xs Hx]. rewrite E' in Hx.
      by rewrite fresh_None in Hx. }
  assert (wf w1) as Hw1 by exact (proj1 (grows_alloc w (queue w) Hw)).
  split; [done|]. split.
  - by rewrite elements_run.
  - assert (forall tr' w0, wf w0 -> held l w0 -> held l (run host tr' w0))
      as Hrun.
    { induction tr' as [|ev tr' IH]; intros w0 Hw0 Hh0; [done|].
      cbn [run fold_left]. fold (run host tr' (step host w0 ev)).
      pose proof (grows_step host w0 ev Hw0) as [Hw' He].
      apply IH; [done|]. by apply (held_grows l w0). }
    by destruct (Hrun tr w1 Hw1 Hh).
Qed.

End Snapshot.

(** ** No empty batch *)

Section NonEmpty.
Variable host : Host.

Lemma fetches_nonempty cfg nb :
  Forall (fun b => b <> []) nb ->
  Forall (carries_entries host) (fetches (concat (map (dispatch host cfg) nb))).
Proof.
  induction 1 as [|b nb Hb Hnb IH]; [constructor|].
  cbn [map concat]. rewrite fetches_app. apply Forall_app. split; [|done].
  unfold dispatch. destruct (Required.lokiEnabled cfg).
  - apply Forall_singleton. by exists cfg, b.
  - destruct (Required.isDevelopment cfg); [|constructor].
    rewrite fetches_echo. constructor.
Qed.

(** The batches one event detaches hold entries, and so do the requests it
    makes. *)
Lemma step_nonempty w ev :
  wf w ->
  exists nb d,
    batches (step host w ev) = batches w ++ nb
    /\ outputs (step host w ev) = outputs w ++ d
    /\ Forall (fun b => b <> []) nb
    /\ Forall (carries_entries host) (fetches d).
Proof.
  intros Hw. pose proof (step_effect host w ev) as He. cbv zeta in He.
  assert (forall nb X,
            flushed host w (step host w ev) nb ->
            batches (step host w ev) = batches w ++ X ->
            Forall (fun b => b <> []) X ->
            exists nb d,
              batches (step host w ev) = batches w ++ nb
              /\ outputs (step host w ev) = outputs w ++ d
              /\ Forall (fun b => b <> []) nb
              /\ Forall (carries_entries host) (fetches d)) as Hfl.
  { intros nb X (_ & Hb & Ho & _) HX HF.
    assert (nb = X) as -> by (apply (app_inv_head (batches w)); congruence).
    exists X, (concat (map (dispatch host (getA11yLoggerConfig w)) X)).
    split; [done|]. split; [done|]. split; [done|].
    by apply fetches_nonempty. }
  assert (forall d,
            batches (step host w ev) = batches w ->
            outputs (step host w ev) = outputs w ++ d ->
            fetches d = [] ->
            exists nb d,
              batches (step host w ev) = batches w ++ nb
              /\ outputs (step host w ev) = outputs w ++ d
              /\ Forall (fun b => b <> []) nb
              /\ Forall (carries_entries host) (fetches d)) as Hno.
  { intros d Hb Ho Hd. exists [], d. rewrite app_nil_r, Hd.
    repeat split; try done; constructor. }
  assert (match ev with Call _ _ => False | _ => True end ->
          (exists nb, flushed host w (step host w ev) nb) ->
          exists nb d,
            batches (step host w ev) = batches w ++ nb
            /\ outputs (step host w ev) = outputs w ++ d
            /\ Forall (fun b => b <> []) nb
            /\ Forall (carries_entries host) (fetches d)) as Hother.
  { intros Ho [nb Hnb].
    destruct (other_effect host w ev Hw Ho)
      as (_ & [(_ & Hb)|[(_ & Hb)|(_ & Hb)]]).
    - apply (Hfl nb [] Hnb); [by rewrite app_nil_r|constructor].
    - apply (Hfl nb _ Hnb Hb).
      destruct (queue w); [constructor|]. by apply Forall_singleton.
    - apply (Hfl nb [] Hnb); [by rewrite app_nil_r|constructor]. }
  destruct ev as [c now| |h|r|c| | | |]; try (by apply Hother).
  - destruct He as [nb He].
    pose proof (perform_effect host c now w) as Hp. cbv zeta in Hp.
    cbn [step]. cbn [step] in He. destruct (PrimFloat.leb _ _).
    + destruct Hp as (_ & Hb & _). apply (Hfl nb _ He Hb).
      apply Forall_singleton. by destruct (queue w).
    + destruct Hp as (_ & Hb). apply (Hfl nb [] He).
      * by rewrite app_nil_r.
      * constructor.
  - destruct He as (_ & Hb & [(_ & Ho & _)|(_ & Ho)]).
    + apply (Hno []); [done|by rewrite app_nil_r|done].
    + eapply Hno; [done|exact Ho|]. by destruct r.
  - destruct He as (_ & Hb & Ho & _).
    apply (Hno []); [done|by rewrite app_nil_r|done].
  - destruct He as (_ & Hb & Ho & _).
    apply (Hno []); [done|by rewrite app_nil_r|done].
Qed.

(** X22. No flush ever detaches an empty batch and no request is ever made
    for nothing: over every trace from the initial state, however the
    settings change, every batch holds at least one entry and every
    request handed to [fetch] is the push request of a batch of at least
    one entry. *)
Theorem no_empty_batch (tr : list Event) :
  let w := run host tr initial in
  Forall (fun b => b <> []) (batches w)
  /\ Forall (carries_entries host) (fetches (outputs w)).
Proof.
  intros w.
  assert (forall tr' w0,
            wf w0 ->
            Forall (fun b => b <> []) (batches w0)
            /\ Forall (carries_entries host) (fetches (outputs w0)) ->
            Forall (fun b => b <> []) (batches (run host tr' w0))
            /\ Forall (carries_entries host)
                 (fetches (outputs (run host tr' w0)))) as Hrun.
  { induction tr' as [|ev tr' IH]; intros w0 Hw0 [Hb Hf]; [done|].
    cbn [run fold_left]. fold (run host tr' (step host w0 ev)).
    apply IH; [exact (proj1 (grows_step host w0 ev Hw0))|].
    destruct (step_nonempty w0 ev Hw0) as (nb & d & -> & -> & Hnb & Hd).
    rewrite fetches_app. split; apply Forall_app; by split. }
  apply Hrun; [by eexists|]. split; constructor.
Qed.

End NonEmpty.

(** ** The ratio of a contrast entry *)

(** X23. The level and the [ratio] label of a contrast entry agree in one
    direction only: an entry at level [error] always carries a [ratio]
    label below 3, while a call that supplies no ratio is recorded with
    the label [ratio: 0] at level [warn]. *)
Theorem contrast_ratio_label (message : string) (l : ContrastLabels.t)
    (now : string) :
  let e := a11yLogger.contrast_entry message l now in
  (level e = Error ->
   exists v,
     obj_get "ratio" (labels e) = Some (Num v) /\ PrimFloat.ltb v 3 = true)
  /\ (ContrastLabels.ratio l = None ->
      level e = Warn /\ obj_get "ratio" (labels e) = Some (Num 0)).
Proof.
  intros e. unfold e. split.
  - cbn [a11yLogger.contrast_entry level labels obj_get String.eqb Ascii.eqb
         Bool.eqb].
    destruct (ContrastLabels.ratio l) as [r|]; [|discriminate].
    destruct (PrimFloat.ltb r 3) eqn:E; [|discriminate]. intros _.
    unfold or_number. destruct (truthy_number r); eexists; split; try done.
  - intros H. cbn [a11yLogger.contrast_entry level labels obj_get String.eqb
                   Ascii.eqb Bool.eqb].
    by rewrite H.
Qed.

(** ** Instances *)

(** A recording call, a state reset and a second recording call leave two
    listeners. *)
Lemma reset_registers_again_witness :
  beforeExit
    (perform plain_host (Wcag "Missing alt text" WcagLabels.empty)
       "2023-11-14T22:13:20.456Z"
       (_resetInternalState (run plain_host [first_call] initial)))
  = 2.
Proof.
  assert (Required.registerShutdownHook
            (getA11yLoggerConfig (run plain_host [first_call] initial))
          = true) as H by (vm_compute; reflexivity).
  rewrite (proj1 (reset_registers_again plain_host _ _ _ H eq_refl)).
  vm_compute. reflexivity.
Defined.

(** Two entries flushed one by one to Loki: two requests, in order. *)
Lemma batches_delivered_in_order_witness :
  fetches
    (outputs
       (run plain_host [first_call; Flush; second_call; TimerFires 2]
          (configureA11yLogger remote_settings initial)))
  = [push_request plain_host (resolve remote_settings) [first_entry];
     push_request plain_host (resolve remote_settings) [second_entry]].
Proof.
  rewrite (proj1 (proj2 (proj2
             (batches_delivered_in_order plain_host remote_settings
                [first_call; Flush; second_call; TimerFires 2] eq_refl)))
             eq_refl).
  vm_compute. reflexivity.
Defined.

(** Two entries queued under the defaults are flushed as the process exits. *)
Lemma nothing_left_at_exit_witness :
  queue (run plain_host ([first_call; second_call] ++ [BeforeExit]) initial)
  = []
  /\ concat
       (batches
          (run plain_host ([first_call; second_call] ++ [BeforeExit])
             initial))
     = [first_entry; second_entry].
Proof.
  destruct (nothing_left_at_exit plain_host [first_call; second_call]
              eq_refl eq_refl) as (Q & _ & _ & H).
  split; [exact Q|]. rewrite (H eq_refl). vm_compute. reflexivity.
Defined.

(** The timer the first entry arms under the defaults: one second, [unref]ed. *)
Lemma pending_timer_delay_witness :
  timers
    (run plain_host [first_call]
       (configureA11yLogger development_settings initial))
  = [armed plain_host 1 1000%float].
Proof.
  pose proof (proj1 (pending_timer_delay plain_host development_settings
                       A11yLoggerConfig.empty [first_call] eq_refl)) as H.
  vm_compute in H. vm_compute. exact H.
Defined.

(** The default [maxBufferSize] is the whole number 100. *)
Lemma queue_stays_below_threshold_witness :
  length
    (queue
       (run plain_host [first_call; second_call]
          (configureA11yLogger A11yLoggerConfig.empty initial)))
  < 100.
Proof.
  assert (threshold_at
            (Required.maxBufferSize (resolve A11yLoggerConfig.empty)) 100
          = true) as H by (vm_compute; reflexivity).
  apply (proj1 (queue_stays_below_threshold plain_host
                  A11yLoggerConfig.empty 100 [first_call; second_call]
                  H ltac:(lia) eq_refl)).
Defined.

(** [maxBufferSize: 1]: two recording calls, two batches. *)
Lemma immediate_flush_mode_witness :
  batches
    (run plain_host [first_call; second_call]
       (configureA11yLogger (threshold_settings 1) initial))
  = [[first_entry]; [second_entry]].
Proof.
  assert (PrimFloat.leb
            (Required.maxBufferSize (resolve (threshold_settings 1))) 1
          = true) as H by (vm_compute; reflexivity).
  rewrite (proj2 (proj2 (proj2 (proj2
             (immediate_flush_mode plain_host (threshold_settings 1)
                [first_call; second_call] H eq_refl))))).
  vm_compute. reflexivity.
Defined.

(** [maxBufferSize: NaN]: the second entry is queued behind the first. *)
Lemma nan_threshold_never_flushes_witness :
  length
    (queue
       (perform plain_host (Wcag "Missing alt text" WcagLabels.empty)
          "2023-11-14T22:13:20.456Z" nan_world))
  = 2.
Proof.
  assert (PrimFloat.eqb
            (Required.maxBufferSize (getA11yLoggerConfig nan_world))
            (Required.maxBufferSize (getA11yLoggerConfig nan_world))
          = false) as H by (vm_compute; reflexivity).
  rewrite (proj1 (nan_threshold_never_flushes plain_host _ _ nan_world H)).
  vm_compute. reflexivity.
Defined.

(** [registerShutdownHook: false]: the two entries are still queued after
    the exit event. *)
Lemma hook_disabled_never_registers_witness :
  queue
    (step plain_host
       (run plain_host [first_call; second_call]
          (configureA11yLogger no_hook_settings initial))
       BeforeExit)
  = [first_entry; second_entry].
Proof.
  rewrite (proj2 (proj2
             (hook_disabled_never_registers plain_host no_hook_settings
                [first_call; second_call] eq_refl eq_refl))).
  vm_compute. reflexivity.
Defined.
